(** * Library management API: the borrowing engine

    A shallow embedding of the transaction router (the handlers
    [router.post('/borrow')], [router.post('/return')],
    [router.post('/:id/renew')] and the helpers [getBorrowingLimit],
    [calculateDueDate], [calculateLateFee]) together with the properties
    the specification states about it.

    Conventions of the embedding.
    - A JavaScript [Date] is its time value: a count of milliseconds
      since the epoch ([DateMs t]) or the Invalid Date ([InvalidDate],
      time value NaN).  [setDate(getDate() + n)] is calendar arithmetic
      in the host zone; the host zone is taken to be UTC, where it moves
      the time value by [n] times [msPerDay].  Time values are taken
      inside the range of a [Date], far from its two ends.
    - Money is counted in cents: the source's [0.50] is [50] and its
      [25.00] is [2500].  Every amount the fee calculator produces is a
      multiple of one half, so the doubles of the source carry it
      exactly; likewise the quotient fed to [Math.ceil] is far enough
      from an integer, whenever it decides the fee, for the rounded
      division to have the ceiling of the exact one.
    - Counters and quantities are integers ([Z]).
    - The three module-level arrays [transactions], [users], [books] are
      the fields of one [Store], threaded through the handlers. *)

From stdpp Require Import base decidable option list gmap strings pretty.
From stdpp Require Import sorting.
From Stdlib Require Import ZArith Lia.

Local Open Scope Z_scope.

(** ** JavaScript values met by the engine *)

(** A number, or NaN. *)
Inductive JsNum : Type :=
  | Num (z : Z)
  | NaN.

(** What a property read on one of the policy tables can give: a number
    held by the table itself, or a member the table inherits from
    [Object.prototype] (a function, or for [__proto__] the prototype
    object): never a number, always truthy. *)
Inductive JsVal : Type :=
  | JNum (n : Z)
  | JProto (key : string).

Inductive Date : Type :=
  | DateMs (t : Z)
  | InvalidDate.

Global Instance JsNum_eq_dec : EqDecision JsNum.
Proof. solve_decision. Defined.
Global Instance JsVal_eq_dec : EqDecision JsVal.
Proof. solve_decision. Defined.
Global Instance Date_eq_dec : EqDecision Date.
Proof. solve_decision. Defined.

(** The property names every object literal inherits. *)
Definition objectPrototype : list string :=
  [ "constructor"; "hasOwnProperty"; "isPrototypeOf"; "propertyIsEnumerable";
    "toLocaleString"; "toString"; "valueOf"; "__proto__";
    "__defineGetter__"; "__defineSetter__"; "__lookupGetter__";
    "__lookupSetter__" ]%string.

(** [table[key]] on an object literal [table]: own properties first, then
    the prototype chain; [None] is [undefined]. *)
Definition getProp (table : gmap string Z) (key : string) : option JsVal :=
  match table !! key with
  | Some n => Some (JNum n)
  | None =>
      if bool_decide (key ∈ objectPrototype) then Some (JProto key) else None
  end.

(** [v || d]: [undefined] and [0] are falsy, objects and functions are
    truthy. *)
Definition orDefault (v : option JsVal) (d : Z) : JsVal :=
  match v with
  | Some (JNum n) => if bool_decide (n = 0) then JNum d else JNum n
  | Some (JProto k) => JProto k
  | None => JNum d
  end.

(** [count >= v] with a number on the left: a function or an object on
    the right converts to NaN, and every comparison with NaN is false. *)
Definition geVal (count : Z) (v : JsVal) : bool :=
  match v with
  | JNum n => bool_decide (n ≤ count)
  | JProto _ => false
  end.

(** ** Policy table *)

Definition limits : gmap string Z :=
  list_to_map [("BASIC", 3); ("PREMIUM", 10); ("STUDENT", 5)]%string.

Definition getBorrowingLimit (membershipType : string) : JsVal :=
  orDefault (getProp limits membershipType) 3.

Definition borrowPeriods : gmap string Z :=
  list_to_map [("BASIC", 14); ("PREMIUM", 30); ("STUDENT", 21)]%string.

(** The local [days] of [calculateDueDate]. *)
Definition loanPeriodDays (membershipType : string) : JsVal :=
  orDefault (getProp borrowPeriods membershipType) 14.

Definition msPerDay : Z := 1000 * 60 * 60 * 24.

(** [dueDate.setDate(dueDate.getDate() + days)]: with a number it moves
    the date by that many days; with anything else [+] concatenates
    strings and [setDate] receives NaN. *)
Definition calculateDueDate (borrowDate : Date) (membershipType : string) : Date :=
  match loanPeriodDays membershipType, borrowDate with
  | JNum days, DateMs t => DateMs (t + days * msPerDay)
  | _, _ => InvalidDate
  end.

(** ** Fee calculator *)

(** [Math.ceil(a / b)] for integers [a] and a positive [b]. *)
Definition ceilDiv (a b : Z) : Z := - ((- a) `div` b).

Definition baseFee : Z := 50.
Definition maxFee : Z := 2500.

Definition calculateLateFee (dueDate returnDate : Date) : JsNum :=
  match dueDate, returnDate with
  | DateMs due, DateMs ret =>
      if bool_decide (ret ≤ due) then Num 0
      else
        let daysOverdue := ceilDiv (ret - due) msPerDay in
        Num (Z.min (daysOverdue * baseFee) maxFee)
  | _, _ => NaN
  end.

(** [Math.max(0, Math.ceil((returnDate - dueDate) / msPerDay))], the
    [daysOverdue] of the return reply. *)
Definition daysOverdueOf (dueDate returnDate : Date) : JsNum :=
  match dueDate, returnDate with
  | DateMs due, DateMs ret => Num (Z.max 0 (ceilDiv (ret - due) msPerDay))
  | _, _ => NaN
  end.

(** ** Data model *)

Inductive Status : Type :=
  | BORROWED
  | RETURNED
  | OVERDUE.

Global Instance Status_eq_dec : EqDecision Status.
Proof. solve_decision. Defined.

(** An element of the [transactions] array.  The three records of the
    source all call their key [_id]; here they are [trans_id], [user_id]
    and [book_id].  Fields that an object may lack are options. *)
Record Transaction : Type := mkTransaction {
  trans_id : string;
  userId : string;
  bookId : string;
  borrowDate : Date;
  dueDate : Date;
  returnDate : option Date;
  status : Status;
  lateFee : JsNum;
  renewalCount : Z;
  notes : option string;
  createdAt : option Date;
  returnCondition : option string;
  returnNotes : option string;
  updatedAt : option Date
}.

(** An element of the [users] array.  [isActive] is the flag of the user
    schema; the records of the router's own array do not carry it. *)
Record User : Type := mkUser {
  user_id : string;
  name : string;
  membershipType : string;
  borrowedBooks : list string;
  isActive : option bool
}.

Record Book : Type := mkBook {
  book_id : string;
  title : string;
  availableQuantity : Z;
  totalQuantity : Z
}.

Record Store : Type := mkStore {
  transactions : list Transaction;
  users : list User;
  books : list Book
}.

(** ** Replies *)

(** The failing replies of the three handlers, named after the failure
    kinds of the specification; [httpStatus] and [failureMessage] give
    what the handler sends. *)
Inductive Failure : Type :=
  | NotFoundBook
  | Unavailable
  | NotFoundMember
  | LimitReached
  | AlreadyBorrowed
  | NotFoundTransaction
  | Forbidden
  | AlreadyReturned
  | NotRenewable
  | RenewalLimitReached
  | Overdue
  | InternalError.

Global Instance Failure_eq_dec : EqDecision Failure.
Proof. solve_decision. Defined.

Definition failureStatus (f : Failure) : Z :=
  match f with
  | NotFoundBook | NotFoundMember | NotFoundTransaction => 404
  | Forbidden => 403
  | InternalError => 500
  | _ => 400
  end.

(** The [message] of the reply; for [LimitReached] the source appends the
    membership type and the limit, for [InternalError] it is the message
    of the caught exception. *)
Definition failureMessage (f : Failure) : string :=
  match f with
  | NotFoundBook => "Book not found"
  | Unavailable => "Book is not available for borrowing"
  | NotFoundMember => "User not found"
  | LimitReached => "Borrowing limit reached."
  | AlreadyBorrowed => "You have already borrowed this book"
  | NotFoundTransaction => "Transaction not found"
  | Forbidden => "Access denied. This transaction does not belong to you."
  | AlreadyReturned => "Book has already been returned"
  | NotRenewable => "Can only renew currently borrowed books"
  | RenewalLimitReached => "Maximum renewal limit (3) reached"
  | Overdue =>
      "Cannot renew overdue books. Please return the book and pay any late fees."
  | InternalError =>
      "Cannot read properties of undefined (reading 'membershipType')"
  end.

(** The closed taxonomy of the specification: every kind but the
    internal one. *)
Definition typedFailure (f : Failure) : bool :=
  match f with InternalError => false | _ => true end.

Inductive Reply : Type :=
  | Failed (f : Failure)
  | BorrowedOk (transaction : Transaction) (book user : string * string)
  | ReturnedOk (transaction : Transaction) (book : option (string * string))
               (daysOverdue : JsNum)
  | RenewedOk (transaction : Transaction) (newDueDate : Date)
              (renewalsRemaining : Z).

Definition httpStatus (r : Reply) : Z :=
  match r with
  | Failed f => failureStatus f
  | BorrowedOk _ _ _ => 201
  | ReturnedOk _ _ _ => 200
  | RenewedOk _ _ _ => 200
  end.

Definition succeeded (r : Reply) : bool :=
  match r with Failed _ => false | _ => true end.

(** ** Store look-ups *)

(** [books.find(b => b._id === bookId)] with its index
    ([books.findIndex] of the same predicate). *)
Definition findBook (bid : string) (s : Store) : option (nat * Book) :=
  list_find (λ b, book_id b = bid) (books s).

Definition findUser (uid : string) (s : Store) : option (nat * User) :=
  list_find (λ u, user_id u = uid) (users s).

Definition findTransaction (tid : string) (s : Store)
  : option (nat * Transaction) :=
  list_find (λ t, trans_id t = tid) (transactions s).

(** [transactions.filter(t => t.userId === userId && t.status ===
    'BORROWED').length] *)
Definition currentBorrowedCount (uid : string) (s : Store) : Z :=
  Z.of_nat (length (filter (λ t, userId t = uid ∧ status t = BORROWED)
                           (transactions s))).

(** [transactions.find(t => t.userId === userId && t.bookId === bookId &&
    t.status === 'BORROWED')] *)
Definition existingTransaction (uid bid : string) (s : Store)
  : option (nat * Transaction) :=
  list_find (λ t, userId t = uid ∧ bookId t = bid ∧ status t = BORROWED)
            (transactions s).

(** [new Date(dueDate) < now] *)
Definition pastDue (dueDate : Date) (now : Z) : Prop :=
  match dueDate with
  | DateMs due => due < now
  | InvalidDate => False
  end.

Global Instance pastDue_dec dueDate now : Decision (pastDue dueDate now).
Proof. destruct dueDate; simpl; apply _. Defined.

(** ** Record updates *)

Definition adjustAvailable (delta : Z) (b : Book) : Book :=
  {| book_id := book_id b; title := title b;
     availableQuantity := availableQuantity b + delta;
     totalQuantity := totalQuantity b |}.

(** [{ ...transaction, returnDate, status: 'RETURNED', lateFee,
      returnCondition: condition, returnNotes: notes || '', updatedAt }] *)
Definition markReturned (t : Transaction) (ret : Date) (fee : JsNum)
    (condition returnNote : string) (stamp : Date) : Transaction :=
  {| trans_id := trans_id t; userId := userId t; bookId := bookId t;
     borrowDate := borrowDate t; dueDate := dueDate t;
     returnDate := Some ret; status := RETURNED; lateFee := fee;
     renewalCount := renewalCount t; notes := notes t;
     createdAt := createdAt t;
     returnCondition := Some condition; returnNotes := Some returnNote;
     updatedAt := Some stamp |}.

(** [{ ...transaction, dueDate: newDueDate, renewalCount:
      transaction.renewalCount + 1, updatedAt }] *)
Definition markRenewed (t : Transaction) (newDueDate : Date) (stamp : Date)
  : Transaction :=
  {| trans_id := trans_id t; userId := userId t; bookId := bookId t;
     borrowDate := borrowDate t; dueDate := newDueDate;
     returnDate := returnDate t; status := status t; lateFee := lateFee t;
     renewalCount := renewalCount t + 1; notes := notes t;
     createdAt := createdAt t;
     returnCondition := returnCondition t; returnNotes := returnNotes t;
     updatedAt := Some stamp |}.

(** ** The handlers

    Each handler takes the authenticated caller, the request fields and
    two readings of the clock ([now] for the date the handler computes
    with, [stamp] for [createdAt] or [updatedAt]), and maps a store to a
    reply and the store it leaves. *)

(** The object literal [newTransaction] of the borrow handler. *)
Definition newTransaction (s : Store) (uid bid : string) (note : option string)
    (now stamp : Z) (user : User) : Transaction :=
  let borrowDate := DateMs now in
  let dueDate := calculateDueDate borrowDate (membershipType user) in
  {| trans_id := "trans" +:+ pretty (length (transactions s) + 1)%nat;
     userId := uid; bookId := bid;
     borrowDate := borrowDate; dueDate := dueDate;
     returnDate := None; status := BORROWED;
     lateFee := Num 0; renewalCount := 0;
     notes := Some (default "" note);
     createdAt := Some (DateMs stamp);
     returnCondition := None; returnNotes := None;
     updatedAt := None |}.

Definition borrow (uid bid : string) (note : option string) (now stamp : Z)
    (s : Store) : Reply * Store :=
  match findBook bid s with
  | None => (Failed NotFoundBook, s)
  | Some (bookIndex, book) =>
    if bool_decide (availableQuantity book ≤ 0) then (Failed Unavailable, s)
    else
      match findUser uid s with
      | None => (Failed NotFoundMember, s)
      | Some (_, user) =>
        let borrowingLimit := getBorrowingLimit (membershipType user) in
        if geVal (currentBorrowedCount uid s) borrowingLimit
        then (Failed LimitReached, s)
        else
          match existingTransaction uid bid s with
          | Some _ => (Failed AlreadyBorrowed, s)
          | None =>
            let created := newTransaction s uid bid note now stamp user in
            (BorrowedOk created (book_id book, title book)
                        (user_id user, name user),
             {| transactions := transactions s ++ [created];
                users := users s;
                books := alter (adjustAvailable (-1)) bookIndex (books s) |})
          end
      end
  end.

Definition returnBook (tid uid : string) (condition note : option string)
    (now stamp : Z) (s : Store) : Reply * Store :=
  match findTransaction tid s with
  | None => (Failed NotFoundTransaction, s)
  | Some (transactionIndex, transaction) =>
    if bool_decide (userId transaction ≠ uid) then (Failed Forbidden, s)
    else if bool_decide (status transaction = RETURNED)
    then (Failed AlreadyReturned, s)
    else
      let returnDate := DateMs now in
      let lateFee := calculateLateFee (dueDate transaction) returnDate in
      let updatedTransaction :=
        markReturned transaction returnDate lateFee
                     (default "GOOD" condition) (default "" note)
                     (DateMs stamp) in
      let found := findBook (bookId transaction) s in
      (ReturnedOk updatedTransaction
                  ((λ '(_, b), (book_id b, title b)) <$> found)
                  (daysOverdueOf (dueDate transaction) returnDate),
       {| transactions :=
            <[transactionIndex := updatedTransaction]> (transactions s);
          users := users s;
          books := match found with
                   | Some (bookIndex, _) =>
                       alter (adjustAvailable 1) bookIndex (books s)
                   | None => books s
                   end |})
  end.

(** [user.membershipType] on an absent user throws; the [catch] of the
    handler answers 500 before anything was written. *)
Definition renew (tid uid : string) (now stamp : Z) (s : Store)
  : Reply * Store :=
  match findTransaction tid s with
  | None => (Failed NotFoundTransaction, s)
  | Some (transactionIndex, transaction) =>
    if bool_decide (userId transaction ≠ uid) then (Failed Forbidden, s)
    else if bool_decide (status transaction ≠ BORROWED)
    then (Failed NotRenewable, s)
    else if bool_decide (3 ≤ renewalCount transaction)
    then (Failed RenewalLimitReached, s)
    else if bool_decide (pastDue (dueDate transaction) now)
    then (Failed Overdue, s)
    else
      match findUser uid s with
      | None => (Failed InternalError, s)
      | Some (_, user) =>
        let newDueDate :=
          calculateDueDate (dueDate transaction) (membershipType user) in
        let updatedTransaction :=
          markRenewed transaction newDueDate (DateMs stamp) in
        (RenewedOk updatedTransaction newDueDate
                   (3 - renewalCount updatedTransaction),
         {| transactions :=
              <[transactionIndex := updatedTransaction]> (transactions s);
            users := users s;
            books := books s |})
      end
  end.

(** ** The seeded store *)

Definition seedTransactions : list Transaction :=
  [ {| trans_id := "trans1"; userId := "user1"; bookId := "book1";
       borrowDate := DateMs 1705276800000; dueDate := DateMs 1707868800000;
       returnDate := None; status := BORROWED; lateFee := Num 0;
       renewalCount := 0; notes := None; createdAt := None;
       returnCondition := None; returnNotes := None; updatedAt := None |};
    {| trans_id := "trans2"; userId := "user2"; bookId := "book2";
       borrowDate := DateMs 1704844800000; dueDate := DateMs 1706745600000;
       returnDate := Some (DateMs 1706572800000); status := RETURNED;
       lateFee := Num 0; renewalCount := 1; notes := None; createdAt := None;
       returnCondition := None; returnNotes := None; updatedAt := None |} ].

Definition seedUsers : list User :=
  [ {| user_id := "user1"; name := "John Doe"; membershipType := "PREMIUM";
       borrowedBooks := []; isActive := None |};
    {| user_id := "user2"; name := "Jane Smith"; membershipType := "STUDENT";
       borrowedBooks := []; isActive := None |} ].

Definition seedBooks : list Book :=
  [ {| book_id := "book1"; title := "The Great Gatsby";
       availableQuantity := 3; totalQuantity := 5 |};
    {| book_id := "book2"; title := "To Kill a Mockingbird";
       availableQuantity := 2; totalQuantity := 4 |};
    {| book_id := "book3"; title := "Introduction to Algorithms";
       availableQuantity := 1; totalQuantity := 3 |} ].

Definition seedStore : Store :=
  {| transactions := seedTransactions; users := seedUsers;
     books := seedBooks |}.

(** ** Sequences of requests *)

Inductive Request : Type :=
  | Borrow (uid bid : string) (note : option string) (now stamp : Z)
  | Return (tid uid : string) (condition note : option string) (now stamp : Z)
  | Renew (tid uid : string) (now stamp : Z).

Definition handle (req : Request) (s : Store) : Reply * Store :=
  match req with
  | Borrow uid bid note now stamp => borrow uid bid note now stamp s
  | Return tid uid condition note now stamp =>
      returnBook tid uid condition note now stamp s
  | Renew tid uid now stamp => renew tid uid now stamp s
  end.

(** The store after a sequence of requests, served one after the
    other. *)
Definition run (reqs : list Request) (s : Store) : Store :=
  foldl (λ s req, (handle req s).2) s reqs.

(** ** The availability ledger *)

Definition bookBounds (s : Store) : Prop :=
  Forall (λ b, 0 ≤ availableQuantity b ≤ totalQuantity b) (books s).

(** The copies of a book that are out: its transactions not yet
    returned. *)
Definition outstanding (bid : string) (txs : list Transaction) : Z :=
  Z.of_nat (length (filter (λ t, bookId t = bid ∧ status t ≠ RETURNED) txs)).

(** Book keys are not repeated, and for every book the copies on the
    shelf and the copies out do not exceed the copies owned. *)
Definition ledgerConsistent (s : Store) : Prop :=
  NoDup (book_id <$> books s) ∧
  Forall (λ b, 0 ≤ availableQuantity b ∧
               availableQuantity b + outstanding (book_id b) (transactions s)
               ≤ totalQuantity b) (books s).

(** The store in which every user record carries the given [isActive]
    flag. *)
Definition withIsActive (flag : option bool) (u : User) : User :=
  {| user_id := user_id u; name := name u;
     membershipType := membershipType u; borrowedBooks := borrowedBooks u;
     isActive := flag |}.

Definition setIsActive (flag : option bool) (s : Store) : Store :=
  {| transactions := transactions s;
     users := withIsActive flag <$> users s;
     books := books s |}.

(** ** Stores for the scenarios *)

(** A book of which all five copies are available, and a PREMIUM
    member. *)
Definition scenarioAStore : Store :=
  {| transactions := [];
     users := [ {| user_id := "member"; name := "Member";
                   membershipType := "PREMIUM"; borrowedBooks := [];
                   isActive := Some true |} ];
     books := [ {| book_id := "book"; title := "Book";
                   availableQuantity := 5; totalQuantity := 5 |} ] |}.

(** A store whose only member has been deactivated. *)
Definition inactiveMemberStore : Store :=
  {| transactions := seedTransactions;
     users := [ {| user_id := "user1"; name := "John Doe";
                   membershipType := "PREMIUM"; borrowedBooks := [];
                   isActive := Some false |} ];
     books := seedBooks |}.

(** All copies of book1 on the shelf while trans1 still has one out. *)
Definition overfullStore : Store :=
  {| transactions := seedTransactions; users := seedUsers;
     books := [ {| book_id := "book1"; title := "The Great Gatsby";
                   availableQuantity := 5; totalQuantity := 5 |} ] |}.

(** A store in which the owner of trans1 has no user record. *)
Definition orphanStore : Store :=
  {| transactions := seedTransactions; users := []; books := seedBooks |}.

(** Case analysis on the checks of a handler. *)
Ltac handler_cases :=
  repeat (case_match || case_bool_decide); simplify_eq/=.

(** ** What one request can do to the store *)

Definition callerOf (req : Request) : string :=
  match req with
  | Borrow uid _ _ _ _ => uid
  | Return _ uid _ _ _ _ => uid
  | Renew _ uid _ _ => uid
  end.

(** The writes of the three handlers, each with the checks that were
    passed before it: a request of the caller [uid] leaves the store as
    it was, or appends a loan, or closes one, or extends one. *)
Inductive Effect (uid : string) (s : Store) : Store → Prop :=
  | EffNone : Effect uid s s
  | EffBorrow bid note now stamp i book j user :
      findBook bid s = Some (i, book) →
      0 < availableQuantity book →
      findUser uid s = Some (j, user) →
      geVal (currentBorrowedCount uid s)
            (getBorrowingLimit (membershipType user)) = false →
      existingTransaction uid bid s = None →
      Effect uid s
        {| transactions :=
             transactions s ++ [newTransaction s uid bid note now stamp user];
           users := users s;
           books := alter (adjustAvailable (-1)) i (books s) |}
  | EffReturn tid condition note now stamp i t :
      findTransaction tid s = Some (i, t) →
      userId t = uid →
      status t ≠ RETURNED →
      Effect uid s
        {| transactions :=
             <[i := markReturned t (DateMs now)
                      (calculateLateFee (dueDate t) (DateMs now))
                      (default "GOOD" condition) (default "" note)
                      (DateMs stamp)]> (transactions s);
           users := users s;
           books := match findBook (bookId t) s with
                    | Some (bookIndex, _) =>
                        alter (adjustAvailable 1) bookIndex (books s)
                    | None => books s
                    end |}
  | EffRenew tid now stamp i t j user :
      findTransaction tid s = Some (i, t) →
      userId t = uid →
      status t = BORROWED →
      renewalCount t < 3 →
      ¬ pastDue (dueDate t) now →
      findUser uid s = Some (j, user) →
      Effect uid s
        {| transactions :=
             <[i := markRenewed t
                      (calculateDueDate (dueDate t) (membershipType user))
                      (DateMs stamp)]> (transactions s);
           users := users s;
           books := books s |}.

(** ** Predicates on stores *)

(** No transaction is stored with the status OVERDUE. *)
Definition storedStatuses (s : Store) : Prop :=
  Forall (λ t, status t ≠ OVERDUE) (transactions s).

Definition renewalsBounded (s : Store) : Prop :=
  Forall (λ t, 0 ≤ renewalCount t ≤ 3) (transactions s).

(** Every member that [users.find] reaches holds no more loans than the
    number the policy table gives for the membership type. *)
Definition withinLimits (s : Store) : Prop :=
  ∀ uid j user n,
    findUser uid s = Some (j, user) →
    getBorrowingLimit (membershipType user) = JNum n →
    currentBorrowedCount uid s ≤ n.

(** The loans of one member on one book that are BORROWED. *)
Definition activeLoans (uid bid : string) (txs : list Transaction) : Z :=
  Z.of_nat (length (filter (λ t, userId t = uid ∧ bookId t = bid ∧
                                 status t = BORROWED) txs)).

Definition onePerPair (s : Store) : Prop :=
  ∀ uid bid, activeLoans uid bid (transactions s) ≤ 1.

(** The transaction at index [i] carries the key the borrow handler
    gives to the [i+1]-th transaction. *)
Definition idsByPosition (s : Store) : Prop :=
  ∀ i t, transactions s !! i = Some t →
         trans_id t = "trans" +:+ pretty (i + 1)%nat.

(** ** The listing of transactions

    [router.get('/')] of the transaction router.  [Array.prototype.sort]
    is stable and, for a comparator that orders its arguments
    consistently, gives the one stable sorted arrangement; [jsSort] is
    that arrangement.  With an Invalid Date among the sort keys the
    comparator answers NaN, which [sort] reads as 0, and stops being
    consistent: what is proved about the order is proved for valid
    keys. *)

Record Caller : Type := mkCaller {
  caller_id : string;
  caller_role : option string
}.

(** The property a caller may sort by; they all hold dates. *)
Inductive SortField : Type :=
  | ByBorrowDate
  | ByDueDate
  | ByReturnDate
  | ByCreatedAt
  | ByUpdatedAt.

(** [req.query], an absent key being [None]: the query a request
    brings, and the query the handler reads once [validateQuery] below
    has replaced it.  [page] and [limit] are the integers that the
    texts of the query denote. *)
Record ListQuery : Type := mkListQuery {
  q_page : option Z;
  q_limit : option Z;
  q_status : option string;
  q_userId : option string;
  q_sortBy : option SortField;
  q_sortOrder : option string
}.

(** [if (v)] on an optional string: absent and empty are falsy. *)
Definition truthy (v : option string) : option string :=
  match v with
  | Some "" => None
  | _ => v
  end.

Definition statusName (st : Status) : string :=
  match st with
  | BORROWED => "BORROWED"
  | RETURNED => "RETURNED"
  | OVERDUE => "OVERDUE"
  end.

(** [{ ...transaction, status }] *)
Definition withStatus (t : Transaction) (st : Status) : Transaction :=
  {| trans_id := trans_id t; userId := userId t; bookId := bookId t;
     borrowDate := borrowDate t; dueDate := dueDate t;
     returnDate := returnDate t; status := st; lateFee := lateFee t;
     renewalCount := renewalCount t; notes := notes t;
     createdAt := createdAt t;
     returnCondition := returnCondition t; returnNotes := returnNotes t;
     updatedAt := updatedAt t |}.

(** The status shown for a stored transaction at the moment [now]. *)
Definition deriveOverdue (now : Z) (t : Transaction) : Transaction :=
  if bool_decide (status t = BORROWED ∧ pastDue (dueDate t) now)
  then withStatus t OVERDUE
  else t.

(** [new Date(a[sortBy] || a.borrowDate)] *)
Definition sortKey (field : SortField) (t : Transaction) : Date :=
  match field with
  | ByBorrowDate => borrowDate t
  | ByDueDate => dueDate t
  | ByReturnDate => default (borrowDate t) (returnDate t)
  | ByCreatedAt => default (borrowDate t) (createdAt t)
  | ByUpdatedAt => default (borrowDate t) (updatedAt t)
  end.

(** [a - b] on two dates. *)
Definition dateDiff (a b : Date) : JsNum :=
  match a, b with
  | DateMs x, DateMs y => Num (x - y)
  | _, _ => NaN
  end.

(** The comparator handed to [sort]. *)
Definition compareBy (field : SortField) (sortOrder : string)
    (a b : Transaction) : JsNum :=
  if bool_decide (sortOrder = "desc")
  then dateDiff (sortKey field b) (sortKey field a)
  else dateDiff (sortKey field a) (sortKey field b).

(** A comparator result that puts the second argument first. *)
Definition positive (c : JsNum) : bool :=
  match c with
  | Num z => bool_decide (0 < z)
  | NaN => false
  end.

Fixpoint insertBy {A} (cmp : A → A → JsNum) (x : A) (l : list A) : list A :=
  match l with
  | [] => [x]
  | y :: l' => if positive (cmp x y) then y :: insertBy cmp x l' else x :: l
  end.

Definition jsSort {A} (cmp : A → A → JsNum) (l : list A) : list A :=
  foldr (insertBy cmp) [] l.

(** An index argument of [slice], made relative to the length. *)
Definition sliceIndex (len k : Z) : Z :=
  if bool_decide (k < 0) then Z.max (len + k) 0 else Z.min k len.

(** [l.slice(from, to)] for integer arguments. *)
Definition slice {A} (l : list A) (from to : Z) : list A :=
  let len := Z.of_nat (length l) in
  let first := sliceIndex len from in
  let final := sliceIndex len to in
  take (Z.to_nat (final - first)) (drop (Z.to_nat first) l).

(** An element of the [transactions] of the reply. *)
Record Listed : Type := mkListed {
  item_transaction : Transaction;
  item_book : option (string * string);
  item_user : option (string * string);
  item_daysOverdue : JsNum
}.

(** The enrichment of one listed transaction; [clock] is the reading of
    [new Date()] taken for it. *)
Definition enrich (s : Store) (clock : Z) (t : Transaction) : Listed :=
  {| item_transaction := t;
     item_book := (λ '(_, b), (book_id b, title b)) <$> findBook (bookId t) s;
     item_user := (λ '(_, u), (user_id u, name u)) <$> findUser (userId t) s;
     item_daysOverdue :=
       if bool_decide (status t = OVERDUE ∨ status t = RETURNED)
       then daysOverdueOf (dueDate t)
                          (default (DateMs clock) (returnDate t))
       else Num 0 |}.

Record ListReply : Type := mkListReply {
  listedTransactions : list Listed;
  currentPage : Z;
  totalPages : Z;
  totalTransactions : Z;
  hasNextPage : bool;
  hasPrevPage : bool
}.

(** The transactions the caller may see, filtered by status, with the
    derived status, in the requested order: [filteredTransactions] after
    the sort.  The tests of [status] and [userId] and the order taken
    for an absent [sortOrder] are those of the handler; in the route it
    gets its query from [validateQuery], which see. *)
Definition filteredTransactions (caller : Caller) (q : ListQuery) (now : Z)
    (s : Store) : list Transaction :=
  let visible :=
    if bool_decide (caller_role caller ≠ Some "ADMIN")
    then filter (λ t, userId t = caller_id caller) (transactions s)
    else match truthy (q_userId q) with
         | Some uid => filter (λ t, userId t = uid) (transactions s)
         | None => transactions s
         end in
  let byStatus :=
    match truthy (q_status q) with
    | Some st => filter (λ t, statusName (status t) = st) visible
    | None => visible
    end in
  jsSort (compareBy (default ByBorrowDate (q_sortBy q))
                    (default "desc" (q_sortOrder q)))
         (deriveOverdue now <$> byStatus).

(** The handler.  [now] is the clock reading used to derive OVERDUE,
    [clock k] the one taken for the [k]-th transaction of the page.
    [limit] is meant to be an integer other than 0 (the validation in
    front of the handler admits 1 to 100). *)
Definition listTransactions (caller : Caller) (q : ListQuery) (now : Z)
    (clock : nat → Z) (s : Store) : ListReply :=
  let page := default 1 (q_page q) in
  let limit := default 10 (q_limit q) in
  let sorted := filteredTransactions caller q now s in
  let startIndex := (page - 1) * limit in
  let endIndex := startIndex + limit in
  let paginatedTransactions := slice sorted startIndex endIndex in
  let total := Z.of_nat (length sorted) in
  let pages := ceilDiv total limit in
  {| listedTransactions :=
       imap (λ k t, enrich s (clock k) t) paginatedTransactions;
     currentPage := page;
     totalPages := pages;
     totalTransactions := total;
     hasNextPage := bool_decide (page < pages);
     hasPrevPage := bool_decide (1 < page) |}.

(** The same query for another page. *)
Definition atPage (q : ListQuery) (page : Z) : ListQuery :=
  {| q_page := Some page; q_limit := q_limit q; q_status := q_status q;
     q_userId := q_userId q; q_sortBy := q_sortBy q;
     q_sortOrder := q_sortOrder q |}.


(** ** The route of the listing

    [validateQuery(paginationSchema)] (middleware/validation.js) stands
    between the request and the handler.  The schema knows four keys:
    [page], an integer from 1 on, 1 when absent; [limit], an integer
    from 1 to 100, 10 when absent; [sortBy]; and [sortOrder], "asc" or
    "desc", "asc" when absent.  A number beyond the safe integers is
    refused.  Keys the schema does not know, [status] and [userId]
    among them, are dropped ([stripUnknown]), and the validated value
    replaces [req.query].  [None] is the answer 400. *)

Definition maxSafeInteger : Z := 9007199254740991.

Definition validateQuery (q : ListQuery) : option ListQuery :=
  let page := default 1 (q_page q) in
  let limit := default 10 (q_limit q) in
  let sortOrder := default "asc" (q_sortOrder q) in
  if bool_decide (1 ≤ page ≤ maxSafeInteger ∧ 1 ≤ limit ≤ 100 ∧
                  (sortOrder = "asc" ∨ sortOrder = "desc"))
  then Some {| q_page := Some page; q_limit := Some limit;
               q_status := None; q_userId := None;
               q_sortBy := q_sortBy q; q_sortOrder := Some sortOrder |}
  else None.

(** [router.get('/')] behind its validation. *)
Definition listRoute (caller : Caller) (q : ListQuery) (now : Z)
    (clock : nat → Z) (s : Store) : option ListReply :=
  (λ value, listTransactions caller value now clock s) <$> validateQuery q.

(** The transactions a caller may see. *)
Definition visibleTo (caller : Caller) (s : Store) : list Transaction :=
  if bool_decide (caller_role caller ≠ Some "ADMIN")
  then filter (λ t, userId t = caller_id caller) (transactions s)
  else transactions s.
(** ** The transaction model

    The virtuals, the method and the save hook of [transactionSchema]
    (models/Transaction.js), over a document of the model.  The schema
    casts what it is given: a date path holds a valid date or nothing
    (an Invalid Date is refused by the cast and the path stays unset),
    and [status] one of the three names.  [dueDate] is required, but
    that is tested by the validation, which runs after the virtuals can
    be read: a document may be without one.  Money is in cents.  Every
    read of the virtual [daysOverdue] reads the clock; the readings are
    arguments. *)

Module TransactionModel.

Record Document : Type := mkDocument {
  userId : string;
  bookId : string;
  borrowDate : Z;
  dueDate : option Z;
  returnDate : option Z;
  status : Status;
  lateFee : Z;
  renewalCount : Z;
  notes : option string
}.

(** [this.daysOverdue] *)
Definition daysOverdue (today : Z) (d : Document) : Z :=
  if bool_decide (status d = RETURNED) then 0
  else
    match dueDate d with
    | None => 0
    | Some due => Z.max 0 (ceilDiv (today - due) msPerDay)
    end.

(** [this.isOverdue] *)
Definition isOverdue (today : Z) (d : Document) : bool :=
  bool_decide (0 < daysOverdue today d) && bool_decide (status d = BORROWED).

(** [this.calculateLateFee()] *)
Definition calculateLateFee (today : Z) (d : Document) : Z :=
  let days := daysOverdue today d in
  if bool_decide (days ≤ 0) then 0 else Z.min (days * baseFee) maxFee.

(** [this.status = st] *)
Definition setStatus (d : Document) (st : Status) : Document :=
  {| userId := userId d; bookId := bookId d; borrowDate := borrowDate d;
     dueDate := dueDate d; returnDate := returnDate d; status := st;
     lateFee := lateFee d; renewalCount := renewalCount d;
     notes := notes d |}.

(** [this.lateFee = fee] *)
Definition setLateFee (d : Document) (fee : Z) : Document :=
  {| userId := userId d; bookId := bookId d; borrowDate := borrowDate d;
     dueDate := dueDate d; returnDate := returnDate d; status := status d;
     lateFee := fee; renewalCount := renewalCount d; notes := notes d |}.

(** The [pre('save')] hook; [today1] is the clock read by [isOverdue],
    [today2] the one read by [calculateLateFee]. *)
Definition preSave (today1 today2 : Z) (d : Document) : Document :=
  let d1 :=
    if isOverdue today1 d && bool_decide (status d = BORROWED)
    then setStatus d OVERDUE else d in
  if bool_decide (status d1 = OVERDUE ∨ status d1 = RETURNED)
  then setLateFee d1 (calculateLateFee today2 d1)
  else d1.

End TransactionModel.

(** ** The books router

    The handlers of routes/books.js over its own array [books] (the
    borrow handler looks books up in another array, the one of the
    transactions router).  A request body is what
    [validate(bookValidation...)] hands over: the keys of the schema
    only, the optional ones possibly absent.  The listing [GET /] lowers
    the case of its texts with [toLowerCase] and is not modelled. *)

Module BooksRouter.

Record Book : Type := mkBook {
  book_id : string;
  title : string;
  author : string;
  ISBN : string;
  genre : string;
  publishedYear : Z;
  availableQuantity : Z;
  totalQuantity : Z;
  description : option string;
  publisher : option string;
  language : string;
  pageCount : option Z;
  createdAt : option Z;
  updatedAt : option Z
}.

(** [req.body] after [bookValidation.create]; [language] has a default
    in the schema. *)
Record CreateBody : Type := mkCreateBody {
  c_title : string;
  c_author : string;
  c_ISBN : string;
  c_genre : string;
  c_publishedYear : Z;
  c_totalQuantity : Z;
  c_availableQuantity : option Z;
  c_description : option string;
  c_publisher : option string;
  c_language : string;
  c_pageCount : option Z
}.

(** [req.body] after [bookValidation.update]. *)
Record UpdateBody : Type := mkUpdateBody {
  u_title : option string;
  u_author : option string;
  u_ISBN : option string;
  u_genre : option string;
  u_publishedYear : option Z;
  u_totalQuantity : option Z;
  u_availableQuantity : option Z;
  u_description : option string;
  u_publisher : option string;
  u_language : option string;
  u_pageCount : option Z
}.

Inductive Reply : Type :=
  | NotFound
  | Conflict
  | Found (book : Book)
  | Created (book : Book)
  | Updated (book : Book)
  | Deleted (book : Book)
  | Availability (bookId title : string) (isAvailable : bool)
      (availableQuantity totalQuantity : Z) (status : string).

Definition httpStatus (r : Reply) : Z :=
  match r with
  | NotFound => 404
  | Conflict => 409
  | Created _ => 201
  | Found _ | Updated _ | Deleted _ | Availability _ _ _ _ _ _ => 200
  end.

Definition seedBooks : list Book :=
  [ mkBook "book1" "The Great Gatsby" "F. Scott Fitzgerald"
      "978-0-7432-7356-5" "Fiction" 1925 3 5
      (Some "A classic American novel set in the Jazz Age")
      (Some "Scribner") "English" (Some 180) None None;
    mkBook "book2" "To Kill a Mockingbird" "Harper Lee"
      "978-0-06-112008-4" "Fiction" 1960 2 4
      (Some "A gripping tale of racial injustice and childhood innocence")
      (Some "J.B. Lippincott & Co.") "English" (Some 281) None None;
    mkBook "book3" "Introduction to Algorithms" "Thomas H. Cormen"
      "978-0-262-03384-8" "Technology" 2009 1 3
      (Some "Comprehensive introduction to algorithms and data structures")
      (Some "MIT Press") "English" (Some 1312) None None ].

(** [books.find(b => b._id === id)] with its index. *)
Definition findById (id : string) (books : list Book) : option (nat * Book) :=
  list_find (λ b, book_id b = id) books.

(** [router.get('/:id')] *)
Definition getBook (id : string) (books : list Book) : Reply :=
  match findById id books with
  | Some (_, book) => Found book
  | None => NotFound
  end.

(** [router.get('/:id/availability')] *)
Definition availability (id : string) (books : list Book) : Reply :=
  match findById id books with
  | Some (_, book) =>
      Availability (book_id book) (title book)
        (bool_decide (0 < availableQuantity book))
        (availableQuantity book) (totalQuantity book)
        (if bool_decide (0 < availableQuantity book)
         then "Available" else "Not Available")
  | None => NotFound
  end.

(** [req.body.availableQuantity || req.body.totalQuantity] *)
Definition initialQuantity (body : CreateBody) : Z :=
  match c_availableQuantity body with
  | Some n => if bool_decide (n = 0) then c_totalQuantity body else n
  | None => c_totalQuantity body
  end.

(** The object literal [newBook]. *)
Definition newBook (books : list Book) (body : CreateBody)
    (now1 now2 : Z) : Book :=
  {| book_id := "book" +:+ pretty (length books + 1)%nat;
     title := c_title body; author := c_author body; ISBN := c_ISBN body;
     genre := c_genre body; publishedYear := c_publishedYear body;
     availableQuantity := initialQuantity body;
     totalQuantity := c_totalQuantity body;
     description := c_description body; publisher := c_publisher body;
     language := c_language body; pageCount := c_pageCount body;
     createdAt := Some now1; updatedAt := Some now2 |}.

(** [router.post('/')] *)
Definition createBook (body : CreateBody) (now1 now2 : Z)
    (books : list Book) : Reply * list Book :=
  match list_find (λ b, ISBN b = c_ISBN body) books with
  | Some _ => (Conflict, books)
  | None =>
      let book := newBook books body now1 now2 in
      (Created book, books ++ [book])
  end.

(** A key of the body, when present, replaces the key of the book. *)
Definition spread {A} (old : A) (new : option A) : A := default old new.

Definition spreadOpt {A} (old new : option A) : option A :=
  match new with
  | Some x => Some x
  | None => old
  end.

(** [{...books[bookIndex], ...req.body, updatedAt: new Date()}] *)
Definition updatedBook (book : Book) (body : UpdateBody) (now : Z) : Book :=
  {| book_id := book_id book;
     title := spread (title book) (u_title body);
     author := spread (author book) (u_author body);
     ISBN := spread (ISBN book) (u_ISBN body);
     genre := spread (genre book) (u_genre body);
     publishedYear := spread (publishedYear book) (u_publishedYear body);
     availableQuantity :=
       spread (availableQuantity book) (u_availableQuantity body);
     totalQuantity := spread (totalQuantity book) (u_totalQuantity body);
     description := spreadOpt (description book) (u_description body);
     publisher := spreadOpt (publisher book) (u_publisher body);
     language := spread (language book) (u_language body);
     pageCount := spreadOpt (pageCount book) (u_pageCount body);
     createdAt := createdAt book;
     updatedAt := Some now |}.

(** The ISBN test of [router.put('/:id')]: skipped when the body has no
    ISBN or an empty one. *)
Definition isbnTaken (id : string) (body : UpdateBody)
    (books : list Book) : bool :=
  match u_ISBN body with
  | Some isbn =>
      if bool_decide (isbn = "") then false
      else bool_decide
             (is_Some (list_find (λ b, ISBN b = isbn ∧ book_id b ≠ id) books))
  | None => false
  end.

(** [router.put('/:id')] *)
Definition updateBook (id : string) (body : UpdateBody) (now : Z)
    (books : list Book) : Reply * list Book :=
  match findById id books with
  | None => (NotFound, books)
  | Some (bookIndex, book) =>
      if isbnTaken id body books then (Conflict, books)
      else
        let updated := updatedBook book body now in
        (Updated updated, <[bookIndex := updated]> books)
  end.

(** [router.delete('/:id')] *)
Definition deleteBook (id : string) (books : list Book)
    : Reply * list Book :=
  match findById id books with
  | None => (NotFound, books)
  | Some (bookIndex, book) => (Deleted book, delete bookIndex books)
  end.

Inductive Request : Type :=
  | Create (body : CreateBody) (now1 now2 : Z)
  | Update (id : string) (body : UpdateBody) (now : Z)
  | Delete (id : string).

Definition handle (req : Request) (books : list Book) : Reply * list Book :=
  match req with
  | Create body now1 now2 => createBook body now1 now2 books
  | Update id body now => updateBook id body now books
  | Delete id => deleteBook id books
  end.

Definition run (reqs : list Request) (books : list Book) : list Book :=
  foldl (λ bs req, (handle req bs).2) books reqs.

(** Every book has the key its position gives. *)
Definition idsByPosition (books : list Book) : Prop :=
  ∀ i b, books !! i = Some b → book_id b = "book" +:+ pretty (i + 1)%nat.

Definition uniqueISBN (books : list Book) : Prop :=
  NoDup (ISBN <$> books).

(** A request of the kind the validation lets through that removes no
    book. *)
Definition keeps (req : Request) : Prop :=
  match req with
  | Create _ _ _ => True
  | Update _ body _ => u_ISBN body ≠ Some ""
  | Delete _ => False
  end.

End BooksRouter.

(** ** The users router

    The handlers of routes/users.js over its own array [users] (the
    borrow handler reads another array, the one of the transactions
    router); its [getBorrowingLimit] has the code of the one above.  No
    stored user has a password, and the validated body of an update can
    bring none.  The listing [GET /] is not modelled. *)

Module UsersRouter.

Record Address : Type := mkAddress {
  street : option string;
  city : option string;
  state : option string;
  zipCode : option string;
  country : option string
}.

Record User : Type := mkUser {
  user_id : string;
  name : string;
  email : string;
  membershipType : string;
  isActive : bool;
  borrowedBooks : list string;
  phone : option string;
  address : option Address;
  createdAt : option Z;
  updatedAt : option Z
}.

(** [req.body] after [userValidation.update]. *)
Record UpdateBody : Type := mkUpdateBody {
  u_name : option string;
  u_phone : option string;
  u_address : option Address
}.

Inductive Reply : Type :=
  | NotFound
  | Forbidden
  | Profile (user : User) (borrowingLimit : JsVal)
      (currentBorrowedCount : Z) (canBorrowMore : bool)
  | Updated (user : User)
  | BorrowedBooks (borrowedBooks : list string) (currentBorrowedCount : Z)
      (borrowingLimit : JsVal) (canBorrowMore : bool).

Definition httpStatus (r : Reply) : Z :=
  match r with
  | NotFound => 404
  | Forbidden => 403
  | Profile _ _ _ _ | Updated _ | BorrowedBooks _ _ _ _ => 200
  end.

Definition seedUsers : list User :=
  [ mkUser "user1" "John Doe" "john@library.com" "PREMIUM" true []
      (Some "+1-555-123-4567")
      (Some (mkAddress (Some "123 Main St") (Some "New York") (Some "NY")
               (Some "10001") (Some "USA")))
      (Some 1705276800000) None;
    mkUser "user2" "Jane Smith" "jane@library.com" "STUDENT" true []
      (Some "+1-555-987-6543")
      (Some (mkAddress (Some "456 Oak Ave") (Some "Boston") (Some "MA")
               (Some "02101") (Some "USA")))
      (Some 1706745600000) None;
    mkUser "user3" "Mike Johnson" "mike@library.com" "BASIC" true []
      None None (Some 1707523200000) None ].

(** [users.find(u => u._id === id)] with its index. *)
Definition findById (id : string) (users : list User) : option (nat * User) :=
  list_find (λ u, user_id u = id) users.

(** [req.user._id !== id && req.user.role !== 'ADMIN'] *)
Definition denied (caller : Caller) (id : string) : bool :=
  bool_decide (caller_id caller ≠ id) &&
  bool_decide (caller_role caller ≠ Some "ADMIN").

(** [count < v] with a number on the left: a function or an object on
    the right converts to NaN, and every comparison with NaN is false. *)
Definition ltVal (count : Z) (v : JsVal) : bool :=
  match v with
  | JNum n => bool_decide (count < n)
  | JProto _ => false
  end.

(** [router.get('/:id')] *)
Definition getUser (caller : Caller) (id : string) (users : list User)
    : Reply :=
  match findById id users with
  | None => NotFound
  | Some (_, user) =>
      if denied caller (user_id user) then Forbidden
      else
        Profile user (getBorrowingLimit (membershipType user))
          (Z.of_nat (length (borrowedBooks user)))
          (ltVal (Z.of_nat (length (borrowedBooks user)))
             (getBorrowingLimit (membershipType user)))
  end.

(** [router.get('/:id/borrowed-books')] *)
Definition getBorrowedBooks (caller : Caller) (id : string)
    (users : list User) : Reply :=
  match findById id users with
  | None => NotFound
  | Some (_, user) =>
      if denied caller (user_id user) then Forbidden
      else
        BorrowedBooks (borrowedBooks user)
          (Z.of_nat (length (borrowedBooks user)))
          (getBorrowingLimit (membershipType user))
          (ltVal (Z.of_nat (length (borrowedBooks user)))
             (getBorrowingLimit (membershipType user)))
  end.

(** [{...users[userIndex], ...req.body, updatedAt: new Date()}]; the
    spread is shallow, an address of the body replaces the whole
    address. *)
Definition updatedUser (user : User) (body : UpdateBody) (now : Z) : User :=
  {| user_id := user_id user;
     name := default (name user) (u_name body);
     email := email user;
     membershipType := membershipType user;
     isActive := isActive user;
     borrowedBooks := borrowedBooks user;
     phone := match u_phone body with Some p => Some p | None => phone user end;
     address :=
       match u_address body with Some a => Some a | None => address user end;
     createdAt := createdAt user;
     updatedAt := Some now |}.

(** [router.put('/:id')] *)
Definition updateUser (caller : Caller) (id : string) (body : UpdateBody)
    (now : Z) (users : list User) : Reply * list User :=
  match findById id users with
  | None => (NotFound, users)
  | Some (userIndex, user) =>
      if denied caller id then (Forbidden, users)
      else
        let updated := updatedUser user body now in
        (Updated updated, <[userIndex := updated]> users)
  end.

End UsersRouter.

(** ** The authentication middleware

    What [authenticateToken] (middleware/auth.js) puts in [req.user]
    when it lets a request through: a mock user with the key read from
    the token and no [role].  The verification of the token is the JWT
    library's and is not modelled. *)

Definition authenticatedUser (userId : string) : Caller :=
  {| caller_id := userId; caller_role := None |}.

(** [requireAdmin]: whether the request is passed on. *)
Definition requireAdmin (caller : Caller) : bool :=
  bool_decide (caller_role caller = Some "ADMIN").

(** * Properties *)

(** ** Policy table *)

Section Policy.

Lemma getProp_own table key n :
  table !! key = Some n → getProp table key = Some (JNum n).
Proof. intros H. unfold getProp. by rewrite H. Qed.

Lemma getProp_inherited table key :
  table !! key = None → key ∈ objectPrototype →
  getProp table key = Some (JProto key).
Proof.
  intros Hown Hin. unfold getProp. rewrite Hown.
  by rewrite bool_decide_eq_true_2.
Qed.


Lemma limits_unknown mt :
  mt ≠ "BASIC" → mt ≠ "PREMIUM" → mt ≠ "STUDENT" → limits !! mt = None.
Proof.
  intros ???. unfold limits. simpl.
  by rewrite !lookup_insert_ne, lookup_empty.
Qed.

Lemma borrowPeriods_unknown mt :
  mt ≠ "BASIC" → mt ≠ "PREMIUM" → mt ≠ "STUDENT" →
  borrowPeriods !! mt = None.
Proof.
  intros ???. unfold borrowPeriods. simpl.
  by rewrite !lookup_insert_ne, lookup_empty.
Qed.



(** An inherited name is answered by the inherited member. *)
Lemma policy_inherited mt :
  mt ∈ objectPrototype →
  getBorrowingLimit mt = JProto mt ∧ loanPeriodDays mt = JProto mt.
Proof.
  intros Hp. unfold getBorrowingLimit, loanPeriodDays.
  assert (mt ≠ "BASIC" ∧ mt ≠ "PREMIUM" ∧ mt ≠ "STUDENT") as (?&?&?).
  { unfold objectPrototype in Hp.
    rewrite !elem_of_cons, elem_of_nil in Hp.
    destruct_or!; subst; done. }
  rewrite (getProp_inherited limits), (getProp_inherited borrowPeriods);
    auto using limits_unknown, borrowPeriods_unknown.
Qed.

Lemma calculateDueDate_days d mt n :
  loanPeriodDays mt = JNum n →
  calculateDueDate (DateMs d) mt = DateMs (d + n * msPerDay).
Proof. intros H. unfold calculateDueDate. by rewrite H. Qed.

End Policy.



(** ** Fee calculator *)

Section Fee.

Lemma msPerDay_pos : 0 < msPerDay.
Proof. done. Qed.

(** [ceilDiv a b] is the least integer [n] with [a ≤ n * b]. *)
Lemma ceilDiv_bounds a b :
  0 < b → (ceilDiv a b - 1) * b < a ≤ ceilDiv a b * b.
Proof.
  intros Hb. unfold ceilDiv.
  pose proof (Z.div_mod (- a) b ltac:(lia)) as Hdm.
  pose proof (Z.mod_pos_bound (- a) b Hb) as Hmod.
  nia.
Qed.

Lemma ceilDiv_unique a b n :
  0 < b → (n - 1) * b < a ≤ n * b → ceilDiv a b = n.
Proof.
  intros Hb Hn. pose proof (ceilDiv_bounds a b Hb). nia.
Qed.

Lemma ceilDiv_mono a1 a2 b :
  0 < b → a1 ≤ a2 → ceilDiv a1 b ≤ ceilDiv a2 b.
Proof.
  intros Hb Ha. unfold ceilDiv.
  pose proof (Z.div_le_mono (- a2) (- a1) b Hb ltac:(lia)). lia.
Qed.

Lemma ceilDiv_pos a b : 0 < b → 0 < a → 0 < ceilDiv a b.
Proof. intros Hb Ha. pose proof (ceilDiv_bounds a b Hb). nia. Qed.

Lemma calculateLateFee_on_time due ret :
  ret ≤ due → calculateLateFee (DateMs due) (DateMs ret) = Num 0.
Proof. intros H. unfold calculateLateFee. by rewrite bool_decide_eq_true_2. Qed.

Lemma calculateLateFee_late due ret :
  due < ret →
  calculateLateFee (DateMs due) (DateMs ret)
  = Num (Z.min (ceilDiv (ret - due) msPerDay * 50) 2500).
Proof.
  intros H. unfold calculateLateFee.
  rewrite bool_decide_eq_false_2 by lia. done.
Qed.

End Fee.

(** C3: the late fee, in cents, is 0 when the evaluation date is not
    after the due date; otherwise it is min(daysOverdue * 50, 2500),
    where daysOverdue is the number of days overdue rounded up, that is
    the one integer with (daysOverdue - 1) days < evaluation - due ≤
    daysOverdue days.  A book due 2024-02-14 and returned 2024-02-20 is
    six days late and costs 300 cents. *)
Theorem late_fee_formula (due eval : Z) :
  (eval ≤ due → calculateLateFee (DateMs due) (DateMs eval) = Num 0) ∧
  (due < eval →
   ∃ daysOverdue,
     (daysOverdue - 1) * msPerDay < eval - due ≤ daysOverdue * msPerDay ∧
     (∀ n, (n - 1) * msPerDay < eval - due ≤ n * msPerDay → n = daysOverdue) ∧
     calculateLateFee (DateMs due) (DateMs eval)
     = Num (Z.min (daysOverdue * 50) 2500)) ∧
  calculateLateFee (DateMs 1707868800000) (DateMs 1708387200000) = Num 300.
Proof.
  split_and!.
  - apply calculateLateFee_on_time.
  - intros Hlate. exists (ceilDiv (eval - due) msPerDay).
    split; [|split].
    + apply ceilDiv_bounds, msPerDay_pos.
    + intros n Hn. symmetry. by apply ceilDiv_unique.
    + by apply calculateLateFee_late.
  - by vm_compute.
Qed.

Lemma late_fee_formula_witness :
  calculateLateFee (DateMs 1707868800000) (DateMs 1707868800000) = Num 0 ∧
  ∃ daysOverdue,
    (daysOverdue - 1) * msPerDay < 1708387200001 - 1707868800000
      ≤ daysOverdue * msPerDay ∧
    calculateLateFee (DateMs 1707868800000) (DateMs 1708387200001)
    = Num (Z.min (daysOverdue * 50) 2500).
Proof.
  split.
  - apply (late_fee_formula 1707868800000 1707868800000). lia.
  - destruct (late_fee_formula 1707868800000 1708387200001) as (_ & H & _).
    destruct H as (n & Hn & _ & Hfee); [lia|]. by exists n.
Defined.

(** C9: for a fixed due date the late fee does not decrease when the
    evaluation date moves later past the due date, and for every
    evaluation date it is at most 2500 cents. *)
Theorem late_fee_monotone_capped (due : Z) :
  (∀ e1 e2, due < e1 → e1 ≤ e2 →
     ∃ f1 f2, calculateLateFee (DateMs due) (DateMs e1) = Num f1 ∧
              calculateLateFee (DateMs due) (DateMs e2) = Num f2 ∧
              f1 ≤ f2) ∧
  (∀ e, ∃ f, calculateLateFee (DateMs due) (DateMs e) = Num f ∧
             0 ≤ f ≤ 2500).
Proof.
  split.
  - intros e1 e2 H1 H12. eexists _, _. split_and!.
    + by apply calculateLateFee_late.
    + apply calculateLateFee_late. lia.
    + pose proof (ceilDiv_mono (e1 - due) (e2 - due) msPerDay
                    msPerDay_pos ltac:(lia)). lia.
  - intros e. destruct (decide (e ≤ due)) as [Hle|Hgt].
    + exists 0. split; [by apply calculateLateFee_on_time | lia].
    + eexists. split; [apply calculateLateFee_late; lia|].
      pose proof (ceilDiv_pos (e - due) msPerDay msPerDay_pos ltac:(lia)).
      lia.
Qed.

Lemma late_fee_monotone_capped_witness :
  ∃ f1 f2,
    calculateLateFee (DateMs 0) (DateMs 1) = Num f1 ∧
    calculateLateFee (DateMs 0) (DateMs (100 * msPerDay)) = Num f2 ∧
    f1 ≤ f2.
Proof.
  destruct (late_fee_monotone_capped 0) as [Hmono _].
  apply (Hmono 1 (100 * msPerDay)); by vm_compute.
Defined.

(** ** Arrays: first match, assignment at an index *)

Section FirstMatch.
Context {A : Type} (P : A → Prop) `{!∀ x, Decision (P x)}.

(** Overwriting the first match by another match keeps it the first
    match. *)
Lemma list_find_insert_same (l : list A) i x y :
  list_find P l = Some (i, x) → P y →
  list_find P (<[i:=y]> l) = Some (i, y).
Proof.
  intros (Hi & HP & Hleast)%list_find_Some Hy. apply list_find_Some.
  split_and!.
  - apply list_lookup_insert_eq. by eapply lookup_lt_Some.
  - done.
  - intros j z Hj Hlt. rewrite list_lookup_insert_ne in Hj by lia. eauto.
Qed.

Lemma list_find_alter_same (f : A → A) (l : list A) i x :
  (∀ y, P y → P (f y)) →
  list_find P l = Some (i, x) →
  list_find P (alter f i l) = Some (i, f x).
Proof.
  intros Hf (Hi & HP & Hleast)%list_find_Some. apply list_find_Some.
  split_and!.
  - by rewrite list_lookup_alter_eq, Hi.
  - auto.
  - intros j z Hj Hlt. rewrite list_lookup_alter_ne in Hj by lia. eauto.
Qed.

Lemma filter_insert_length (l : list A) i x y :
  l !! i = Some x →
  (Z.of_nat (length (filter P (<[i:=y]> l)))
   = Z.of_nat (length (filter P l))
     - (if decide (P x) then 1 else 0) + (if decide (P y) then 1 else 0))%Z.
Proof.
  revert i. induction l as [|a l IH]; intros [|i] Hi; simplify_eq/=.
  - rewrite !filter_cons. repeat case_decide; cbn [length]; lia.
  - rewrite !filter_cons. specialize (IH i Hi).
    destruct (decide (P a)); cbn [length]; lia.
Qed.

Lemma filter_snoc_length (l : list A) y :
  (Z.of_nat (length (filter P (l ++ [y])))
   = Z.of_nat (length (filter P l)) + (if decide (P y) then 1 else 0))%Z.
Proof.
  rewrite filter_app, length_app, filter_cons, filter_nil.
  case_decide; cbn [length]; lia.
Qed.
End FirstMatch.

Lemma elem_of_alter_inv {A} (f : A → A) (l : list A) i x y :
  l !! i = Some x → y ∈ alter f i l →
  y = f x ∨ ∃ j, j ≠ i ∧ l !! j = Some y.
Proof.
  intros Hi [j Hj]%list_elem_of_lookup. destruct (decide (j = i)) as [->|Hne].
  - rewrite list_lookup_alter_eq, Hi in Hj. left. by simplify_eq/=.
  - rewrite list_lookup_alter_ne in Hj by done. right. eauto.
Qed.

(** The books of a store met at two different indices have different
    keys when keys are not repeated. *)
Lemma book_id_distinct (l : list Book) i j b b' :
  NoDup (book_id <$> l) → l !! i = Some b → l !! j = Some b' → j ≠ i →
  book_id b' ≠ book_id b.
Proof.
  intros Hnd Hi Hj Hne Heq. apply Hne.
  eapply (NoDup_lookup _ j i (book_id b)); [done| |];
    rewrite list_lookup_fmap; [rewrite Hj | rewrite Hi]; simpl; congruence.
Qed.

Lemma book_ids_alter delta i (l : list Book) :
  book_id <$> alter (adjustAvailable delta) i l = book_id <$> l.
Proof.
  rewrite (list_fmap_alter book_id (adjustAvailable delta) id).
  - by apply list_alter_id.
  - by apply Forall_forall.
Qed.

(** ** Look-ups *)

Section Lookups.

Lemma findBook_Some bid s i b :
  findBook bid s = Some (i, b) → books s !! i = Some b ∧ book_id b = bid.
Proof. intros (?&?&_)%list_find_Some. done. Qed.

Lemma findBook_None bid s :
  findBook bid s = None ↔ ∀ b, b ∈ books s → book_id b ≠ bid.
Proof. unfold findBook. rewrite list_find_None, Forall_forall. done. Qed.

Lemma findUser_None uid s :
  findUser uid s = None ↔ ∀ u, u ∈ users s → user_id u ≠ uid.
Proof. unfold findUser. rewrite list_find_None, Forall_forall. done. Qed.

Lemma findTransaction_Some tid s i t :
  findTransaction tid s = Some (i, t) →
  transactions s !! i = Some t ∧ trans_id t = tid.
Proof. intros (?&?&_)%list_find_Some. done. Qed.

End Lookups.

(** ** The handlers, case by case *)

Section Handlers.

(** A failing borrow writes nothing. *)
Lemma borrow_failed uid bid note now stamp s r s' :
  borrow uid bid note now stamp s = (r, s') → succeeded r = false → s' = s.
Proof. unfold borrow. intros Hrun Hr. by handler_cases. Qed.

Lemma borrow_succeeded uid bid note now stamp s r s' :
  borrow uid bid note now stamp s = (r, s') → succeeded r = true →
  ∃ i book j user,
    findBook bid s = Some (i, book) ∧ 0 < availableQuantity book ∧
    findUser uid s = Some (j, user) ∧
    geVal (currentBorrowedCount uid s)
          (getBorrowingLimit (membershipType user)) = false ∧
    existingTransaction uid bid s = None ∧
    r = BorrowedOk (newTransaction s uid bid note now stamp user)
                   (book_id book, title book) (user_id user, name user) ∧
    s' = {| transactions :=
              transactions s ++ [newTransaction s uid bid note now stamp user];
            users := users s;
            books := alter (adjustAvailable (-1)) i (books s) |}.
Proof.
  unfold borrow. intros Hrun Hr. handler_cases.
  eexists _, _, _, _. split_and!; try done. lia.
Qed.

Lemma returnBook_failed tid uid condition note now stamp s r s' :
  returnBook tid uid condition note now stamp s = (r, s') →
  succeeded r = false → s' = s.
Proof. unfold returnBook. intros Hrun Hr. by handler_cases. Qed.

Lemma returnBook_succeeded tid uid condition note now stamp s r s' :
  returnBook tid uid condition note now stamp s = (r, s') →
  succeeded r = true →
  ∃ i t,
    findTransaction tid s = Some (i, t) ∧ userId t = uid ∧
    status t ≠ RETURNED ∧
    let updated :=
      markReturned t (DateMs now)
                   (calculateLateFee (dueDate t) (DateMs now))
                   (default "GOOD" condition) (default "" note)
                   (DateMs stamp) in
    r = ReturnedOk updated
                   ((λ '(_, b), (book_id b, title b))
                      <$> findBook (bookId t) s)
                   (daysOverdueOf (dueDate t) (DateMs now)) ∧
    s' = {| transactions := <[i := updated]> (transactions s);
            users := users s;
            books := match findBook (bookId t) s with
                     | Some (bookIndex, _) =>
                         alter (adjustAvailable 1) bookIndex (books s)
                     | None => books s
                     end |}.
Proof.
  unfold returnBook. intros Hrun Hr.
  destruct (findTransaction tid s) as [[i t]|]; [|by simplify_eq/=].
  repeat case_bool_decide; simplify_eq/=.
  exists i, t. by split_and!.
Qed.

Lemma renew_failed tid uid now stamp s r s' :
  renew tid uid now stamp s = (r, s') → succeeded r = false → s' = s.
Proof. unfold renew. intros Hrun Hr. by handler_cases. Qed.

Lemma renew_succeeded tid uid now stamp s r s' :
  renew tid uid now stamp s = (r, s') → succeeded r = true →
  ∃ i t j user,
    findTransaction tid s = Some (i, t) ∧ userId t = uid ∧
    status t = BORROWED ∧ renewalCount t < 3 ∧
    ¬ pastDue (dueDate t) now ∧ findUser uid s = Some (j, user) ∧
    let updated :=
      markRenewed t (calculateDueDate (dueDate t) (membershipType user))
                  (DateMs stamp) in
    r = RenewedOk updated (dueDate updated) (3 - renewalCount updated) ∧
    s' = {| transactions := <[i := updated]> (transactions s);
            users := users s; books := books s |}.
Proof.
  unfold renew. intros Hrun Hr.
  destruct (findTransaction tid s) as [[i t]|]; [|by simplify_eq/=].
  repeat case_bool_decide; try by simplify_eq/=.
  destruct (findUser uid s) as [[j user]|]; simplify_eq/=.
  exists i, t, j, user. split_and!; try done; try by apply dec_stable.
  lia.
Qed.

End Handlers.

(** ** Borrow *)

Lemma existingTransaction_None uid bid s :
  existingTransaction uid bid s = None ↔
  ∀ t, t ∈ transactions s →
       ¬ (userId t = uid ∧ bookId t = bid ∧ status t = BORROWED).
Proof.
  unfold existingTransaction. rewrite list_find_None, Forall_forall. done.
Qed.

Lemma findUser_setIsActive flag uid s :
  findUser uid (setIsActive flag s)
  = prod_map id (withIsActive flag) <$> findUser uid s.
Proof.
  unfold findUser. simpl.
  exact (list_find_fmap (withIsActive flag) (λ u, user_id u = uid) (users s)).
Qed.

(** The reply of Borrow does not depend on the [isActive] flags. *)
Lemma borrow_ignores_isActive flag uid bid note now stamp s :
  (borrow uid bid note now stamp (setIsActive flag s)).1
  = (borrow uid bid note now stamp s).1.
Proof.
  unfold borrow. rewrite findUser_setIsActive.
  change (findBook bid (setIsActive flag s)) with (findBook bid s).
  change (currentBorrowedCount uid (setIsActive flag s))
    with (currentBorrowedCount uid s).
  change (existingTransaction uid bid (setIsActive flag s))
    with (existingTransaction uid bid s).
  destruct (findBook bid s) as [[i book]|]; [|done].
  case_bool_decide; [done|].
  destruct (findUser uid s) as [[j user]|]; [|done]. simpl.
  destruct (geVal _ _); [done|].
  by destruct (existingTransaction uid bid s).
Qed.

(** C1, as stated, fails: a member whose [isActive] flag is false and who
    passes the other checks is not answered NotFound(Member); the borrow
    succeeds. *)
Lemma borrow_inactive_member_accepted :
  (∃ j u, findUser "user1" inactiveMemberStore = Some (j, u) ∧
          isActive u = Some false) ∧
  (borrow "user1" "book2" None 1706000000000 1706000000000
          inactiveMemberStore).1 ≠ Failed NotFoundMember ∧
  httpStatus (borrow "user1" "book2" None 1706000000000 1706000000000
                     inactiveMemberStore).1 = 201.
Proof.
  split_and!.
  - eexists _, _. split; [by vm_compute | done].
  - by vm_compute.
  - by vm_compute.
Qed.

(** C1, amended: the checks of Borrow are made in this order, the first
    that fails deciding the reply: (1) the book exists, else
    NotFound(Book); (2) its availableQuantity is positive, else
    Unavailable; (3) the caller is in the user store, else
    NotFound(Member), whatever the [isActive] flag of the record says
    (the reply is the same for every setting of the flags);
    (4) the caller's number of transactions with status BORROWED is below
    the limit that the policy table gives for the membership type, else
    LimitReached; (5) no transaction with status BORROWED exists for the
    pair, else AlreadyBorrowed.  When all five pass the borrow succeeds,
    and a failing borrow leaves the store as it was. *)
Theorem borrow_precondition_order uid bid note now stamp s :
  let r := (borrow uid bid note now stamp s).1 in
  (findBook bid s = None → r = Failed NotFoundBook) ∧
  (∀ i book, findBook bid s = Some (i, book) →
     (availableQuantity book ≤ 0 → r = Failed Unavailable) ∧
     (0 < availableQuantity book →
        (findUser uid s = None → r = Failed NotFoundMember) ∧
        (∀ j user, findUser uid s = Some (j, user) →
           (∀ limit, getBorrowingLimit (membershipType user) = JNum limit →
                     limit ≤ currentBorrowedCount uid s →
                     r = Failed LimitReached) ∧
           ((∀ limit, getBorrowingLimit (membershipType user) = JNum limit →
                      currentBorrowedCount uid s < limit) →
              (is_Some (existingTransaction uid bid s) →
               r = Failed AlreadyBorrowed) ∧
              (existingTransaction uid bid s = None →
               succeeded r = true))))) ∧
  (∀ flag, (borrow uid bid note now stamp (setIsActive flag s)).1 = r) ∧
  (succeeded r = false → (borrow uid bid note now stamp s).2 = s).
Proof.
  cbv zeta. split_and!.
  - intros Hb. unfold borrow. by rewrite Hb.
  - intros i book Hb. unfold borrow. rewrite Hb. split.
    { intros Hq. by rewrite bool_decide_eq_true_2. }
    intros Hq. rewrite bool_decide_eq_false_2 by lia. split.
    { intros Hu. by rewrite Hu. }
    intros j user Hu. rewrite Hu. cbv zeta. split.
    { intros limit Hl Hc. rewrite Hl. simpl.
      by rewrite bool_decide_eq_true_2. }
    intros Hbelow.
    assert (geVal (currentBorrowedCount uid s)
                  (getBorrowingLimit (membershipType user)) = false) as ->.
    { destruct (getBorrowingLimit (membershipType user)) as [limit|]; [|done].
      simpl. apply bool_decide_eq_false_2. specialize (Hbelow limit eq_refl).
      lia. }
    split.
    + intros [[k t] Ht]. by rewrite Ht.
    + intros Ht. by rewrite Ht.
  - intros flag. apply borrow_ignores_isActive.
  - intros Hr. destruct (borrow uid bid note now stamp s) as [r s'] eqn:Hrun.
    simpl in *. by eapply borrow_failed.
Qed.

Lemma borrow_precondition_order_witness :
  (borrow "user1" "book1" None 1706000000000 1706000000000 seedStore).1
  = Failed AlreadyBorrowed.
Proof.
  destruct (borrow_precondition_order "user1" "book1" None 1706000000000
              1706000000000 seedStore) as (_ & Hbook & _).
  destruct (Hbook 0%nat {| book_id := "book1"; title := "The Great Gatsby";
                           availableQuantity := 3; totalQuantity := 5 |}
                  eq_refl) as (_ & Hq).
  destruct (Hq ltac:(simpl; lia)) as (_ & Huser).
  destruct (Huser 0%nat {| user_id := "user1"; name := "John Doe";
                           membershipType := "PREMIUM"; borrowedBooks := [];
                           isActive := None |} eq_refl) as (_ & Hlimit).
  destruct Hlimit as (Hdup & _).
  - intros limit Hl. vm_compute in Hl. injection Hl as <-. by vm_compute.
  - apply Hdup. eexists. by vm_compute.
Defined.

(** C6: a successful Borrow adds, at the end of the transactions, one
    transaction for the caller and the book with status BORROWED,
    borrowDate = now, lateFee = 0, renewalCount = 0 and dueDate = now
    plus the loan period, in days, that the policy table gives for the
    caller's membership type (30 days for PREMIUM); it lowers the
    availableQuantity of the book by one; and it changes nothing else. *)
Theorem borrow_effect uid bid note now stamp s t bookSummary userSummary s' :
  borrow uid bid note now stamp s = (BorrowedOk t bookSummary userSummary, s') →
  ∃ i book j user book',
    findBook bid s = Some (i, book) ∧ findUser uid s = Some (j, user) ∧
    userId t = uid ∧ bookId t = bid ∧ status t = BORROWED ∧
    borrowDate t = DateMs now ∧ lateFee t = Num 0 ∧ renewalCount t = 0 ∧
    returnDate t = None ∧
    (∀ days, loanPeriodDays (membershipType user) = JNum days →
             dueDate t = DateMs (now + days * msPerDay)) ∧
    (membershipType user = "PREMIUM" →
     dueDate t = DateMs (now + 30 * msPerDay)) ∧
    transactions s' = transactions s ++ [t] ∧
    users s' = users s ∧
    findBook bid s' = Some (i, book') ∧
    availableQuantity book' = availableQuantity book - 1 ∧
    totalQuantity book' = totalQuantity book ∧
    book_id book' = book_id book ∧ title book' = title book ∧
    length (books s') = length (books s) ∧
    (∀ k, k ≠ i → books s' !! k = books s !! k).
Proof.
  intros Hrun.
  destruct (borrow_succeeded _ _ _ _ _ _ _ _ Hrun eq_refl)
    as (i & book & j & user & Hb & Hq & Hu & _ & _ & Hr & ->).
  injection Hr as -> -> ->.
  exists i, book, j, user, (adjustAvailable (-1) book). simpl.
  split_and!; try done.
  - intros days Hd. by apply calculateDueDate_days.
  - intros ->. by apply calculateDueDate_days.
  - unfold findBook in *. simpl.
    apply (list_find_alter_same (λ b, book_id b = bid)); done.
  - apply length_alter.
  - intros k Hk. by apply list_lookup_alter_ne.
Qed.

Lemma borrow_effect_witness :
  ∃ t s' book',
    (borrow "member" "book" None 1706000000000 1706000000000
            scenarioAStore).2 = s' ∧
    status t = BORROWED ∧
    dueDate t = DateMs (1706000000000 + 30 * msPerDay) ∧
    findBook "book" s' = Some (0%nat, book') ∧
    availableQuantity book' = 4.
Proof.
  destruct (borrow "member" "book" None 1706000000000 1706000000000
                   scenarioAStore) as [r s'] eqn:Hrun.
  assert (∃ t bs us, r = BorrowedOk t bs us) as (t & bs & us & ->).
  { vm_compute in Hrun. injection Hrun as <- _. by eexists _, _, _. }
  destruct (borrow_effect _ _ _ _ _ _ _ _ _ _ Hrun)
    as (i & book & j & user & book' & Hb & Hu & _ & _ & Hst & _ & _ & _ & _
        & _ & Hdue & _ & _ & Hb' & Hq & _).
  vm_compute in Hb. injection Hb as <- <-.
  vm_compute in Hu. injection Hu as <- <-.
  exists t, s', book'. split_and!; try done.
  by apply Hdue.
Defined.

(** ** Return *)

(** C4: when the transaction that [transactionId] finds belongs to the
    caller and has not been returned, two Return calls with that id are
    answered 200 and then AlreadyReturned; the second call leaves the
    store as the first left it; and over the two calls the
    availableQuantity of the book of the transaction went up by exactly
    one, no other book being touched. *)
Theorem return_twice tid uid c1 n1 now1 st1 c2 n2 now2 st2 s i t :
  findTransaction tid s = Some (i, t) → userId t = uid →
  status t ≠ RETURNED →
  ∃ r1 s1,
    returnBook tid uid c1 n1 now1 st1 s = (r1, s1) ∧
    succeeded r1 = true ∧ httpStatus r1 = 200 ∧
    returnBook tid uid c2 n2 now2 st2 s1 = (Failed AlreadyReturned, s1) ∧
    match findBook (bookId t) s with
    | Some (k, book) =>
        ∃ book', findBook (bookId t) s1 = Some (k, book') ∧
                 availableQuantity book' = availableQuantity book + 1 ∧
                 ∀ m, m ≠ k → books s1 !! m = books s !! m
    | None => books s1 = books s
    end.
Proof.
  intros Hfind Howner Hstatus.
  unfold returnBook at 1. rewrite Hfind.
  rewrite (bool_decide_eq_false_2 (userId t ≠ uid)) by auto.
  rewrite (bool_decide_eq_false_2 (status t = RETURNED)) by done.
  cbv zeta. eexists _, _. split; [done|]. split_and!; try done.
  - unfold returnBook, findTransaction in *. simpl.
    erewrite (list_find_insert_same (λ t0, trans_id t0 = tid)); [|done|].
    + simpl. rewrite (bool_decide_eq_false_2 (userId t ≠ uid)) by auto.
      done.
    + simpl. by apply findTransaction_Some in Hfind as [_ ?].
  - destruct (findBook (bookId t) s) as [[k book]|] eqn:Hbook; [|done].
    exists (adjustAvailable 1 book). split_and!.
    + unfold findBook in *. simpl.
      by apply (list_find_alter_same (λ b, book_id b = bookId t)).
    + done.
    + intros m Hm. simpl. by apply list_lookup_alter_ne.
Qed.

Lemma return_twice_witness :
  ∃ r1 s1 book',
    returnBook "trans1" "user1" None None 1708387200000 1708387200000
               seedStore = (r1, s1) ∧
    httpStatus r1 = 200 ∧
    returnBook "trans1" "user1" None None 1708400000000 1708400000000 s1
    = (Failed AlreadyReturned, s1) ∧
    findBook "book1" s1 = Some (0%nat, book') ∧
    availableQuantity book' = 4.
Proof.
  destruct (return_twice "trans1" "user1" None None 1708387200000
              1708387200000 None None 1708400000000 1708400000000
              seedStore 0%nat
              {| trans_id := "trans1"; userId := "user1"; bookId := "book1";
                 borrowDate := DateMs 1705276800000;
                 dueDate := DateMs 1707868800000;
                 returnDate := None; status := BORROWED; lateFee := Num 0;
                 renewalCount := 0; notes := None; createdAt := None;
                 returnCondition := None; returnNotes := None;
                 updatedAt := None |} eq_refl eq_refl ltac:(done))
    as (r1 & s1 & H1 & _ & Hst & H2 & Hbook).
  change (findBook _ seedStore) with
    (Some (0%nat, {| book_id := "book1"; title := "The Great Gatsby";
                     availableQuantity := 3; totalQuantity := 5 |}))
    in Hbook.
  destruct Hbook as (book' & Hb & Hq & _).
  exists r1, s1, book'. by split_and!.
Defined.

(** ** Availability bounds *)

(** C2, as stated, fails: Return adds one to availableQuantity without
    comparing it with totalQuantity.  From a store in which every book is
    within its bounds, one Return takes book1 to 6 available copies of 5
    owned. *)
Lemma return_exceeds_total :
  bookBounds overfullStore ∧
  ¬ bookBounds (run [Return "trans1" "user1" None None 1708387200000
                            1708387200000] overfullStore) ∧
  ∃ book', findBook "book1"
             (run [Return "trans1" "user1" None None 1708387200000
                          1708387200000] overfullStore) = Some (0%nat, book') ∧
           availableQuantity book' = 6 ∧ totalQuantity book' = 5.
Proof.
  split_and!.
  - unfold bookBounds. simpl. apply Forall_singleton. simpl. lia.
  - intros Hb. eapply (Forall_lookup_1 _ _ 0%nat) in Hb;
      [|vm_compute; reflexivity].
    simpl in Hb. lia.
  - eexists. split; [vm_compute; reflexivity|]. done.
Qed.

Section Ledger.

Implicit Types (s : Store) (b : Book) (t : Transaction).

Lemma outstanding_nonneg bid txs : 0 ≤ outstanding bid txs.
Proof. unfold outstanding. lia. Qed.

Lemma ledgerConsistent_bounds s : ledgerConsistent s → bookBounds s.
Proof.
  intros [_ Hall]. unfold bookBounds. eapply Forall_impl; [done|].
  intros b [? ?]. simpl in *.
  pose proof (outstanding_nonneg (book_id b) (transactions s)). lia.
Qed.

Lemma outstanding_snoc bid txs t :
  outstanding bid (txs ++ [t])
  = outstanding bid txs
    + (if decide (bookId t = bid ∧ status t ≠ RETURNED) then 1 else 0).
Proof.
  unfold outstanding.
  exact (filter_snoc_length
           (λ t0, bookId t0 = bid ∧ status t0 ≠ RETURNED) txs t).
Qed.

Lemma outstanding_insert bid txs i t t' :
  txs !! i = Some t →
  outstanding bid (<[i:=t']> txs)
  = outstanding bid txs
    - (if decide (bookId t = bid ∧ status t ≠ RETURNED) then 1 else 0)
    + (if decide (bookId t' = bid ∧ status t' ≠ RETURNED) then 1 else 0).
Proof.
  intros Hi. unfold outstanding.
  exact (filter_insert_length
           (λ t0, bookId t0 = bid ∧ status t0 ≠ RETURNED) txs i t t' Hi).
Qed.

Lemma borrow_consistent uid bid note now stamp s :
  ledgerConsistent s → ledgerConsistent (borrow uid bid note now stamp s).2.
Proof.
  intros [Hnd Hall].
  destruct (borrow uid bid note now stamp s) as [r s'] eqn:Hrun.
  destruct (succeeded r) eqn:Hr;
    [|by rewrite (borrow_failed _ _ _ _ _ _ _ _ Hrun Hr)].
  destruct (borrow_succeeded _ _ _ _ _ _ _ _ Hrun Hr)
    as (i & book & j & user & Hb & Hq & _ & _ & _ & _ & ->).
  apply findBook_Some in Hb as [Hi Hid].
  split; simpl; [by rewrite book_ids_alter|].
  apply Forall_forall. intros b' Hb'. rewrite outstanding_snoc. simpl.
  destruct (elem_of_alter_inv _ _ _ _ _ Hi Hb') as [->|(k & Hk & Hlook)].
  - rewrite Forall_lookup in Hall. destruct (Hall i book Hi) as [? ?].
    simpl. rewrite decide_True by (by rewrite Hid). lia.
  - rewrite Forall_lookup in Hall. destruct (Hall k b' Hlook) as [? ?].
    rewrite decide_False; [lia|]. intros [Heq _].
    apply (book_id_distinct _ _ _ _ _ Hnd Hi Hlook Hk). congruence.
Qed.

Lemma returnBook_consistent tid uid condition note now stamp s :
  ledgerConsistent s →
  ledgerConsistent (returnBook tid uid condition note now stamp s).2.
Proof.
  intros [Hnd Hall].
  destruct (returnBook tid uid condition note now stamp s) as [r s'] eqn:Hrun.
  destruct (succeeded r) eqn:Hr;
    [|by rewrite (returnBook_failed _ _ _ _ _ _ _ _ _ Hrun Hr)].
  destruct (returnBook_succeeded _ _ _ _ _ _ _ _ _ Hrun Hr)
    as (i & t & Ht & _ & Hst & _ & ->).
  apply findTransaction_Some in Ht as [Hti _].
  rewrite Forall_lookup in Hall.
  assert (∀ bid,
    outstanding bid (<[i:=markReturned t (DateMs now)
                            (calculateLateFee (dueDate t) (DateMs now))
                            (default "GOOD" condition) (default "" note)
                            (DateMs stamp)]> (transactions s))
    = outstanding bid (transactions s)
      - (if decide (bookId t = bid) then 1 else 0)) as Hout.
  { intros bid. rewrite (outstanding_insert _ _ _ _ _ Hti). simpl.
    rewrite (decide_False (P := _ ∧ RETURNED ≠ RETURNED))
      by (by intros [_ ?]).
    destruct (decide (bookId t = bid)).
    - rewrite decide_True by done. lia.
    - rewrite decide_False by (by intros [? _]). lia. }
  destruct (findBook (bookId t) s) as [[k book]|] eqn:Hbook; simpl.
  - apply findBook_Some in Hbook as [Hk Hid].
    split; simpl; [by rewrite book_ids_alter|].
    apply Forall_forall. intros b' Hb'. rewrite Hout.
    destruct (elem_of_alter_inv _ _ _ _ _ Hk Hb') as [->|(m & Hm & Hlook)].
    + destruct (Hall k book Hk) as [? ?]. simpl.
      rewrite decide_True by done. lia.
    + destruct (Hall m b' Hlook) as [? ?].
      rewrite decide_False; [lia|]. intros Heq.
      apply (book_id_distinct _ _ _ _ _ Hnd Hk Hlook Hm). congruence.
  - split; simpl; [done|]. apply Forall_lookup. intros m b' Hlook.
    destruct (Hall m b' Hlook) as [? ?]. rewrite Hout.
    destruct (decide (bookId t = book_id b')); lia.
Qed.

Lemma renew_consistent tid uid now stamp s :
  ledgerConsistent s → ledgerConsistent (renew tid uid now stamp s).2.
Proof.
  intros [Hnd Hall].
  destruct (renew tid uid now stamp s) as [r s'] eqn:Hrun.
  destruct (succeeded r) eqn:Hr;
    [|by rewrite (renew_failed _ _ _ _ _ _ _ Hrun Hr)].
  destruct (renew_succeeded _ _ _ _ _ _ _ Hrun Hr)
    as (i & t & j & user & Ht & _ & _ & _ & _ & _ & _ & ->).
  apply findTransaction_Some in Ht as [Hti _].
  split; simpl; [done|]. eapply Forall_impl; [done|].
  intros b [? ?]. simpl in *. split; [done|].
  rewrite (outstanding_insert _ _ _ _ _ Hti). simpl.
  destruct (decide (bookId t = book_id b ∧ status t ≠ RETURNED)); lia.
Qed.

Lemma handle_consistent req s :
  ledgerConsistent s → ledgerConsistent (handle req s).2.
Proof.
  destruct req; simpl;
    auto using borrow_consistent, returnBook_consistent, renew_consistent.
Qed.

Lemma run_consistent reqs s :
  ledgerConsistent s → ledgerConsistent (run reqs s).
Proof.
  revert s. induction reqs as [|req reqs IH]; intros s Hs; [done|].
  simpl. apply IH. by apply handle_consistent.
Qed.

Lemma seedStore_consistent : ledgerConsistent seedStore.
Proof.
  split.
  - apply (bool_decide_unpack _). by vm_compute.
  - cbn [seedStore books seedBooks transactions].
    repeat (apply Forall_cons_2; [by vm_compute|]). apply Forall_nil_2.
Qed.

End Ledger.

(** C2, amended: in a store whose book keys are not repeated and where,
    for every book, availableQuantity is at least 0 and availableQuantity
    plus the number of its transactions not yet returned is at most
    totalQuantity, every sequence of Borrow, Return and Renew requests
    keeps 0 ≤ availableQuantity ≤ totalQuantity for every book after
    every request.  The seeded store is such a store.  A successful
    Return itself adds one to the availableQuantity of the book it finds,
    whatever the totalQuantity. *)
Theorem availability_bounds_preserved :
  (∀ s reqs, ledgerConsistent s →
             bookBounds (run reqs s) ∧ ledgerConsistent (run reqs s)) ∧
  (∀ reqs, bookBounds (run reqs seedStore)) ∧
  (∀ tid uid condition note now stamp s r s',
     returnBook tid uid condition note now stamp s = (r, s') →
     succeeded r = true →
     ∃ i t, findTransaction tid s = Some (i, t) ∧
            ∀ k book, findBook (bookId t) s = Some (k, book) →
                      books s' !! k = Some (adjustAvailable 1 book) ∧
                      availableQuantity (adjustAvailable 1 book)
                      = availableQuantity book + 1).
Proof.
  split_and!.
  - intros s reqs Hs. split; [apply ledgerConsistent_bounds|];
      by apply run_consistent.
  - intros reqs. apply ledgerConsistent_bounds, run_consistent,
      seedStore_consistent.
  - intros tid uid condition note now stamp s r s' Hrun Hr.
    destruct (returnBook_succeeded _ _ _ _ _ _ _ _ _ Hrun Hr)
      as (i & t & Ht & _ & _ & _ & ->).
    exists i, t. split; [done|]. intros k book Hbook. rewrite Hbook. simpl.
    apply findBook_Some in Hbook as [Hk _].
    by rewrite list_lookup_alter_eq, Hk.
Qed.

Lemma availability_bounds_preserved_witness :
  bookBounds
    (run [ Borrow "user2" "book3" None 1706000000000 1706000000000;
           Borrow "user1" "book3" None 1706000000000 1706000000000;
           Return "trans1" "user1" None None 1708387200000 1708387200000;
           Return "trans3" "user2" (Some "FAIR") None 1708387200000
                  1708387200000 ]
         seedStore).
Proof.
  destruct availability_bounds_preserved as (Hany & _ & _).
  apply Hany. split.
  - apply (bool_decide_unpack _). by vm_compute.
  - cbn [seedStore books seedBooks transactions].
    repeat (apply Forall_cons_2; [by vm_compute|]). apply Forall_nil_2.
Defined.

(** ** Renew *)

(** A successful renewal leaves the transaction where [transactionId]
    finds it, owned by the caller, still BORROWED, renewed once more. *)
Lemma renew_step tid uid now stamp s r s' i t :
  renew tid uid now stamp s = (r, s') → succeeded r = true →
  findTransaction tid s = Some (i, t) →
  ∃ t', findTransaction tid s' = Some (i, t') ∧
        renewalCount t' = renewalCount t + 1 ∧
        userId t' = uid ∧ status t' = BORROWED.
Proof.
  intros Hrun Hr Hfind.
  destruct (renew_succeeded _ _ _ _ _ _ _ Hrun Hr)
    as (i' & t0 & j & user & Hfind' & Howner & Hst & _ & _ & _ & _ & ->).
  rewrite Hfind in Hfind'. injection Hfind' as <- <-.
  exists (markRenewed t (calculateDueDate (dueDate t) (membershipType user))
                      (DateMs stamp)).
  split_and!; [|done..].
  unfold findTransaction in *. simpl.
  apply (list_find_insert_same (λ t0, trans_id t0 = tid) _ _ t); [done|].
  simpl. by apply list_find_Some in Hfind as (_ & ? & _).
Qed.

Lemma renew_limit_reached tid uid now stamp s i t :
  findTransaction tid s = Some (i, t) → userId t = uid →
  status t = BORROWED → 3 ≤ renewalCount t →
  renew tid uid now stamp s = (Failed RenewalLimitReached, s).
Proof.
  intros Hfind Howner Hst Hcount. unfold renew. rewrite Hfind.
  rewrite (bool_decide_eq_false_2 (userId t ≠ uid)) by auto.
  rewrite (bool_decide_eq_false_2 (status t ≠ BORROWED)) by auto.
  by rewrite bool_decide_eq_true_2.
Qed.

(** C5: a successful Renew adds one to renewalCount and sets dueDate to
    the previous dueDate plus the loan period, in days, that the policy
    table gives for the caller's membership type: the new date does not
    depend on the moment of the renewal.  Nothing else in the store
    changes.  After three successful renewals of a transaction that had
    none, a fourth attempt is answered RenewalLimitReached. *)
Theorem renew_effect :
  (∀ tid uid now stamp s t' newDueDate remaining s',
     renew tid uid now stamp s = (RenewedOk t' newDueDate remaining, s') →
     ∃ i t j user,
       findTransaction tid s = Some (i, t) ∧
       findUser uid s = Some (j, user) ∧
       renewalCount t' = renewalCount t + 1 ∧
       newDueDate = dueDate t' ∧
       (∀ due days, dueDate t = DateMs due →
                    loanPeriodDays (membershipType user) = JNum days →
                    dueDate t' = DateMs (due + days * msPerDay)) ∧
       trans_id t' = trans_id t ∧ userId t' = userId t ∧
       bookId t' = bookId t ∧ status t' = status t ∧
       borrowDate t' = borrowDate t ∧ lateFee t' = lateFee t ∧
       transactions s' = <[i := t']> (transactions s) ∧
       users s' = users s ∧ books s' = books s) ∧
  (∀ tid uid s i t n1 st1 n2 st2 n3 st3 n4 st4,
     findTransaction tid s = Some (i, t) → 0 ≤ renewalCount t →
     let o1 := renew tid uid n1 st1 s in
     let o2 := renew tid uid n2 st2 o1.2 in
     let o3 := renew tid uid n3 st3 o2.2 in
     succeeded o1.1 = true → succeeded o2.1 = true →
     succeeded o3.1 = true →
     renew tid uid n4 st4 o3.2 = (Failed RenewalLimitReached, o3.2)).
Proof.
  split.
  - intros tid uid now stamp s t' newDueDate remaining s' Hrun.
    destruct (renew_succeeded _ _ _ _ _ _ _ Hrun eq_refl)
      as (i & t & j & user & Hfind & _ & _ & _ & _ & Hu & Hr & ->).
    injection Hr as -> -> ->.
    exists i, t, j, user. simpl. split_and!; try done.
    intros due days -> Hdays. by apply calculateDueDate_days.
  - intros tid uid s i t n1 st1 n2 st2 n3 st3 n4 st4 Hfind Hcount.
    cbv zeta.
    destruct (renew tid uid n1 st1 s) as [r1 s1] eqn:H1. simpl.
    destruct (renew tid uid n2 st2 s1) as [r2 s2] eqn:H2. simpl.
    destruct (renew tid uid n3 st3 s2) as [r3 s3] eqn:H3. simpl.
    intros Hr1 Hr2 Hr3.
    destruct (renew_step _ _ _ _ _ _ _ _ _ H1 Hr1 Hfind)
      as (t1 & Hf1 & Hc1 & _ & _).
    destruct (renew_step _ _ _ _ _ _ _ _ _ H2 Hr2 Hf1)
      as (t2 & Hf2 & Hc2 & _ & _).
    destruct (renew_step _ _ _ _ _ _ _ _ _ H3 Hr3 Hf2)
      as (t3 & Hf3 & Hc3 & Howner & Hst).
    apply (renew_limit_reached _ _ _ _ _ i t3); [done..|lia].
Qed.

Lemma renew_effect_witness :
  (∃ t' s', (renew "trans1" "user1" 1706000000000 1706000000000
                   seedStore).2 = s' ∧
            findTransaction "trans1" s' = Some (0%nat, t') ∧
            dueDate t' = DateMs (1707868800000 + 30 * msPerDay) ∧
            renewalCount t' = 1) ∧
  (let s3 := run [ Renew "trans1" "user1" 1706000000000 1706000000000;
                   Renew "trans1" "user1" 1706000000000 1706000000000;
                   Renew "trans1" "user1" 1706000000000 1706000000000 ]
                 seedStore in
   renew "trans1" "user1" 1706000000000 1706000000000 s3
   = (Failed RenewalLimitReached, s3)).
Proof.
  destruct renew_effect as [Hone Hfour]. split.
  - destruct (renew "trans1" "user1" 1706000000000 1706000000000 seedStore)
      as [r s'] eqn:Hrun.
    assert (∃ t' d k, r = RenewedOk t' d k) as (t' & d & k & ->).
    { vm_compute in Hrun. injection Hrun as <- _. by eexists _, _, _. }
    destruct (Hone _ _ _ _ _ _ _ _ _ Hrun)
      as (i & t & j & user & Hfind & Hu & Hcount & _ & Hdue & Hid & _ & _
          & _ & _ & _ & Htx & _).
    vm_compute in Hfind. injection Hfind as <- <-.
    vm_compute in Hu. injection Hu as <- <-.
    exists t', s'. simpl. split_and!.
    + done.
    + unfold findTransaction. rewrite Htx. simpl.
      rewrite decide_True; [done|]. by rewrite Hid.
    + by apply Hdue.
    + by rewrite Hcount.
  - apply (Hfour "trans1" "user1" seedStore 0%nat
             {| trans_id := "trans1"; userId := "user1"; bookId := "book1";
                borrowDate := DateMs 1705276800000;
                dueDate := DateMs 1707868800000;
                returnDate := None; status := BORROWED; lateFee := Num 0;
                renewalCount := 0; notes := None; createdAt := None;
                returnCondition := None; returnNotes := None;
                updatedAt := None |}); by vm_compute.
Defined.

(** C7: the overdue test is the fifth check of Renew.  On a transaction
    that exists, belongs to the caller, has status BORROWED and has been
    renewed fewer than three times, a Renew past the due date
    (dueDate < now) is answered Overdue and leaves the store, so the
    transaction and its renewalCount, as it was; at now ≤ dueDate the
    test passes: the reply is not Overdue, and the renewal succeeds when
    the caller has a user record.  The four earlier checks keep their
    order whatever the due date is: a transaction of another member is
    answered Forbidden, one of the caller that is not BORROWED
    NotRenewable, one of the caller that is BORROWED and renewed three
    times RenewalLimitReached, each with the store unchanged; and no
    reply at now ≤ dueDate is Overdue. *)
Theorem renew_overdue_check tid uid now stamp s i t due :
  findTransaction tid s = Some (i, t) → dueDate t = DateMs due →
  (userId t = uid → status t = BORROWED → renewalCount t < 3 →
     (due < now → renew tid uid now stamp s = (Failed Overdue, s)) ∧
     (now ≤ due → is_Some (findUser uid s) →
      succeeded (renew tid uid now stamp s).1 = true)) ∧
  (userId t ≠ uid → renew tid uid now stamp s = (Failed Forbidden, s)) ∧
  (userId t = uid → status t ≠ BORROWED →
     renew tid uid now stamp s = (Failed NotRenewable, s)) ∧
  (userId t = uid → status t = BORROWED → 3 ≤ renewalCount t →
     renew tid uid now stamp s = (Failed RenewalLimitReached, s)) ∧
  (now ≤ due → (renew tid uid now stamp s).1 ≠ Failed Overdue).
Proof.
  intros Hfind Hdue. unfold renew. rewrite Hfind, Hdue. simpl.
  split_and!.
  - intros Howner Hst Hcount.
    rewrite (bool_decide_eq_false_2 (userId t ≠ uid)) by auto.
    rewrite (bool_decide_eq_false_2 (status t ≠ BORROWED)) by auto.
    rewrite (bool_decide_eq_false_2 (3 ≤ renewalCount t)) by lia.
    split.
    + intros Hlate. by rewrite bool_decide_eq_true_2.
    + intros Hok [[j user] ->].
      by rewrite bool_decide_eq_false_2 by lia.
  - intros Howner. by rewrite bool_decide_eq_true_2.
  - intros Howner Hst.
    rewrite (bool_decide_eq_false_2 (userId t ≠ uid)) by auto.
    by rewrite bool_decide_eq_true_2.
  - intros Howner Hst Hcount.
    rewrite (bool_decide_eq_false_2 (userId t ≠ uid)) by auto.
    rewrite (bool_decide_eq_false_2 (status t ≠ BORROWED)) by auto.
    by rewrite bool_decide_eq_true_2.
  - intros Hok. repeat case_bool_decide; try lia; try done.
    by destruct (findUser uid s) as [[??]|].
Qed.

Lemma renew_overdue_check_witness :
  renew "trans1" "user1" 1708387200000 1708387200000 seedStore
  = (Failed Overdue, seedStore) ∧
  succeeded
    (renew "trans1" "user1" 1707868800000 1707868800000 seedStore).1
  = true ∧
  renew "trans1" "user2" 1708387200000 1708387200000 seedStore
  = (Failed Forbidden, seedStore) ∧
  renew "trans2" "user2" 1708387200000 1708387200000 seedStore
  = (Failed NotRenewable, seedStore).
Proof.
  pose proof (renew_overdue_check "trans1" "user1" 1708387200000
                1708387200000 seedStore 0%nat
                {| trans_id := "trans1"; userId := "user1";
                   bookId := "book1"; borrowDate := DateMs 1705276800000;
                   dueDate := DateMs 1707868800000;
                   returnDate := None; status := BORROWED; lateFee := Num 0;
                   renewalCount := 0; notes := None; createdAt := None;
                   returnCondition := None; returnNotes := None;
                   updatedAt := None |} 1707868800000 eq_refl eq_refl)
    as (Hlate & _).
  pose proof (renew_overdue_check "trans1" "user1" 1707868800000
                1707868800000 seedStore 0%nat
                {| trans_id := "trans1"; userId := "user1";
                   bookId := "book1"; borrowDate := DateMs 1705276800000;
                   dueDate := DateMs 1707868800000;
                   returnDate := None; status := BORROWED; lateFee := Num 0;
                   renewalCount := 0; notes := None; createdAt := None;
                   returnCondition := None; returnNotes := None;
                   updatedAt := None |} 1707868800000 eq_refl eq_refl)
    as (Hok & _).
  pose proof (renew_overdue_check "trans1" "user2" 1708387200000
                1708387200000 seedStore 0%nat
                {| trans_id := "trans1"; userId := "user1";
                   bookId := "book1"; borrowDate := DateMs 1705276800000;
                   dueDate := DateMs 1707868800000;
                   returnDate := None; status := BORROWED; lateFee := Num 0;
                   renewalCount := 0; notes := None; createdAt := None;
                   returnCondition := None; returnNotes := None;
                   updatedAt := None |} 1707868800000 eq_refl eq_refl)
    as (_ & Hforeign & _).
  pose proof (renew_overdue_check "trans2" "user2" 1708387200000
                1708387200000 seedStore 1%nat
                {| trans_id := "trans2"; userId := "user2";
                   bookId := "book2"; borrowDate := DateMs 1704844800000;
                   dueDate := DateMs 1706745600000;
                   returnDate := Some (DateMs 1706572800000);
                   status := RETURNED; lateFee := Num 0;
                   renewalCount := 1; notes := None; createdAt := None;
                   returnCondition := None; returnNotes := None;
                   updatedAt := None |} 1706745600000 eq_refl eq_refl)
    as (_ & _ & Hclosed & _).
  split_and!.
  - destruct Hlate as [Hover _]; [done..|simpl; lia|]. apply Hover. lia.
  - destruct Hok as [_ Hpass]; [done..|simpl; lia|].
    apply Hpass; [lia|]. by eexists.
  - by apply Hforeign.
  - by apply Hclosed.
Defined.

(** C10: when the transaction exists, belongs to the caller, has status
    BORROWED, has been renewed fewer than three times and is not past
    due, but the caller has no record in the user store, Renew is
    answered with the internal error, status 500, which is none of the
    failure kinds of the closed taxonomy; the store is left as it was. *)
Theorem renew_missing_member tid uid now stamp s i t :
  findTransaction tid s = Some (i, t) → userId t = uid →
  status t = BORROWED → renewalCount t < 3 →
  ¬ pastDue (dueDate t) now → findUser uid s = None →
  renew tid uid now stamp s = (Failed InternalError, s) ∧
  httpStatus (renew tid uid now stamp s).1 = 500 ∧
  typedFailure InternalError = false.
Proof.
  intros Hfind Howner Hst Hcount Hdue Hu.
  assert (renew tid uid now stamp s = (Failed InternalError, s)) as Hrun.
  { unfold renew. rewrite Hfind, Hu.
    rewrite (bool_decide_eq_false_2 (userId t ≠ uid)) by auto.
    rewrite (bool_decide_eq_false_2 (status t ≠ BORROWED)) by auto.
    rewrite (bool_decide_eq_false_2 (3 ≤ renewalCount t)) by lia.
    by rewrite (bool_decide_eq_false_2 (pastDue (dueDate t) now)). }
  by rewrite Hrun.
Qed.

Lemma renew_missing_member_witness :
  renew "trans1" "user1" 1706000000000 1706000000000 orphanStore
  = (Failed InternalError, orphanStore).
Proof.
  apply (renew_missing_member "trans1" "user1" 1706000000000 1706000000000
           orphanStore 0%nat
           {| trans_id := "trans1"; userId := "user1"; bookId := "book1";
              borrowDate := DateMs 1705276800000;
              dueDate := DateMs 1707868800000;
              returnDate := None; status := BORROWED; lateFee := Num 0;
              renewalCount := 0; notes := None; createdAt := None;
              returnCondition := None; returnNotes := None;
              updatedAt := None |}); done.
Defined.

(** * Further properties of the transaction router *)

(** ** One request, one effect *)

Lemma handle_effect req s : Effect (callerOf req) s (handle req s).2.
Proof.
  destruct req as [uid bid note now stamp|tid uid condition note now stamp
                  |tid uid now stamp]; simpl.
  - destruct (borrow uid bid note now stamp s) as [r s'] eqn:Hrun. simpl.
    destruct (succeeded r) eqn:Hr.
    + destruct (borrow_succeeded _ _ _ _ _ _ _ _ Hrun Hr)
        as (i & book & j & user & ? & ? & ? & ? & ? & _ & ->).
      by eapply EffBorrow.
    + rewrite (borrow_failed _ _ _ _ _ _ _ _ Hrun Hr). constructor.
  - destruct (returnBook tid uid condition note now stamp s)
      as [r s'] eqn:Hrun. simpl.
    destruct (succeeded r) eqn:Hr.
    + destruct (returnBook_succeeded _ _ _ _ _ _ _ _ _ Hrun Hr)
        as (i & t & ? & ? & ? & _ & ->).
      by eapply EffReturn.
    + rewrite (returnBook_failed _ _ _ _ _ _ _ _ _ Hrun Hr). constructor.
  - destruct (renew tid uid now stamp s) as [r s'] eqn:Hrun. simpl.
    destruct (succeeded r) eqn:Hr.
    + destruct (renew_succeeded _ _ _ _ _ _ _ Hrun Hr)
        as (i & t & j & user & ? & ? & ? & ? & ? & ? & _ & ->).
      by eapply EffRenew.
    + rewrite (renew_failed _ _ _ _ _ _ _ Hrun Hr). constructor.
Qed.

(** A property kept by every effect is kept by every sequence of
    requests. *)
Lemma run_invariant (Inv : Store → Prop) :
  (∀ uid s s', Effect uid s s' → Inv s → Inv s') →
  ∀ reqs s, Inv s → Inv (run reqs s).
Proof.
  intros Hstep reqs. induction reqs as [|req reqs IH]; intros s Hs; [done|].
  simpl. apply IH. eapply Hstep; [apply handle_effect|done].
Qed.

(** The same for a relation between the first store and the current
    one. *)
Lemma run_relation (R : Store → Store → Prop) :
  (∀ s, R s s) →
  (∀ uid s0 s s', R s0 s → Effect uid s s' → R s0 s') →
  ∀ reqs s, R s (run reqs s).
Proof.
  intros Hrefl Hstep reqs s.
  assert (∀ s1, R s s1 → R s (run reqs s1)) as Hgen; [|by apply Hgen].
  induction reqs as [|req reqs IH]; intros s1 Hs1; [done|].
  simpl. apply IH. eapply Hstep; [done|apply handle_effect].
Qed.

(** What an effect does to the transaction at a given index. *)
Lemma effect_transaction uid s s' i t :
  Effect uid s s' → transactions s !! i = Some t →
  transactions s' !! i = Some t ∨
  (userId t = uid ∧ status t ≠ RETURNED ∧
   ∃ t', transactions s' !! i = Some t' ∧
         trans_id t' = trans_id t ∧ userId t' = userId t ∧
         bookId t' = bookId t ∧ borrowDate t' = borrowDate t ∧
         notes t' = notes t ∧ createdAt t' = createdAt t ∧
         (status t' = RETURNED ∨ status t' = status t) ∧
         (renewalCount t' = renewalCount t ∨
          (renewalCount t < 3 ∧ renewalCount t' = renewalCount t + 1))).
Proof.
  intros Heff Hi.
  destruct Heff as [|bid note now stamp k book j user _ _ _ _ _
                    |tid condition note now stamp k t0 Hfind Howner Hst
                    |tid now stamp k t0 j user Hfind Howner Hst Hcount _ _];
    simpl.
  - by left.
  - left. by apply lookup_app_l_Some.
  - apply findTransaction_Some in Hfind as [Hk _].
    destruct (decide (i = k)) as [->|Hne].
    + rewrite Hk in Hi. injection Hi as ->. right.
      split_and!; [done..|]. eexists. split.
      { apply list_lookup_insert_eq. by eapply lookup_lt_Some. }
      simpl. split_and!; auto.
    + left. by rewrite list_lookup_insert_ne.
  - apply findTransaction_Some in Hfind as [Hk _].
    destruct (decide (i = k)) as [->|Hne].
    + rewrite Hk in Hi. injection Hi as ->. right.
      split_and!; [done|by rewrite Hst|]. eexists. split.
      { apply list_lookup_insert_eq. by eapply lookup_lt_Some. }
      simpl. split_and!; auto.
    + left. by rewrite list_lookup_insert_ne.
Qed.

Lemma effect_length uid s s' :
  Effect uid s s' →
  (length (transactions s) ≤ length (transactions s'))%nat ∧
  users s' = users s ∧ length (books s') = length (books s).
Proof.
  intros [|bid note now stamp i book j user _ _ _ _ _
          |tid condition note now stamp i t _ _ _
          |tid now stamp i t j user _ _ _ _ _ _]; simpl.
  - done.
  - rewrite length_app, length_alter. split_and!; [lia|done..].
  - rewrite length_insert. split_and!; [done..|].
    destruct (findBook (bookId t) s) as [[k b]|]; [|done].
    apply length_alter.
  - by rewrite length_insert.
Qed.

(** X1: transactions are never deleted, moved or re-assigned.  Whatever
    requests are served, the users array is left as it was, the
    transactions array does not get shorter, and the transaction at an
    index keeps its key, its owner, its book, its borrow date, its notes
    and its creation stamp. *)
Theorem history_append_only reqs s :
  users (run reqs s) = users s ∧
  (length (transactions s) ≤ length (transactions (run reqs s)))%nat ∧
  ∀ i t, transactions s !! i = Some t →
    ∃ t', transactions (run reqs s) !! i = Some t' ∧
          trans_id t' = trans_id t ∧ userId t' = userId t ∧
          bookId t' = bookId t ∧ borrowDate t' = borrowDate t ∧
          notes t' = notes t ∧ createdAt t' = createdAt t.
Proof.
  apply (run_relation (λ s0 s1,
    users s1 = users s0 ∧
    (length (transactions s0) ≤ length (transactions s1))%nat ∧
    ∀ i t, transactions s0 !! i = Some t →
      ∃ t', transactions s1 !! i = Some t' ∧
            trans_id t' = trans_id t ∧ userId t' = userId t ∧
            bookId t' = bookId t ∧ borrowDate t' = borrowDate t ∧
            notes t' = notes t ∧ createdAt t' = createdAt t)).
  - intros s0. split_and!; [done..|]. intros i t Hi. by exists t.
  - intros uid s0 s1 s2 (Hu & Hlen & Hall) Heff.
    destruct (effect_length _ _ _ Heff) as (Hlen' & Hu' & _).
    split_and!; [congruence|lia|].
    intros i t Hi. destruct (Hall i t Hi) as (t1 & Hi1 & ? & ? & ? & ? & ? & ?).
    destruct (effect_transaction _ _ _ _ _ Heff Hi1)
      as [Hi2|(_ & _ & t2 & Hi2 & ? & ? & ? & ? & ? & ? & _)].
    + exists t1. split_and!; congruence.
    + exists t2. split_and!; congruence.
Qed.

Lemma history_append_only_witness :
  ∃ t', transactions
          (run [ Renew "trans1" "user1" 1706000000000 1706000000000;
                 Return "trans1" "user1" None None 1708387200000
                        1708387200000;
                 Borrow "user2" "book3" None 1708387200000 1708387200000 ]
               seedStore) !! 0%nat = Some t' ∧
        trans_id t' = "trans1" ∧ userId t' = "user1" ∧ bookId t' = "book1".
Proof.
  destruct (history_append_only
              [ Renew "trans1" "user1" 1706000000000 1706000000000;
                Return "trans1" "user1" None None 1708387200000
                       1708387200000;
                Borrow "user2" "book3" None 1708387200000 1708387200000 ]
              seedStore) as (_ & _ & Hall).
  destruct (Hall 0%nat _ eq_refl) as (t' & Hi & Hid & Hu & Hb & _).
  exists t'. by split_and!.
Defined.

(** X2: RETURNED is final.  A transaction stored with the status
    RETURNED is found unchanged, at the same index, after any sequence of
    requests. *)
Theorem returned_is_final reqs s i t :
  transactions s !! i = Some t → status t = RETURNED →
  transactions (run reqs s) !! i = Some t.
Proof.
  intros Hi Hst.
  apply (run_invariant (λ s1, transactions s1 !! i = Some t)); [|done].
  intros uid s1 s2 Heff Hi1.
  destruct (effect_transaction _ _ _ _ _ Heff Hi1) as [?|(_ & Hne & _)];
    [done|]. by destruct Hne.
Qed.

Lemma returned_is_final_witness :
  ∃ t, transactions seedStore !! 1%nat = Some t ∧ status t = RETURNED ∧
       transactions
         (run [ Return "trans2" "user2" None None 1708387200000
                       1708387200000;
                Renew "trans2" "user2" 1706000000000 1706000000000;
                Borrow "user2" "book2" None 1708387200000 1708387200000 ]
              seedStore) !! 1%nat = Some t.
Proof.
  eexists. split; [reflexivity|]. split; [reflexivity|].
  apply returned_is_final; reflexivity.
Defined.

(** X3: the handlers never store the status OVERDUE.  When no
    transaction of the store has it, none has it after any sequence of
    requests; every stored status is then BORROWED or RETURNED. *)
Theorem overdue_never_stored reqs s :
  storedStatuses s →
  storedStatuses (run reqs s) ∧
  ∀ t, t ∈ transactions (run reqs s) →
       status t = BORROWED ∨ status t = RETURNED.
Proof.
  intros Hs.
  assert (storedStatuses (run reqs s)) as Hrun.
  { revert reqs s Hs. apply run_invariant.
    intros uid s1 s2 Heff Hall. unfold storedStatuses in *.
    rewrite Forall_lookup in Hall. apply Forall_lookup. intros i t2 Hi2.
    destruct (transactions s1 !! i) as [t1|] eqn:Hi1.
    - destruct (effect_transaction _ _ _ _ _ Heff Hi1)
        as [Hsame|(_ & _ & t' & Hi' & _ & _ & _ & _ & _ & _ & Hst & _)].
      + rewrite Hsame in Hi2. injection Hi2 as <-. eauto.
      + rewrite Hi' in Hi2. injection Hi2 as <-.
        destruct Hst as [->| ->]; [done|eauto].
    - apply lookup_ge_None in Hi1.
      destruct Heff; simpl in *;
        try (apply lookup_lt_Some in Hi2; rewrite ?length_insert in Hi2; lia).
      rewrite lookup_app_r in Hi2 by done.
      apply list_lookup_singleton_Some in Hi2 as [_ <-]. done. }
  split; [done|]. intros t Ht.
  unfold storedStatuses in Hrun. rewrite Forall_forall in Hrun.
  specialize (Hrun t Ht). destruct (status t); auto. done.
Qed.

Lemma overdue_never_stored_witness :
  storedStatuses
    (run [ Borrow "user2" "book3" None 1706000000000 1706000000000;
           Renew "trans1" "user1" 1706000000000 1706000000000 ]
         seedStore).
Proof.
  apply overdue_never_stored.
  unfold storedStatuses. cbn [seedStore transactions seedTransactions].
  repeat (apply Forall_cons_2; [by vm_compute|]). apply Forall_nil_2.
Defined.

(** ** Counters after an effect *)

Lemma filter_list_find_None {A} (P : A → Prop) `{!∀ x, Decision (P x)}
    (l : list A) :
  list_find P l = None → filter P l = [].
Proof.
  rewrite list_find_None. induction 1 as [|x l Hx _ IH]; [done|].
  by rewrite filter_cons, decide_False.
Qed.

Lemma currentBorrowedCount_snoc uid s t s' :
  transactions s' = transactions s ++ [t] →
  currentBorrowedCount uid s'
  = currentBorrowedCount uid s
    + (if decide (userId t = uid ∧ status t = BORROWED) then 1 else 0).
Proof.
  intros Heq. unfold currentBorrowedCount. rewrite Heq.
  exact (filter_snoc_length
           (λ t0, userId t0 = uid ∧ status t0 = BORROWED) (transactions s) t).
Qed.

Lemma currentBorrowedCount_insert uid s i t t' s' :
  transactions s !! i = Some t →
  transactions s' = <[i:=t']> (transactions s) →
  currentBorrowedCount uid s'
  = currentBorrowedCount uid s
    - (if decide (userId t = uid ∧ status t = BORROWED) then 1 else 0)
    + (if decide (userId t' = uid ∧ status t' = BORROWED) then 1 else 0).
Proof.
  intros Hi Heq. unfold currentBorrowedCount. rewrite Heq.
  exact (filter_insert_length
           (λ t0, userId t0 = uid ∧ status t0 = BORROWED)
           (transactions s) i t t' Hi).
Qed.

Lemma activeLoans_snoc uid bid txs t :
  activeLoans uid bid (txs ++ [t])
  = activeLoans uid bid txs
    + (if decide (userId t = uid ∧ bookId t = bid ∧ status t = BORROWED)
       then 1 else 0).
Proof.
  unfold activeLoans.
  exact (filter_snoc_length
           (λ t0, userId t0 = uid ∧ bookId t0 = bid ∧ status t0 = BORROWED)
           txs t).
Qed.

Lemma activeLoans_insert uid bid txs i t t' :
  txs !! i = Some t →
  activeLoans uid bid (<[i:=t']> txs)
  = activeLoans uid bid txs
    - (if decide (userId t = uid ∧ bookId t = bid ∧ status t = BORROWED)
       then 1 else 0)
    + (if decide (userId t' = uid ∧ bookId t' = bid ∧ status t' = BORROWED)
       then 1 else 0).
Proof.
  intros Hi. unfold activeLoans.
  exact (filter_insert_length
           (λ t0, userId t0 = uid ∧ bookId t0 = bid ∧ status t0 = BORROWED)
           txs i t t' Hi).
Qed.

(** ** Invariants of the transactions *)

Lemma renewalsBounded_effect uid s s' :
  Effect uid s s' → renewalsBounded s → renewalsBounded s'.
Proof.
  unfold renewalsBounded.
  intros [|bid note now stamp i book j user _ _ _ _ _
          |tid condition note now stamp i t Hfind _ _
          |tid now stamp i t j user Hfind _ _ Hcount _ _] Hall; simpl.
  - done.
  - apply Forall_app. split; [done|]. apply Forall_singleton. simpl. lia.
  - apply Forall_insert; [done|]. simpl.
    apply findTransaction_Some in Hfind as [Hi _].
    by apply (Forall_lookup_1 _ _ _ _ Hall Hi).
  - apply Forall_insert; [done|]. simpl.
    apply findTransaction_Some in Hfind as [Hi _].
    pose proof (Forall_lookup_1 _ _ _ _ Hall Hi) as Ht. simpl in Ht. lia.
Qed.

(** X4: renewalCount stays between 0 and 3.  In a store where every
    transaction has a renewalCount from 0 to 3, this is still so after
    any sequence of requests. *)
Theorem renewal_count_bounded reqs s :
  renewalsBounded s →
  ∀ t, t ∈ transactions (run reqs s) → 0 ≤ renewalCount t ≤ 3.
Proof.
  intros Hs.
  assert (renewalsBounded (run reqs s)) as Hrun.
  { revert reqs s Hs. apply run_invariant, renewalsBounded_effect. }
  unfold renewalsBounded in Hrun. rewrite Forall_forall in Hrun. done.
Qed.

Lemma renewal_count_bounded_witness :
  Forall (λ t, 0 ≤ renewalCount t ≤ 3)
    (transactions
       (run [ Renew "trans1" "user1" 1706000000000 1706000000000;
              Renew "trans1" "user1" 1706000000000 1706000000000;
              Renew "trans1" "user1" 1706000000000 1706000000000;
              Renew "trans1" "user1" 1706000000000 1706000000000;
              Renew "trans1" "user1" 1706000000000 1706000000000 ]
            seedStore)).
Proof.
  apply Forall_forall. apply renewal_count_bounded.
  unfold renewalsBounded. cbn [seedStore transactions seedTransactions].
  repeat (apply Forall_cons_2; [by vm_compute|]). apply Forall_nil_2.
Defined.

Lemma withinLimits_effect uid s s' :
  Effect uid s s' → withinLimits s → withinLimits s'.
Proof.
  intros [|bid note now stamp i book j user _ _ Huser Hlimit _
          |tid condition note now stamp i t Hfind _ _
          |tid now stamp i t j user Hfind _ Hst _ _ _] Hs; [done|..];
    intros uid' j' user' n Hu Hn;
    change (findUser uid' s = Some (j', user')) in Hu;
    specialize (Hs uid' j' user' n Hu Hn).
  - erewrite currentBorrowedCount_snoc; [|done]. simpl.
    destruct (decide (uid = uid')) as [<-|Hne].
    + rewrite decide_True by done.
      rewrite Huser in Hu. injection Hu as <- <-.
      rewrite Hn in Hlimit. simpl in Hlimit.
      apply bool_decide_eq_false_1 in Hlimit. lia.
    + rewrite decide_False by (by intros [? _]). lia.
  - apply findTransaction_Some in Hfind as [Hi _].
    erewrite currentBorrowedCount_insert; [|done..]. simpl.
    rewrite (decide_False (P := _ ∧ RETURNED = BORROWED)) by (by intros [_ ?]).
    destruct (decide (userId t = uid' ∧ status t = BORROWED)); lia.
  - apply findTransaction_Some in Hfind as [Hi _].
    erewrite currentBorrowedCount_insert; [|done..]. simpl.
    destruct (decide (userId t = uid' ∧ status t = BORROWED)); lia.
Qed.

Lemma seedStore_withinLimits : withinLimits seedStore.
Proof.
  intros uid j user n Hu Hn. unfold findUser in Hu. simpl in Hu.
  repeat case_decide; simplify_eq/=;
    vm_compute in Hn; injection Hn as <-; by vm_compute.
Qed.

(** X5: the borrowing limit holds at all times.  In a store where every
    member holds at most as many BORROWED transactions as the policy
    table allows for the membership type, this is still so after any
    sequence of requests; the seeded store is such a store. *)
Theorem borrowing_limit_kept :
  (∀ reqs s, withinLimits s → withinLimits (run reqs s)) ∧
  (∀ reqs uid j user n,
     findUser uid seedStore = Some (j, user) →
     getBorrowingLimit (membershipType user) = JNum n →
     currentBorrowedCount uid (run reqs seedStore) ≤ n).
Proof.
  split.
  - apply run_invariant, withinLimits_effect.
  - intros reqs uid j user n Hu Hn.
    pose proof (run_invariant _ withinLimits_effect reqs seedStore
                  seedStore_withinLimits) as Hrun.
    apply (Hrun uid j user n); [|done].
    unfold findUser in *.
    assert (users (run reqs seedStore) = users seedStore) as ->; [|done].
    apply (run_relation (λ s0 s1, users s1 = users s0)); [done|].
    intros uid' s0 s1 s2 Heq Heff. destruct (effect_length _ _ _ Heff)
      as (_ & -> & _). done.
Qed.

Lemma borrowing_limit_kept_witness :
  currentBorrowedCount "user2"
    (run [ Borrow "user2" "book1" None 1706000000000 1706000000000;
           Borrow "user2" "book2" None 1706000000000 1706000000000;
           Borrow "user2" "book3" None 1706000000000 1706000000000 ]
         seedStore) ≤ 5.
Proof.
  destruct borrowing_limit_kept as [_ Hseed].
  apply (Hseed _ "user2" 1%nat
               {| user_id := "user2"; name := "Jane Smith";
                  membershipType := "STUDENT"; borrowedBooks := [];
                  isActive := None |}); by vm_compute.
Defined.

Lemma onePerPair_effect uid s s' :
  Effect uid s s' → onePerPair s → onePerPair s'.
Proof.
  intros [|bid note now stamp i book j user _ _ _ _ Hnone
          |tid condition note now stamp i t Hfind _ _
          |tid now stamp i t j user Hfind _ Hst _ _ _] Hs; [done|..];
    intros uid' bid'; specialize (Hs uid' bid'); simpl.
  - rewrite activeLoans_snoc. simpl.
    destruct (decide (uid = uid' ∧ bid = bid' ∧ BORROWED = BORROWED))
      as [(<- & <- & _)|]; [|lia].
    unfold activeLoans, existingTransaction in *.
    rewrite (filter_list_find_None _ _ Hnone). simpl. lia.
  - apply findTransaction_Some in Hfind as [Hi _].
    rewrite (activeLoans_insert _ _ _ _ _ _ Hi). simpl.
    rewrite (decide_False (P := _ ∧ _ ∧ RETURNED = BORROWED))
      by (by intros (_ & _ & ?)).
    destruct (decide (userId t = uid' ∧ bookId t = bid' ∧
                      status t = BORROWED)); lia.
  - apply findTransaction_Some in Hfind as [Hi _].
    rewrite (activeLoans_insert _ _ _ _ _ _ Hi). simpl.
    destruct (decide (userId t = uid' ∧ bookId t = bid' ∧
                      status t = BORROWED)); lia.
Qed.

Lemma seedStore_onePerPair : onePerPair seedStore.
Proof.
  intros uid bid. unfold activeLoans.
  cbn [seedStore transactions]. unfold seedTransactions.
  rewrite !filter_cons, filter_nil.
  repeat case_decide; simpl; try lia.
  all: destruct_and?; simplify_eq/=.
Qed.

(** X6: a member never holds two BORROWED transactions on the same book.
    In a store where every pair of a member and a book has at most one
    BORROWED transaction, this is still so after any sequence of
    requests; the seeded store is such a store. *)
Theorem one_loan_per_member_and_book :
  (∀ reqs s, onePerPair s → onePerPair (run reqs s)) ∧
  (∀ reqs, onePerPair (run reqs seedStore)).
Proof.
  split.
  - apply run_invariant, onePerPair_effect.
  - intros reqs. apply run_invariant;
      [apply onePerPair_effect|apply seedStore_onePerPair].
Qed.

Lemma one_loan_per_member_and_book_witness :
  activeLoans "user1" "book1"
    (transactions
       (run [ Borrow "user1" "book1" None 1706000000000 1706000000000;
              Return "trans1" "user1" None None 1706000000000 1706000000000;
              Borrow "user1" "book1" None 1706000000000 1706000000000;
              Borrow "user1" "book1" None 1706000000000 1706000000000 ]
            seedStore)) ≤ 1.
Proof.
  destruct one_loan_per_member_and_book as [Hany _].
  apply Hany. intros uid bid. unfold activeLoans.
  cbn [seedStore transactions]. unfold seedTransactions.
  rewrite !filter_cons, filter_nil.
  repeat case_decide; simpl; try lia.
  all: destruct_and?; simplify_eq/=.
Defined.

(** ** The catalogue under the transaction handlers *)

Lemma adjustAvailable_cancel b :
  adjustAvailable 1 (adjustAvailable (-1) b) = b.
Proof. destruct b. unfold adjustAvailable. simpl. f_equal. lia. Qed.

(** What an effect does to the book at a given index, when book keys are
    not repeated: it keeps the key, the title and the number of copies
    owned, and what is added to the shelf is taken from the copies
    out. *)
Lemma effect_book uid s s' i b :
  Effect uid s s' → NoDup (book_id <$> books s) →
  books s !! i = Some b →
  ∃ b', books s' !! i = Some b' ∧
        book_id b' = book_id b ∧ title b' = title b ∧
        totalQuantity b' = totalQuantity b ∧
        availableQuantity b' + outstanding (book_id b) (transactions s')
        = availableQuantity b + outstanding (book_id b) (transactions s).
Proof.
  intros [|bid note now stamp k book j user Hbook _ _ _ _
          |tid condition note now stamp k t Hfind _ Hst
          |tid now stamp k t j user Hfind _ _ _ _ _] Hnd Hi; simpl.
  - by exists b.
  - apply findBook_Some in Hbook as [Hk Hid].
    rewrite outstanding_snoc. simpl.
    destruct (decide (i = k)) as [->|Hne].
    + rewrite Hk in Hi. injection Hi as ->.
      exists (adjustAvailable (-1) b). rewrite list_lookup_alter_eq, Hk.
      split_and!; [done..|]. simpl.
      rewrite decide_True by done. lia.
    + exists b. rewrite list_lookup_alter_ne by done.
      split_and!; [done..|].
      rewrite decide_False; [lia|]. intros [Heq _].
      apply (book_id_distinct _ _ _ _ _ Hnd Hk Hi Hne). congruence.
  - apply findTransaction_Some in Hfind as [Hti _].
    rewrite (outstanding_insert _ _ _ _ _ Hti). simpl.
    rewrite (decide_False (P := _ ∧ RETURNED ≠ RETURNED))
      by (by intros [_ ?]).
    destruct (findBook (bookId t) s) as [[m book]|] eqn:Hbook.
    + apply findBook_Some in Hbook as [Hm Hid].
      destruct (decide (i = m)) as [->|Hne].
      * rewrite Hm in Hi. injection Hi as ->.
        exists (adjustAvailable 1 b). rewrite list_lookup_alter_eq, Hm.
        split_and!; [done..|]. simpl.
        rewrite decide_True by done. lia.
      * exists b. rewrite list_lookup_alter_ne by done.
        split_and!; [done..|].
        rewrite decide_False; [lia|]. intros [Heq _].
        apply (book_id_distinct _ _ _ _ _ Hnd Hm Hi Hne). congruence.
    + exists b. split_and!; [done..|].
      rewrite decide_False; [lia|]. intros [Heq _].
      rewrite findBook_None in Hbook.
      apply (Hbook b); [by eapply list_elem_of_lookup_2|done].
  - apply findTransaction_Some in Hfind as [Hti _].
    rewrite (outstanding_insert _ _ _ _ _ Hti). simpl.
    exists b. split_and!; [done..|].
    destruct (decide (bookId t = book_id b ∧ status t ≠ RETURNED)); lia.
Qed.

Lemma effect_book_ids uid s s' :
  Effect uid s s' → book_id <$> books s' = book_id <$> books s.
Proof.
  intros [|bid note now stamp k book j user _ _ _ _ _
          |tid condition note now stamp k t _ _ _
          |tid now stamp k t j user _ _ _ _ _ _]; simpl; try done.
  - apply book_ids_alter.
  - destruct (findBook (bookId t) s) as [[m book]|]; [|done].
    apply book_ids_alter.
Qed.

(** X7: copies are neither lost nor made.  When book keys are not
    repeated, after any sequence of requests every book is at its index
    with the same key, title and totalQuantity, and its availableQuantity
    plus the number of its transactions not yet returned is what it was
    at the start. *)
Theorem copies_conserved reqs s i b :
  NoDup (book_id <$> books s) → books s !! i = Some b →
  ∃ b', books (run reqs s) !! i = Some b' ∧
        book_id b' = book_id b ∧ title b' = title b ∧
        totalQuantity b' = totalQuantity b ∧
        availableQuantity b'
          + outstanding (book_id b) (transactions (run reqs s))
        = availableQuantity b + outstanding (book_id b) (transactions s).
Proof.
  intros Hnd Hi.
  apply (run_relation (λ s0 s1,
    NoDup (book_id <$> books s0) → books s0 !! i = Some b →
    book_id <$> books s1 = book_id <$> books s0 ∧
    ∃ b', books s1 !! i = Some b' ∧
          book_id b' = book_id b ∧ title b' = title b ∧
          totalQuantity b' = totalQuantity b ∧
          availableQuantity b' + outstanding (book_id b) (transactions s1)
          = availableQuantity b + outstanding (book_id b) (transactions s0)));
    [| |done..].
  - intros s0 _ Hi0. split; [done|]. by exists b.
  - intros uid s0 s1 s2 Hrel Heff Hnd0 Hi0.
    destruct (Hrel Hnd0 Hi0) as (Hids & b1 & Hi1 & Hid1 & Ht1 & Hq1 & Hsum1).
    assert (NoDup (book_id <$> books s1)) as Hnd1 by by rewrite Hids.
    destruct (effect_book _ _ _ _ _ Heff Hnd1 Hi1)
      as (b2 & Hi2 & Hid2 & Ht2 & Hq2 & Hsum2).
    split; [by rewrite (effect_book_ids _ _ _ Heff)|].
    exists b2. rewrite Hid1 in Hsum2. split_and!; congruence.
Qed.

Lemma copies_conserved_witness :
  ∃ b', books
          (run [ Borrow "user2" "book1" None 1706000000000 1706000000000;
                 Return "trans1" "user1" None None 1708387200000
                        1708387200000 ]
               seedStore) !! 0%nat = Some b' ∧
        totalQuantity b' = 5 ∧
        availableQuantity b'
          + outstanding "book1"
              (transactions
                 (run [ Borrow "user2" "book1" None 1706000000000
                               1706000000000;
                        Return "trans1" "user1" None None 1708387200000
                               1708387200000 ]
                      seedStore))
        = 3 + outstanding "book1" (transactions seedStore).
Proof.
  destruct (copies_conserved
              [ Borrow "user2" "book1" None 1706000000000 1706000000000;
                Return "trans1" "user1" None None 1708387200000
                       1708387200000 ]
              seedStore 0%nat
              {| book_id := "book1"; title := "The Great Gatsby";
                 availableQuantity := 3; totalQuantity := 5 |})
    as (b' & Hi & _ & _ & Hq & Hsum).
  - apply (bool_decide_unpack _). by vm_compute.
  - reflexivity.
  - exists b'. by split_and!.
Defined.

(** ** Transaction keys *)

Lemma trans_key_inj (i j : nat) :
  "trans" +:+ pretty (i + 1)%nat = "trans" +:+ pretty (j + 1)%nat → i = j.
Proof.
  intros Heq. apply (inj (String.append "trans")) in Heq.
  apply (inj pretty) in Heq. lia.
Qed.

Lemma idsByPosition_find s i t :
  idsByPosition s → transactions s !! i = Some t →
  findTransaction (trans_id t) s = Some (i, t).
Proof.
  intros Hids Hi. apply list_find_Some. split_and!; [done..|].
  intros j t' Hj Hlt Heq.
  rewrite (Hids _ _ Hi), (Hids _ _ Hj) in Heq.
  apply trans_key_inj in Heq. lia.
Qed.

Lemma idsByPosition_effect uid s s' :
  Effect uid s s' → idsByPosition s → idsByPosition s'.
Proof.
  intros [|bid note now stamp k book j user _ _ _ _ _
          |tid condition note now stamp k t Hfind _ _
          |tid now stamp k t j user Hfind _ _ _ _ _] Hids; [done|..];
    intros i t' Hi; simpl in Hi.
  - apply lookup_app_Some in Hi as [Hi|[Hge Hi]]; [by apply Hids|].
    apply list_lookup_singleton_Some in Hi as [Hi0 <-]. simpl.
    by assert (i = length (transactions s)) as -> by lia.
  - apply findTransaction_Some in Hfind as [Hk _].
    apply list_lookup_insert_Some in Hi as [(<- & <- & _)|[_ Hi]];
      [simpl; by apply (Hids _ _ Hk)|by apply Hids].
  - apply findTransaction_Some in Hfind as [Hk _].
    apply list_lookup_insert_Some in Hi as [(<- & <- & _)|[_ Hi]];
      [simpl; by apply (Hids _ _ Hk)|by apply Hids].
Qed.

Lemma seedStore_idsByPosition : idsByPosition seedStore.
Proof.
  intros [|[|i]] t Hi; simplify_eq/=; done.
Qed.

(** X8: transaction keys identify transactions.  In a store where the
    transaction at index i has the key the borrow handler gives to the
    (i+1)-th transaction, as in the seeded store, this is still so after
    any sequence of requests; no two transactions share a key, and
    looking a transaction up by its key finds that transaction. *)
Theorem transaction_keys_unique reqs s :
  idsByPosition s →
  idsByPosition (run reqs s) ∧
  (∀ i t, transactions (run reqs s) !! i = Some t →
          findTransaction (trans_id t) (run reqs s) = Some (i, t)) ∧
  (∀ i j t t', transactions (run reqs s) !! i = Some t →
               transactions (run reqs s) !! j = Some t' →
               trans_id t = trans_id t' → i = j).
Proof.
  intros Hs.
  assert (idsByPosition (run reqs s)) as Hrun.
  { revert reqs s Hs. apply run_invariant, idsByPosition_effect. }
  split_and!; [done|..].
  - intros i t. by apply idsByPosition_find.
  - intros i j t t' Hi Hj Heq.
    rewrite (Hrun _ _ Hi), (Hrun _ _ Hj) in Heq. by apply trans_key_inj.
Qed.

Lemma transaction_keys_unique_witness :
  ∃ t, findTransaction "trans3"
         (run [ Borrow "user2" "book3" None 1706000000000 1706000000000;
                Borrow "user2" "book1" None 1706000000000 1706000000000 ]
              seedStore) = Some (2%nat, t) ∧
       bookId t = "book3".
Proof.
  destruct (transaction_keys_unique
              [ Borrow "user2" "book3" None 1706000000000 1706000000000;
                Borrow "user2" "book1" None 1706000000000 1706000000000 ]
              seedStore) as (_ & Hfind & _).
  - intros [|[|i]] t Hi; simplify_eq/=; done.
  - pose proof (Hfind 2%nat _ ltac:(vm_compute; reflexivity)) as Hkey.
    eexists. split; [exact Hkey|reflexivity].
Defined.

(** ** Borrow and return together *)

(** X9: borrowing a book and returning that loan puts the shelf back.  In
    a store whose transaction keys follow the positions, a successful
    Borrow followed by a Return of the transaction it created, by the
    same member, succeeds and leaves the books and the users exactly as
    they were before the Borrow; the transactions have grown by the one
    loan, now RETURNED with the late fee of its due date. *)
Theorem borrow_then_return uid bid note now stamp condition rnote now2 stamp2
    s t bookSummary userSummary s1 :
  idsByPosition s →
  borrow uid bid note now stamp s = (BorrowedOk t bookSummary userSummary, s1) →
  ∃ r2 s2 t2,
    returnBook (trans_id t) uid condition rnote now2 stamp2 s1 = (r2, s2) ∧
    httpStatus r2 = 200 ∧
    books s2 = books s ∧ users s2 = users s ∧
    transactions s2 = transactions s ++ [t2] ∧
    status t2 = RETURNED ∧ returnDate t2 = Some (DateMs now2) ∧
    lateFee t2 = calculateLateFee (dueDate t) (DateMs now2).
Proof.
  intros Hids Hrun.
  destruct (borrow_succeeded _ _ _ _ _ _ _ _ Hrun eq_refl)
    as (i & book & j & user & Hbook & Hq & Hu & Hlim & Hnone & Hr & ->).
  injection Hr as -> _ _.
  set (t := newTransaction s uid bid note now stamp user).
  set (s1 := {| transactions := transactions s ++ [t]; users := users s;
                books := alter (adjustAvailable (-1)) i (books s) |}).
  assert (findTransaction (trans_id t) s1
          = Some (length (transactions s), t)) as Hfind.
  { apply idsByPosition_find.
    - apply (idsByPosition_effect uid s); [|done]. by eapply EffBorrow.
    - simpl. apply list_lookup_middle. done. }
  assert (findBook bid s1 = Some (i, adjustAvailable (-1) book)) as Hbook1.
  { unfold findBook in *. simpl.
    by apply (list_find_alter_same (λ b, book_id b = bid)). }
  unfold returnBook. rewrite Hfind.
  rewrite (bool_decide_eq_false_2 (userId t ≠ uid)) by (simpl; auto).
  rewrite (bool_decide_eq_false_2 (status t = RETURNED)) by done.
  cbv zeta. change (bookId t) with bid. rewrite Hbook1.
  eexists _, _, (markReturned t (DateMs now2)
                   (calculateLateFee (dueDate t) (DateMs now2))
                   (default "GOOD" condition) (default "" rnote)
                   (DateMs stamp2)).
  split; [done|]. simpl. split_and!; try done.
  - rewrite list_alter_alter_eq.
    apply list_alter_id. intros b. apply adjustAvailable_cancel.
  - rewrite insert_app_r_alt by done. rewrite Nat.sub_diag. done.
Qed.

Lemma borrow_then_return_witness :
  ∃ s1 s2,
    (borrow "user2" "book3" None 1706000000000 1706000000000
            seedStore).2 = s1 ∧
    (returnBook "trans3" "user2" None None 1706100000000 1706100000000
                s1).2 = s2 ∧
    books s2 = books seedStore.
Proof.
  destruct (borrow "user2" "book3" None 1706000000000 1706000000000
                   seedStore) as [r s1] eqn:Hrun.
  assert (∃ t bs us, r = BorrowedOk t bs us ∧ trans_id t = "trans3")
    as (t & bs & us & -> & Hid).
  { vm_compute in Hrun. injection Hrun as <- _. by eexists _, _, _. }
  destruct (borrow_then_return _ _ _ _ _ None None 1706100000000
              1706100000000 _ _ _ _ _ seedStore_idsByPosition Hrun)
    as (r2 & s2 & t2 & Hret & _ & Hbooks & _).
  rewrite Hid in Hret.
  exists s1, s2. split_and!; [done| |done]. by rewrite Hret.
Defined.

(** ** Return *)

Lemma ceilDiv_nonpos a b : 0 < b → a ≤ 0 → ceilDiv a b ≤ 0.
Proof. intros Hb Ha. pose proof (ceilDiv_bounds a b Hb). nia. Qed.

(** X10: what a successful Return stores.  The transaction that the key
    finds is replaced, in place, by one with status RETURNED, returnDate
    now and the given condition (GOOD when none is given); its key,
    owner, book, due date and renewalCount are kept.  When the due date
    is valid, the [daysOverdue] of the reply is a number of days, at
    least 0 and equal to 0 exactly when the return is not late, and the
    stored lateFee is min(daysOverdue * 50, 2500) cents. *)
Theorem return_effect tid uid condition note now stamp s t' bookSummary
    daysOverdue s' :
  returnBook tid uid condition note now stamp s
  = (ReturnedOk t' bookSummary daysOverdue, s') →
  ∃ i t,
    findTransaction tid s = Some (i, t) ∧
    transactions s' = <[i := t']> (transactions s) ∧
    users s' = users s ∧
    status t' = RETURNED ∧ returnDate t' = Some (DateMs now) ∧
    returnCondition t' = Some (default "GOOD" condition) ∧
    trans_id t' = trans_id t ∧ userId t' = uid ∧ bookId t' = bookId t ∧
    dueDate t' = dueDate t ∧ renewalCount t' = renewalCount t ∧
    ∀ due, dueDate t = DateMs due →
      ∃ days, daysOverdue = Num days ∧ 0 ≤ days ∧
              (days = 0 ↔ now ≤ due) ∧
              lateFee t' = Num (Z.min (days * 50) 2500).
Proof.
  intros Hrun.
  destruct (returnBook_succeeded _ _ _ _ _ _ _ _ _ Hrun eq_refl)
    as (i & t & Hfind & Howner & Hst & Hr & ->).
  injection Hr as -> _ ->.
  exists i, t. simpl. split_and!; try done.
  intros due ->. simpl.
  exists (Z.max 0 (ceilDiv (now - due) msPerDay)).
  destruct (decide (now ≤ due)) as [Hle|Hgt].
  - pose proof (ceilDiv_nonpos (now - due) msPerDay msPerDay_pos
                  ltac:(lia)).
    rewrite bool_decide_eq_true_2 by done.
    split_and!; [done|lia| |f_equal; lia]. split; lia.
  - pose proof (ceilDiv_pos (now - due) msPerDay msPerDay_pos ltac:(lia)).
    rewrite bool_decide_eq_false_2 by done.
    split_and!; [done|lia| |]. { split; lia. }
    unfold baseFee, maxFee. f_equal. lia.
Qed.

Lemma return_effect_witness :
  ∃ t' s',
    (returnBook "trans1" "user1" (Some "FAIR") None 1708387200000
                1708387200000 seedStore).2 = s' ∧
    transactions s' !! 0%nat = Some t' ∧
    status t' = RETURNED ∧ lateFee t' = Num 300.
Proof.
  destruct (returnBook "trans1" "user1" (Some "FAIR") None 1708387200000
                       1708387200000 seedStore) as [r s'] eqn:Hrun.
  assert (∃ t' bs, r = ReturnedOk t' bs (Num 6)) as (t' & bs & ->).
  { vm_compute in Hrun. injection Hrun as <- _. by eexists _, _. }
  destruct (return_effect _ _ _ _ _ _ _ _ _ _ _ Hrun)
    as (i & t & Hfind & Htx & _ & Hst & _ & _ & _ & _ & _ & _ & _ & Hfee).
  vm_compute in Hfind. injection Hfind as <- <-.
  destruct (Hfee 1707868800000 eq_refl) as (days & Hd & _ & _ & Hfee').
  injection Hd as <-.
  exists t', s'. simpl. split_and!; [done| |done|done].
  rewrite Htx. reflexivity.
Defined.

(** ** Keys and owners *)

(** X11: the look-up and the ownership test come first in Return and
    Renew.  A key that no transaction carries is answered
    NotFound(Transaction); a transaction of another member is answered
    Forbidden, whatever its status, its due date or its renewalCount; in
    both cases the store is left as it was. *)
Theorem foreign_transaction_refused tid uid s :
  (findTransaction tid s = None →
   (∀ condition note now stamp,
      returnBook tid uid condition note now stamp s
      = (Failed NotFoundTransaction, s)) ∧
   (∀ now stamp, renew tid uid now stamp s
                 = (Failed NotFoundTransaction, s))) ∧
  (∀ i t, findTransaction tid s = Some (i, t) → userId t ≠ uid →
   (∀ condition note now stamp,
      returnBook tid uid condition note now stamp s
      = (Failed Forbidden, s)) ∧
   (∀ now stamp, renew tid uid now stamp s = (Failed Forbidden, s))).
Proof.
  split.
  - intros Hnone. unfold returnBook, renew. by rewrite Hnone.
  - intros i t Hfind Hne. unfold returnBook, renew. rewrite Hfind.
    by rewrite (bool_decide_eq_true_2 (userId t ≠ uid)).
Qed.

Lemma foreign_transaction_refused_witness :
  returnBook "trans2" "user1" None None 1706000000000 1706000000000
             seedStore = (Failed Forbidden, seedStore) ∧
  renew "trans9" "user1" 1706000000000 1706000000000 seedStore
  = (Failed NotFoundTransaction, seedStore).
Proof.
  destruct (foreign_transaction_refused "trans2" "user1" seedStore)
    as [_ Hforeign].
  destruct (foreign_transaction_refused "trans9" "user1" seedStore)
    as [Hmissing _].
  split.
  - apply (Hforeign 1%nat
             {| trans_id := "trans2"; userId := "user2"; bookId := "book2";
                borrowDate := DateMs 1704844800000;
                dueDate := DateMs 1706745600000;
                returnDate := Some (DateMs 1706572800000);
                status := RETURNED; lateFee := Num 0; renewalCount := 1;
                notes := None; createdAt := None; returnCondition := None;
                returnNotes := None; updatedAt := None |}); done.
  - apply Hmissing. reflexivity.
Defined.

(** X12: members do not touch each other's transactions.  A transaction
    is found unchanged, at the same index, after any sequence of requests
    none of which is made by its owner. *)
Theorem other_members_untouched reqs s i t :
  transactions s !! i = Some t →
  Forall (λ req, callerOf req ≠ userId t) reqs →
  transactions (run reqs s) !! i = Some t.
Proof.
  revert s. induction reqs as [|req reqs IH]; intros s Hi Hall; [done|].
  apply Forall_cons in Hall as [Hreq Hall]. simpl. apply IH; [|done].
  destruct (effect_transaction _ _ _ _ _ (handle_effect req s) Hi)
    as [?|(Howner & _)]; [done|]. by destruct Hreq.
Qed.

Lemma other_members_untouched_witness :
  ∃ t, transactions seedStore !! 0%nat = Some t ∧
       transactions
         (run [ Return "trans1" "user2" None None 1708387200000
                       1708387200000;
                Renew "trans1" "user2" 1706000000000 1706000000000;
                Borrow "user2" "book1" None 1706000000000 1706000000000 ]
              seedStore) !! 0%nat = Some t.
Proof.
  eexists. split; [reflexivity|].
  apply other_members_untouched; [reflexivity|].
  repeat (apply Forall_cons_2; [by vm_compute|]). apply Forall_nil_2.
Defined.

(** * The listing of transactions *)

(** ** Sorting *)

Section Sort.
Context {A : Type} (cmp : A → A → JsNum).

Lemma insertBy_Permutation x l : insertBy cmp x l ≡ₚ x :: l.
Proof.
  induction l as [|y l IH]; simpl; [done|].
  destruct (positive (cmp x y)); [|done].
  by rewrite IH, Permutation_swap.
Qed.

Lemma jsSort_Permutation l : jsSort cmp l ≡ₚ l.
Proof.
  induction l as [|x l IH]; [done|].
  change (jsSort cmp (x :: l)) with (insertBy cmp x (jsSort cmp l)).
  by rewrite insertBy_Permutation, IH.
Qed.

Lemma jsSort_length l : length (jsSort cmp l) = length l.
Proof. by rewrite jsSort_Permutation. Qed.

Lemma jsSort_elem_of x l : x ∈ jsSort cmp l ↔ x ∈ l.
Proof. by rewrite jsSort_Permutation. Qed.





End Sort.

(** ** Pages *)

Lemma slice_page {A} (l : list A) (start limit : Z) :
  0 ≤ start → 0 ≤ limit →
  slice l start (start + limit)
  = take (Z.to_nat limit) (drop (Z.to_nat start) l).
Proof.
  intros Hs Hl. unfold slice, sliceIndex.
  rewrite !bool_decide_eq_false_2 by lia.
  set (len := Z.of_nat (length l)).
  destruct (decide (len ≤ start)) as [Hge|Hlt].
  - rewrite !(drop_ge l) by (subst len; lia). by rewrite !take_nil.
  - rewrite (Z.min_l start len) by lia.
    destruct (decide (start + limit ≤ len)) as [Hin|Hout].
    + rewrite (Z.min_l (start + limit) len) by lia. do 2 f_equal. lia.
    + rewrite (Z.min_r (start + limit) len) by lia.
      rewrite !take_ge; [done|rewrite length_drop..]; subst len; lia.
Qed.

Lemma slice_subseteq {A} (l : list A) (from to : Z) : slice l from to ⊆ l.
Proof.
  unfold slice. etrans; [apply subseteq_take|apply subseteq_drop].
Qed.

(** The first [n] pages of [limit] entries make up the first [n * limit]
    entries. *)
Lemma pages_take {A} (l : list A) (limit : Z) (n : nat) :
  1 ≤ limit →
  concat ((λ page, slice l ((page - 1) * limit) ((page - 1) * limit + limit))
            <$> seqZ 1 (Z.of_nat n))
  = take (n * Z.to_nat limit) l.
Proof.
  intros Hl. induction n as [|n IH]; [done|].
  rewrite seqZ_S.
  rewrite fmap_app, concat_app, IH. simpl. rewrite app_nil_r.
  rewrite slice_page by lia.
  replace (Z.to_nat ((1 + Z.of_nat n - 1) * limit))
    with (n * Z.to_nat limit)%nat by lia.
  rewrite take_take_drop. f_equal. lia.
Qed.

(** ** What the listing shows *)

Lemma deriveOverdue_cases now t :
  (status t = BORROWED ∧ pastDue (dueDate t) now ∧
   deriveOverdue now t = withStatus t OVERDUE) ∨
  (¬ (status t = BORROWED ∧ pastDue (dueDate t) now) ∧
   deriveOverdue now t = t).
Proof.
  unfold deriveOverdue. case_bool_decide as H; [left|right]; [|done].
  by destruct H.
Qed.

Lemma deriveOverdue_userId now t : userId (deriveOverdue now t) = userId t.
Proof. by destruct (deriveOverdue_cases now t) as [(_&_&->)|(_&->)]. Qed.


Lemma filteredTransactions_elem_of caller q now s x :
  x ∈ filteredTransactions caller q now s →
  ∃ t, t ∈ transactions s ∧ x = deriveOverdue now t ∧
       (caller_role caller ≠ Some "ADMIN" → userId t = caller_id caller) ∧
       (∀ st, truthy (q_status q) = Some st → statusName (status t) = st).
Proof.
  unfold filteredTransactions. rewrite jsSort_elem_of.
  intros (t & -> & Ht)%list_elem_of_fmap. exists t.
  assert (∀ visible : list Transaction,
    t ∈ match truthy (q_status q) with
        | Some st => filter (λ t0, statusName (status t0) = st) visible
        | None => visible
        end →
    t ∈ visible ∧
    ∀ st, truthy (q_status q) = Some st → statusName (status t) = st)
    as Hstatus.
  { intros visible Hin. destruct (truthy (q_status q)) as [st|].
    - apply list_elem_of_filter in Hin as [? ?]. split; [done|].
      by intros ? [= <-].
    - split; [done|]. by intros. }
  apply Hstatus in Ht as [Ht Hst]. clear Hstatus.
  case_bool_decide as Hrole.
  - apply list_elem_of_filter in Ht as [? ?]. by split_and!.
  - split_and!; [|done| |done].
    + destruct (truthy (q_userId q));
        [by apply list_elem_of_filter in Ht as [_ ?]|done].
    + intros Hne. by destruct Hrole.
Qed.

Lemma listedTransactions_lookup caller q now clock s k item :
  listedTransactions (listTransactions caller q now clock s) !! k
    = Some item →
  item = enrich s (clock k) (item_transaction item) ∧
  item_transaction item ∈ filteredTransactions caller q now s.
Proof.
  unfold listTransactions. simpl.
  rewrite list_lookup_imap. intros Hk.
  apply fmap_Some in Hk as (t & Ht & ->). simpl. split; [done|].
  by eapply slice_subseteq, list_elem_of_lookup_2.
Qed.

(** X13: a caller who is not an administrator is shown own transactions
    only.  Every listed entry is a transaction of the store that belongs
    to the caller, with the status derived for the moment; a [userId] in
    the query changes nothing; and without a status filter the total is
    the number of the caller's transactions. *)
Theorem listing_shows_own_transactions caller q now clock s :
  caller_role caller ≠ Some "ADMIN" →
  (∀ item, item ∈ listedTransactions (listTransactions caller q now clock s) →
     userId (item_transaction item) = caller_id caller ∧
     ∃ t, t ∈ transactions s ∧ userId t = caller_id caller ∧
          item_transaction item = deriveOverdue now t) ∧
  (∀ other,
     listTransactions caller
       {| q_page := q_page q; q_limit := q_limit q; q_status := q_status q;
          q_userId := other; q_sortBy := q_sortBy q;
          q_sortOrder := q_sortOrder q |} now clock s
     = listTransactions caller q now clock s) ∧
  (truthy (q_status q) = None →
   totalTransactions (listTransactions caller q now clock s)
   = Z.of_nat (length (filter (λ t, userId t = caller_id caller)
                              (transactions s)))).
Proof.
  intros Hrole. split_and!.
  - intros item [k Hk]%list_elem_of_lookup.
    apply listedTransactions_lookup in Hk as [_ Hin].
    apply filteredTransactions_elem_of in Hin as (t & Ht & Heq & Hown & _).
    rewrite Heq, deriveOverdue_userId. split; [auto|].
    exists t. by split_and!; auto.
  - intros other. unfold listTransactions, filteredTransactions. simpl.
    by rewrite !(bool_decide_eq_true_2 (caller_role caller ≠ Some "ADMIN")).
  - intros Hst. unfold listTransactions, filteredTransactions. simpl.
    rewrite Hst, bool_decide_eq_true_2 by done.
    by rewrite jsSort_length, length_fmap.
Qed.

Lemma listing_shows_own_transactions_witness :
  Forall (λ item, userId (item_transaction item) = "user2")
    (listedTransactions
       (listTransactions
          {| caller_id := "user2"; caller_role := None |}
          {| q_page := None; q_limit := None; q_status := None;
             q_userId := Some "user1"; q_sortBy := None;
             q_sortOrder := None |}
          1708387200000 (λ _, 1708387200000) seedStore)).
Proof.
  destruct (listing_shows_own_transactions
              {| caller_id := "user2"; caller_role := None |}
              {| q_page := None; q_limit := None; q_status := None;
                 q_userId := Some "user1"; q_sortBy := None;
                 q_sortOrder := None |}
              1708387200000 (λ _, 1708387200000) seedStore)
    as (Hown & _ & _); [done|].
  apply Forall_forall. intros item Hitem.
  by destruct (Hown item Hitem) as [? _].
Defined.

Lemma validateQuery_Some q value :
  validateQuery q = Some value →
  value = {| q_page := Some (default 1 (q_page q));
             q_limit := Some (default 10 (q_limit q));
             q_status := None; q_userId := None;
             q_sortBy := q_sortBy q;
             q_sortOrder := Some (default "asc" (q_sortOrder q)) |} ∧
  1 ≤ default 1 (q_page q) ≤ maxSafeInteger ∧
  1 ≤ default 10 (q_limit q) ≤ 100 ∧
  (default "asc" (q_sortOrder q) = "asc" ∨
   default "asc" (q_sortOrder q) = "desc").
Proof.
  unfold validateQuery. case_bool_decide as Hok; [|done].
  intros [= <-]. by destruct Hok as (? & ? & ?).
Qed.

Lemma filteredTransactions_validated caller q value now s :
  validateQuery q = Some value →
  filteredTransactions caller value now s
  = jsSort (compareBy (default ByBorrowDate (q_sortBy q))
                      (default "asc" (q_sortOrder q)))
           (deriveOverdue now <$> visibleTo caller s).
Proof.
  intros [-> _]%validateQuery_Some.
  unfold filteredTransactions, visibleTo. simpl.
  by destruct (bool_decide (caller_role caller ≠ Some "ADMIN")).
Qed.

(** X14: the route of the listing drops the status and the userId of
    the request.  A request that passes the validation gets the reply
    it would get with any other status and userId, or none: the total
    is the number of transactions the caller may see (the caller's own,
    or all of them for an administrator), every listed entry is one of
    these with the status derived for the moment, and the sorted list
    the pages are cut from is a rearrangement of all of them.  So a
    loan past due is listed, as OVERDUE, whichever status the request
    names. *)
Theorem status_parameter_stripped caller q now clock s r :
  listRoute caller q now clock s = Some r →
  (∀ st uid,
     listRoute caller
       {| q_page := q_page q; q_limit := q_limit q; q_status := st;
          q_userId := uid; q_sortBy := q_sortBy q;
          q_sortOrder := q_sortOrder q |} now clock s = Some r) ∧
  totalTransactions r = Z.of_nat (length (visibleTo caller s)) ∧
  (∀ item, item ∈ listedTransactions r →
     ∃ t, t ∈ visibleTo caller s ∧
          item_transaction item = deriveOverdue now t) ∧
  (∃ value,
     validateQuery q = Some value ∧
     r = listTransactions caller value now clock s ∧
     filteredTransactions caller value now s
     ≡ₚ deriveOverdue now <$> visibleTo caller s).
Proof.
  unfold listRoute. intros Hr.
  apply fmap_Some in Hr as (value & Hvalue & ->).
  pose proof (filteredTransactions_validated caller q value now s Hvalue)
    as Hsorted.
  assert (filteredTransactions caller value now s
          ≡ₚ deriveOverdue now <$> visibleTo caller s) as Hperm
    by (rewrite Hsorted; apply jsSort_Permutation).
  split_and!.
  - intros st uid.
    assert (validateQuery
              {| q_page := q_page q; q_limit := q_limit q; q_status := st;
                 q_userId := uid; q_sortBy := q_sortBy q;
                 q_sortOrder := q_sortOrder q |} = validateQuery q) as ->
      by done.
    by rewrite Hvalue.
  - unfold listTransactions. simpl. by rewrite Hperm, length_fmap.
  - intros item [k Hk]%list_elem_of_lookup.
    apply listedTransactions_lookup in Hk as [_ Hin].
    rewrite Hperm in Hin.
    apply list_elem_of_fmap in Hin as (t & -> & Ht). by exists t.
  - by exists value.
Qed.

Lemma status_parameter_stripped_witness :
  ∃ r,
    listRoute {| caller_id := "user1"; caller_role := None |}
      {| q_page := None; q_limit := None; q_status := Some "RETURNED";
         q_userId := Some "user2"; q_sortBy := None; q_sortOrder := None |}
      1708387200000 (λ _, 1708387200000) seedStore = Some r ∧
    totalTransactions r = 1 ∧
    (λ item, (trans_id (item_transaction item),
              status (item_transaction item))) <$> listedTransactions r
    = [("trans1", OVERDUE)].
Proof.
  eexists. split; [reflexivity|]. split.
  - exact (proj1 (proj2
      (status_parameter_stripped
         {| caller_id := "user1"; caller_role := None |}
         {| q_page := None; q_limit := None; q_status := Some "RETURNED";
            q_userId := Some "user2"; q_sortBy := None;
            q_sortOrder := None |}
         1708387200000 (λ _, 1708387200000) seedStore _ eq_refl))).
  - vm_compute. reflexivity.
Defined.

(** X15: the days overdue of a listed loan.  In a store that holds no
    OVERDUE status, an entry shown as BORROWED is not past due at the
    moment of the request and has daysOverdue 0; an entry shown as
    OVERDUE is past its valid due date, and, when it has no return date
    and the clock does not run backwards, its daysOverdue is the number
    of days from the due date to the clock reading, rounded up, at
    least 1. *)
Theorem listing_days_overdue caller q now clock s k item :
  storedStatuses s →
  listedTransactions (listTransactions caller q now clock s) !! k
    = Some item →
  (status (item_transaction item) = BORROWED →
   ¬ pastDue (dueDate (item_transaction item)) now ∧
   item_daysOverdue item = Num 0) ∧
  (status (item_transaction item) = OVERDUE →
   ∃ due, dueDate (item_transaction item) = DateMs due ∧ due < now ∧
          (returnDate (item_transaction item) = None → now ≤ clock k →
           ∃ days, item_daysOverdue item = Num days ∧ 1 ≤ days ∧
                   (days - 1) * msPerDay < clock k - due ≤ days * msPerDay)).
Proof.
  intros Hstored Hk.
  apply listedTransactions_lookup in Hk as [Hitem Hin].
  apply filteredTransactions_elem_of in Hin as (t & Ht & Heq & _ & _).
  unfold storedStatuses in Hstored. rewrite Forall_forall in Hstored.
  specialize (Hstored t Ht).
  rewrite Hitem. simpl. rewrite Heq.
  destruct (deriveOverdue_cases now t) as [(Hb & Hpast & ->)|(Hnot & ->)];
    simpl.
  - split; [done|]. intros _.
    destruct (dueDate t) as [due|] eqn:Hdue; [|done]. simpl in Hpast.
    exists due. split_and!; [done..|]. intros -> Hclock. simpl.
    exists (ceilDiv (clock k - due) msPerDay).
    pose proof (ceilDiv_bounds (clock k - due) msPerDay msPerDay_pos).
    pose proof (ceilDiv_pos (clock k - due) msPerDay msPerDay_pos
                  ltac:(lia)).
    split_and!; [f_equal|..]; lia.
  - split; [|done]. intros Hb.
    rewrite bool_decide_eq_false_2 by (rewrite Hb; by intros [?|?]).
    split; [|done]. intros Hpast. by destruct Hnot.
Qed.

Lemma listing_days_overdue_witness :
  ∃ item days,
    listedTransactions
      (listTransactions
         {| caller_id := "user1"; caller_role := None |}
         {| q_page := None; q_limit := None; q_status := None;
            q_userId := None; q_sortBy := None; q_sortOrder := None |}
         1708387200000 (λ _, 1708387200001) seedStore) !! 0%nat
      = Some item ∧
    status (item_transaction item) = OVERDUE ∧
    item_daysOverdue item = Num days ∧ 1 ≤ days.
Proof.
  pose proof (listing_days_overdue
                {| caller_id := "user1"; caller_role := None |}
                {| q_page := None; q_limit := None; q_status := None;
                   q_userId := None; q_sortBy := None; q_sortOrder := None |}
                1708387200000 (λ _, 1708387200001) seedStore 0%nat) as Hdays.
  eexists _, _. split; [vm_compute; reflexivity|].
  edestruct Hdays as [_ Hover].
  - unfold storedStatuses. cbn [seedStore transactions].
    unfold seedTransactions.
    repeat (apply Forall_cons_2; [by vm_compute|]). apply Forall_nil_2.
  - vm_compute. reflexivity.
  - split; [reflexivity|]. split; [reflexivity|]. vm_compute. by intros.
Defined.

(** ** Pagination *)

Lemma item_transaction_imap s (clock : nat → Z) (l : list Transaction) :
  item_transaction <$> imap (λ k t, enrich s (clock k) t) l = l.
Proof.
  rewrite fmap_imap.
  rewrite (imap_ext _ (const id)) by done.
  by rewrite imap_const, list_fmap_id.
Qed.

(** X16: the pages of a listing.  For a limit of at least 1,
    [totalPages] is the least number of pages of that size that hold all
    the filtered transactions; a page from 1 on holds at most [limit]
    entries and none beyond the last page; [hasNextPage] tells exactly
    whether entries remain after the page; and the pages 1 to
    [totalPages], one after the other, are the filtered transactions in
    their order, each once. *)
Theorem listing_pages caller q now clock s :
  1 ≤ default 10 (q_limit q) →
  let limit := default 10 (q_limit q) in
  let all := filteredTransactions caller q now s in
  let total := Z.of_nat (length all) in
  let pages := totalPages (listTransactions caller q now clock s) in
  totalTransactions (listTransactions caller q now clock s) = total ∧
  (pages - 1) * limit < total ≤ pages * limit ∧
  (∀ page, 1 ≤ page →
     let reply := listTransactions caller (atPage q page) now clock s in
     Z.of_nat (length (listedTransactions reply)) ≤ limit ∧
     (pages < page → listedTransactions reply = []) ∧
     (hasNextPage reply = true ↔ page * limit < total) ∧
     (hasPrevPage reply = true ↔ 1 < page)) ∧
  concat ((λ page,
            item_transaction <$>
              listedTransactions
                (listTransactions caller (atPage q page) now clock s))
          <$> seqZ 1 pages) = all.
Proof.
  intros Hlimit. cbv zeta.
  set (limit := default 10 (q_limit q)) in *.
  set (all := filteredTransactions caller q now s).
  assert (totalPages (listTransactions caller q now clock s)
          = ceilDiv (Z.of_nat (length all)) limit) as Hpages by done.
  rewrite Hpages.
  pose proof (ceilDiv_bounds (Z.of_nat (length all)) limit ltac:(lia))
    as Hceil.
  set (pages := ceilDiv (Z.of_nat (length all)) limit) in *.
  assert (∀ page,
    listedTransactions (listTransactions caller (atPage q page) now clock s)
    = imap (λ k t, enrich s (clock k) t)
           (slice all ((page - 1) * limit) ((page - 1) * limit + limit)))
    as Hpage by done.
  assert (0 ≤ pages) as Hnonneg by nia.
  split_and!; [done|lia|lia| |].
  - intros page Hp. cbv zeta. rewrite Hpage, length_imap.
    assert (0 ≤ (page - 1) * limit) as Hstart by nia.
    rewrite slice_page by lia. split_and!.
    + rewrite length_take. lia.
    + intros Hbeyond.
      assert (pages * limit ≤ (page - 1) * limit) by nia.
      rewrite drop_ge by lia. by rewrite take_nil.
    + unfold listTransactions. simpl.
      change (filteredTransactions caller (atPage q page) now s) with all.
      fold limit. fold pages.
      rewrite bool_decide_eq_true. split; intros Hlt.
      * assert (page * limit ≤ (pages - 1) * limit) by nia. lia.
      * destruct (decide (page < pages)) as [|Hge]; [done|].
        assert (pages * limit ≤ page * limit) by nia. lia.
    + unfold listTransactions. simpl. by rewrite bool_decide_eq_true.
  - assert (Z.to_nat pages * Z.to_nat limit
            = Z.to_nat (pages * limit))%nat as Hmul
      by (rewrite Z2Nat.inj_mul; lia).
    etrans; [|apply (take_ge all (Z.to_nat pages * Z.to_nat limit)); lia].
    rewrite <-(pages_take all limit (Z.to_nat pages)) by done.
    rewrite Z2Nat.id by lia. f_equal.
    apply list_fmap_ext. intros _ page _.
    by rewrite Hpage, item_transaction_imap.
Qed.

Lemma listing_pages_witness :
  totalPages
    (listTransactions
       {| caller_id := "user1"; caller_role := Some "ADMIN" |}
       {| q_page := None; q_limit := Some 1; q_status := None;
          q_userId := None; q_sortBy := None; q_sortOrder := None |}
       1708387200000 (λ _, 1708387200000) seedStore) = 2 ∧
  listedTransactions
    (listTransactions
       {| caller_id := "user1"; caller_role := Some "ADMIN" |}
       (atPage {| q_page := None; q_limit := Some 1; q_status := None;
                  q_userId := None; q_sortBy := None;
                  q_sortOrder := None |} 3)
       1708387200000 (λ _, 1708387200000) seedStore) = [].
Proof.
  destruct (listing_pages
              {| caller_id := "user1"; caller_role := Some "ADMIN" |}
              {| q_page := None; q_limit := Some 1; q_status := None;
                 q_userId := None; q_sortBy := None; q_sortOrder := None |}
              1708387200000 (λ _, 1708387200000) seedStore)
    as (_ & _ & Hpage & _); [simpl; lia|].
  split; [reflexivity|].
  apply (Hpage 3); [lia|]. vm_compute. reflexivity.
Defined.

(** ** Order *)




(** * The transaction model *)

Lemma model_daysOverdue_open today d due :
  TransactionModel.status d ≠ RETURNED →
  TransactionModel.dueDate d = Some due →
  Num (TransactionModel.daysOverdue today d)
  = daysOverdueOf (DateMs due) (DateMs today).
Proof.
  intros Hst Hdue. unfold TransactionModel.daysOverdue.
  by rewrite bool_decide_eq_false_2, Hdue.
Qed.

Lemma model_daysOverdue_pos today d :
  0 < TransactionModel.daysOverdue today d ↔
  TransactionModel.status d ≠ RETURNED ∧
  ∃ due, TransactionModel.dueDate d = Some due ∧ due < today.
Proof.
  unfold TransactionModel.daysOverdue. case_bool_decide as Hst.
  - split; [lia|]. by intros [? _].
  - destruct (TransactionModel.dueDate d) as [due|].
    + destruct (decide (due < today)) as [Hlate|Hok].
      * pose proof (ceilDiv_pos (today - due) msPerDay msPerDay_pos
                      ltac:(lia)).
        split; [|lia]. intros _. split; [done|]. by exists due.
      * pose proof (ceilDiv_nonpos (today - due) msPerDay msPerDay_pos
                      ltac:(lia)).
        split; [lia|]. intros (_ & due' & [= <-] & ?). lia.
    + split; [lia|]. by intros (_ & due' & ? & _).
Qed.

Lemma model_fee_open today d due :
  TransactionModel.status d ≠ RETURNED →
  TransactionModel.dueDate d = Some due →
  Num (TransactionModel.calculateLateFee today d)
  = calculateLateFee (DateMs due) (DateMs today).
Proof.
  intros Hst Hdue.
  unfold TransactionModel.calculateLateFee, TransactionModel.daysOverdue.
  rewrite (bool_decide_eq_false_2 _ Hst), Hdue. simpl.
  destruct (decide (today ≤ due)) as [Hle|Hgt].
  - pose proof (ceilDiv_nonpos (today - due) msPerDay msPerDay_pos
                  ltac:(lia)).
    rewrite (bool_decide_eq_true_2 (today ≤ due)) by done.
    by rewrite bool_decide_eq_true_2 by lia.
  - pose proof (ceilDiv_pos (today - due) msPerDay msPerDay_pos ltac:(lia)).
    rewrite (bool_decide_eq_false_2 (today ≤ due)) by done.
    rewrite bool_decide_eq_false_2 by lia. do 2 f_equal. lia.
Qed.

Lemma model_fee_zero today d :
  TransactionModel.status d = RETURNED ∨ TransactionModel.dueDate d = None →
  TransactionModel.calculateLateFee today d = 0.
Proof.
  intros Hd.
  unfold TransactionModel.calculateLateFee, TransactionModel.daysOverdue.
  destruct Hd as [Hst|Hdue].
  - by rewrite (bool_decide_eq_true_2 _ Hst).
  - rewrite Hdue.
    by destruct (bool_decide (TransactionModel.status d = RETURNED)).
Qed.

(** X18: the late fee of the model against the late fee of the router.
    For a document that is not RETURNED and has a due date, the method
    [calculateLateFee] of the model gives what the router's
    [calculateLateFee(dueDate, today)] gives.  Without a due date the
    method gives 0.  For a RETURNED document it gives 0 whatever the
    dates are, so the save hook replaces the late fee stored at the
    return by 0 and leaves the status RETURNED. *)
Theorem model_late_fee today1 today2 d :
  (TransactionModel.status d ≠ RETURNED →
   ∀ due, TransactionModel.dueDate d = Some due →
     Num (TransactionModel.calculateLateFee today2 d)
     = calculateLateFee (DateMs due) (DateMs today2)) ∧
  (TransactionModel.dueDate d = None →
   TransactionModel.daysOverdue today2 d = 0 ∧
   TransactionModel.calculateLateFee today2 d = 0) ∧
  (TransactionModel.status d = RETURNED →
   TransactionModel.daysOverdue today2 d = 0 ∧
   TransactionModel.calculateLateFee today2 d = 0 ∧
   TransactionModel.lateFee (TransactionModel.preSave today1 today2 d) = 0 ∧
   TransactionModel.status (TransactionModel.preSave today1 today2 d)
   = RETURNED).
Proof.
  split_and!.
  - intros Hst due Hdue. by apply model_fee_open.
  - intros Hdue. split; [|by apply model_fee_zero; right].
    unfold TransactionModel.daysOverdue. rewrite Hdue.
    by destruct (bool_decide (TransactionModel.status d = RETURNED)).
  - intros Hst.
    assert (TransactionModel.calculateLateFee today2 d = 0) as Hfee
      by (by apply model_fee_zero; left).
    split_and!; [|done| |].
    + unfold TransactionModel.daysOverdue.
      by rewrite (bool_decide_eq_true_2 _ Hst).
    + unfold TransactionModel.preSave, TransactionModel.isOverdue.
      rewrite (bool_decide_eq_false_2 (TransactionModel.status d = BORROWED))
        by (rewrite Hst; done).
      rewrite andb_false_r. cbn [andb].
      rewrite bool_decide_eq_true_2 by (by right). simpl. by rewrite Hfee.
    + unfold TransactionModel.preSave, TransactionModel.isOverdue.
      rewrite (bool_decide_eq_false_2 (TransactionModel.status d = BORROWED))
        by (rewrite Hst; done).
      rewrite andb_false_r. cbn [andb].
      by rewrite bool_decide_eq_true_2 by (by right).
Qed.

Lemma model_late_fee_witness :
  TransactionModel.lateFee
    (TransactionModel.preSave 1708400000000 1708400000000
       (TransactionModel.mkDocument "user1" "book1" 1705276800000
          (Some 1707868800000) (Some 1708387200000) RETURNED 300 0 None))
  = 0 ∧
  calculateLateFee (DateMs 1707868800000) (DateMs 1708387200000) = Num 300 ∧
  Num (TransactionModel.calculateLateFee 1708387200000
         (TransactionModel.mkDocument "user1" "book1" 1705276800000
            (Some 1707868800000) None BORROWED 0 0 None))
  = calculateLateFee (DateMs 1707868800000) (DateMs 1708387200000).
Proof.
  split_and!.
  - by apply (model_late_fee 1708400000000 1708400000000).
  - reflexivity.
  - by apply (model_late_fee 1708387200000 1708387200000).
Defined.

(** X19: what the save hook does to the status.  A BORROWED document
    becomes OVERDUE exactly when it has a due date before the first
    clock reading, and then carries the router's late fee for the
    second reading; otherwise (not past due, or no due date) it is left
    as it is.  The hook never changes a status other than BORROWED,
    never changes any field but status and lateFee, and saving twice
    with the same readings is saving once. *)
Theorem model_save_hook today1 today2 d :
  (∀ due, TransactionModel.status d = BORROWED →
          TransactionModel.dueDate d = Some due →
     (due < today1 →
      TransactionModel.status (TransactionModel.preSave today1 today2 d)
      = OVERDUE ∧
      Num (TransactionModel.lateFee
             (TransactionModel.preSave today1 today2 d))
      = calculateLateFee (DateMs due) (DateMs today2)) ∧
     (today1 ≤ due → TransactionModel.preSave today1 today2 d = d)) ∧
  (TransactionModel.status d = BORROWED →
   TransactionModel.dueDate d = None →
   TransactionModel.preSave today1 today2 d = d) ∧
  (TransactionModel.status d ≠ BORROWED →
   TransactionModel.status (TransactionModel.preSave today1 today2 d)
   = TransactionModel.status d) ∧
  TransactionModel.setLateFee
    (TransactionModel.setStatus (TransactionModel.preSave today1 today2 d)
       (TransactionModel.status d))
    (TransactionModel.lateFee d) = d ∧
  TransactionModel.preSave today1 today2
    (TransactionModel.preSave today1 today2 d)
  = TransactionModel.preSave today1 today2 d.
Proof.
  assert (∀ d0, TransactionModel.status d0 ≠ BORROWED →
            TransactionModel.preSave today1 today2 d0
            = if bool_decide (TransactionModel.status d0 = OVERDUE ∨
                              TransactionModel.status d0 = RETURNED)
              then TransactionModel.setLateFee d0
                     (TransactionModel.calculateLateFee today2 d0)
              else d0) as Hclosed.
  { intros d0 Hst. unfold TransactionModel.preSave,
      TransactionModel.isOverdue.
    rewrite (bool_decide_eq_false_2 (TransactionModel.status d0 = BORROWED))
      by done.
    by rewrite andb_false_r. }
  assert (∀ d0, TransactionModel.status d0 = BORROWED →
            TransactionModel.preSave today1 today2 d0
            = if bool_decide (0 < TransactionModel.daysOverdue today1 d0)
              then TransactionModel.setLateFee
                     (TransactionModel.setStatus d0 OVERDUE)
                     (TransactionModel.calculateLateFee today2
                        (TransactionModel.setStatus d0 OVERDUE))
              else d0) as Hopen.
  { intros d0 Hst. unfold TransactionModel.preSave,
      TransactionModel.isOverdue.
    rewrite (bool_decide_eq_true_2 (TransactionModel.status d0 = BORROWED))
      by done.
    rewrite !andb_true_r.
    destruct (bool_decide (0 < TransactionModel.daysOverdue today1 d0)).
    - by rewrite bool_decide_eq_true_2 by (by left).
    - rewrite bool_decide_eq_false_2; [done|]. rewrite Hst.
      by intros [?|?]. }
  split_and!.
  - intros due Hst Hdue. rewrite (Hopen d Hst). split.
    + intros Hlate. rewrite bool_decide_eq_true_2.
      * split; [done|]. by apply model_fee_open.
      * apply model_daysOverdue_pos. rewrite Hst. split; [done|].
        by exists due.
    + intros Hok. rewrite bool_decide_eq_false_2; [done|].
      intros (_ & due' & Hdue' & Hlate)%model_daysOverdue_pos.
      rewrite Hdue in Hdue'. injection Hdue' as <-. lia.
  - intros Hst Hdue. rewrite (Hopen d Hst).
    rewrite bool_decide_eq_false_2; [done|].
    intros (_ & due' & Hdue' & _)%model_daysOverdue_pos.
    by rewrite Hdue in Hdue'.
  - intros Hst. rewrite (Hclosed d Hst). by case_bool_decide.
  - destruct (decide (TransactionModel.status d = BORROWED)) as [Hst|Hst].
    + rewrite (Hopen d Hst). case_bool_decide; by destruct d.
    + rewrite (Hclosed d Hst). case_bool_decide; by destruct d.
  - destruct (decide (TransactionModel.status d = BORROWED)) as [Hst|Hst].
    + rewrite (Hopen d Hst). case_bool_decide as Hpos.
      * rewrite Hclosed by done.
        rewrite bool_decide_eq_true_2 by (by left).
        by destruct d.
      * rewrite (Hopen d Hst). by rewrite bool_decide_eq_false_2.
    + rewrite (Hclosed d Hst). case_bool_decide as Hcase.
      * rewrite Hclosed by done.
        rewrite bool_decide_eq_true_2 by done.
        by destruct d.
      * rewrite (Hclosed d Hst). by rewrite bool_decide_eq_false_2.
Qed.

Lemma model_save_hook_witness :
  TransactionModel.status
    (TransactionModel.preSave 1708387200000 1708387200000
       (TransactionModel.mkDocument "user1" "book1" 1705276800000
          (Some 1707868800000) None BORROWED 0 0 None)) = OVERDUE ∧
  TransactionModel.lateFee
    (TransactionModel.preSave 1708387200000 1708387200000
       (TransactionModel.mkDocument "user1" "book1" 1705276800000
          (Some 1707868800000) None BORROWED 0 0 None)) = 300.
Proof.
  destruct (model_save_hook 1708387200000 1708387200000
              (TransactionModel.mkDocument "user1" "book1" 1705276800000
                 (Some 1707868800000) None BORROWED 0 0 None))
    as (Hopen & _).
  destruct (Hopen 1707868800000 eq_refl eq_refl) as [Hlate _].
  destruct Hlate as [Hst Hfee]; [lia|]. split; [exact Hst|].
  exact (f_equal (λ fee, match fee with Num z => z | NaN => 0 end) Hfee).
Defined.

(** * The books router *)

Lemma book_key_inj (i j : nat) :
  "book" +:+ pretty (i + 1)%nat = "book" +:+ pretty (j + 1)%nat → i = j.
Proof.
  intros Heq. apply (inj (String.append "book")) in Heq.
  apply (inj pretty) in Heq. lia.
Qed.

Lemma books_idsByPosition_NoDup books :
  BooksRouter.idsByPosition books → NoDup (BooksRouter.book_id <$> books).
Proof.
  intros Hids. apply NoDup_alt. intros i j x Hi Hj.
  rewrite list_lookup_fmap in Hi, Hj.
  destruct (books !! i) as [bi|] eqn:Hbi; [|done].
  destruct (books !! j) as [bj|] eqn:Hbj; [|done].
  simpl in *. simplify_eq.
  apply book_key_inj. by rewrite <-(Hids _ _ Hbi), <-(Hids _ _ Hbj).
Qed.

Lemma books_idsByPosition_find books i b :
  BooksRouter.idsByPosition books → books !! i = Some b →
  BooksRouter.findById (BooksRouter.book_id b) books = Some (i, b).
Proof.
  intros Hids Hi. apply list_find_Some. split_and!; [done..|].
  intros j y Hj Hlt Heq.
  rewrite (Hids _ _ Hi), (Hids _ _ Hj) in Heq.
  apply book_key_inj in Heq. lia.
Qed.

Lemma NoDup_insert_fresh {A} (l : list A) (i : nat) (x : A) :
  NoDup l →
  (∀ j y, l !! j = Some y → j ≠ i → y ≠ x) →
  NoDup (<[i:=x]> l).
Proof.
  intros Hl Hfresh. apply NoDup_alt. intros j k y Hj Hk.
  destruct (decide (j = i)) as [->|Hji], (decide (k = i)) as [->|Hki];
    [done|..].
  - rewrite list_lookup_insert_ne in Hk by done.
    apply list_lookup_insert_Some in Hj as [(_ & <- & _)|[? _]]; [|done].
    by destruct (Hfresh _ _ Hk Hki).
  - rewrite list_lookup_insert_ne in Hj by done.
    apply list_lookup_insert_Some in Hk as [(_ & <- & _)|[? _]]; [|done].
    by destruct (Hfresh _ _ Hj Hji).
  - rewrite list_lookup_insert_ne in Hj, Hk by done.
    by eapply (proj1 (NoDup_alt l)).
Qed.

Lemma createBook_cases body now1 now2 books :
  (BooksRouter.createBook body now1 now2 books = (BooksRouter.Conflict, books)
   ∧ BooksRouter.c_ISBN body ∈ BooksRouter.ISBN <$> books) ∨
  (BooksRouter.createBook body now1 now2 books
   = (BooksRouter.Created (BooksRouter.newBook books body now1 now2),
      books ++ [BooksRouter.newBook books body now1 now2])
   ∧ BooksRouter.c_ISBN body ∉ BooksRouter.ISBN <$> books).
Proof.
  unfold BooksRouter.createBook.
  destruct (list_find _ books) as [[i b]|] eqn:Hfind.
  - left. split; [done|].
    apply list_find_Some in Hfind as (Hi & <- & _).
    apply list_elem_of_fmap. exists b. split; [done|].
    by eapply list_elem_of_lookup_2.
  - right. split; [done|].
    intros (b & Hb & Hin)%list_elem_of_fmap.
    apply list_find_None in Hfind.
    by eapply (proj1 (Forall_forall _ _) Hfind b).
Qed.

Lemma updateBook_cases id body now books :
  (BooksRouter.findById id books = None ∧
   BooksRouter.updateBook id body now books = (BooksRouter.NotFound, books)) ∨
  (∃ i b, BooksRouter.findById id books = Some (i, b) ∧
     BooksRouter.isbnTaken id body books = true ∧
     BooksRouter.updateBook id body now books
     = (BooksRouter.Conflict, books)) ∨
  (∃ i b, BooksRouter.findById id books = Some (i, b) ∧
     BooksRouter.isbnTaken id body books = false ∧
     BooksRouter.updateBook id body now books
     = (BooksRouter.Updated (BooksRouter.updatedBook b body now),
        <[i:=BooksRouter.updatedBook b body now]> books)).
Proof.
  unfold BooksRouter.updateBook.
  destruct (BooksRouter.findById id books) as [[i b]|]; [|by left].
  right. destruct (BooksRouter.isbnTaken id body books) eqn:Htaken.
  - left. by exists i, b.
  - right. by exists i, b.
Qed.

Lemma isbnTaken_false id body books isbn :
  BooksRouter.isbnTaken id body books = false →
  BooksRouter.u_ISBN body = Some isbn → isbn ≠ "" →
  ∀ b, b ∈ books → BooksRouter.ISBN b = isbn → BooksRouter.book_id b = id.
Proof.
  unfold BooksRouter.isbnTaken. intros Htaken Hbody Hne b Hb Hisbn.
  rewrite Hbody in Htaken.
  rewrite bool_decide_eq_false_2 in Htaken by done.
  apply bool_decide_eq_false in Htaken.
  destruct (list_find _ books) as [p|] eqn:Hfind; [by destruct Htaken|].
  apply list_find_None in Hfind.
  pose proof (proj1 (Forall_forall _ _) Hfind b Hb) as Hnot. simpl in Hnot.
  destruct (decide (BooksRouter.book_id b = id)); [done|].
  by destruct Hnot.
Qed.

Lemma handle_uniqueISBN req books :
  NoDup (BooksRouter.book_id <$> books) →
  BooksRouter.uniqueISBN books →
  (∀ id body now, req = BooksRouter.Update id body now →
     BooksRouter.u_ISBN body ≠ Some "") →
  BooksRouter.uniqueISBN (BooksRouter.handle req books).2.
Proof.
  unfold BooksRouter.uniqueISBN. intros Hids Hisbn Hbody.
  destruct req as [body now1 now2|id body now|id]; simpl.
  - destruct (createBook_cases body now1 now2 books)
      as [[-> _]|[-> Hfresh]]; [done|]. simpl.
    rewrite fmap_app. apply NoDup_app. split_and!; [done| |].
    + intros x Hx. simpl. rewrite list_elem_of_singleton. by intros ->.
    + apply NoDup_singleton.
  - destruct (updateBook_cases id body now books)
      as [[_ ->]|[(i & b & _ & _ & ->)|(i & b & Hfind & Htaken & ->)]];
      [done..|]. simpl.
    rewrite list_fmap_insert.
    apply list_find_Some in Hfind as (Hi & Hid & _).
    destruct (BooksRouter.u_ISBN body) as [isbn|] eqn:Hbodyisbn.
    + assert (isbn ≠ "") as Hne.
      { intros ->. by eapply Hbody. }
      assert (BooksRouter.ISBN (BooksRouter.updatedBook b body now) = isbn)
        as -> by (simpl; by rewrite Hbodyisbn).
      apply NoDup_insert_fresh; [done|].
      intros j y Hj Hji Hy. rewrite list_lookup_fmap in Hj.
      destruct (books !! j) as [bj|] eqn:Hbj; [|done].
      injection Hj as Hj. rewrite Hy in Hj.
      pose proof (isbnTaken_false _ _ _ _ Htaken Hbodyisbn Hne bj
                    ltac:(by eapply list_elem_of_lookup_2) Hj) as Hsame.
      apply Hji. apply (proj1 (NoDup_alt _) Hids j i id).
      * by rewrite list_lookup_fmap, Hbj; simpl; rewrite Hsame.
      * by rewrite list_lookup_fmap, Hi; simpl; rewrite Hid.
    + assert (BooksRouter.ISBN (BooksRouter.updatedBook b body now)
              = BooksRouter.ISBN b) as -> by (simpl; by rewrite Hbodyisbn).
      rewrite list_insert_id; [done|].
      by rewrite list_lookup_fmap, Hi.
  - unfold BooksRouter.deleteBook.
    destruct (BooksRouter.findById id books) as [[i b]|]; [|done]. simpl.
    rewrite list_fmap_delete.
    eapply sublist_NoDup; [done|apply sublist_delete].
Qed.

Lemma handle_idsByPosition req books :
  BooksRouter.keeps req → BooksRouter.idsByPosition books →
  BooksRouter.idsByPosition (BooksRouter.handle req books).2.
Proof.
  intros Hkeeps Hids.
  destruct req as [body now1 now2|id body now|id]; simpl; [| |done].
  - destruct (createBook_cases body now1 now2 books)
      as [[-> _]|[-> _]]; [done|]. simpl.
    intros i b [Hi|[Hlen Hb]]%lookup_app_Some; [by apply Hids|].
    apply list_lookup_singleton_Some in Hb as [Hzero <-]. simpl.
    do 3 f_equal. lia.
  - destruct (updateBook_cases id body now books)
      as [[_ ->]|[(i & b & _ & _ & ->)|(i & b & Hfind & _ & ->)]];
      [done..|]. simpl.
    apply list_find_Some in Hfind as (Hi & _ & _).
    intros j y [(-> & <- & _)|[Hne Hj]]%list_lookup_insert_Some.
    + simpl. by apply Hids.
    + by apply Hids.
Qed.

(** X20: one request and the uniqueness of ISBNs.  In a catalogue whose
    books have distinct keys and distinct ISBNs, no creation, update or
    deletion leaves two books with one ISBN, provided an update carries
    no empty ISBN (the update handler skips its test for one). *)
Theorem isbn_unique_step req books :
  NoDup (BooksRouter.book_id <$> books) →
  BooksRouter.uniqueISBN books →
  (∀ id body now, req = BooksRouter.Update id body now →
     BooksRouter.u_ISBN body ≠ Some "") →
  BooksRouter.uniqueISBN (BooksRouter.handle req books).2.
Proof. apply handle_uniqueISBN. Qed.

Lemma isbn_unique_step_witness :
  BooksRouter.uniqueISBN
    (BooksRouter.handle
       (BooksRouter.Update "book2"
          (BooksRouter.mkUpdateBody None None (Some "978-1-4028-9462-6")
             None None None None None None None None) 1708387200000)
       BooksRouter.seedBooks).2.
Proof.
  apply isbn_unique_step.
  - vm_compute. apply (bool_decide_unpack _). vm_compute. reflexivity.
  - unfold BooksRouter.uniqueISBN.
    apply (bool_decide_unpack _). vm_compute. reflexivity.
  - intros id body now [= _ <- _]. simpl. discriminate.
Defined.

(** X21: a catalogue that loses no book.  From a catalogue whose books
    have the keys their positions give and distinct ISBNs, any sequence
    of creations and updates (no update with an empty ISBN) leads to a
    catalogue with the same two properties, and no shorter. *)
Theorem catalogue_without_delete reqs books :
  Forall BooksRouter.keeps reqs →
  BooksRouter.idsByPosition books →
  BooksRouter.uniqueISBN books →
  BooksRouter.idsByPosition (BooksRouter.run reqs books) ∧
  BooksRouter.uniqueISBN (BooksRouter.run reqs books) ∧
  (length books ≤ length (BooksRouter.run reqs books))%nat.
Proof.
  intros Hreqs. revert books.
  induction Hreqs as [|req reqs Hreq _ IH]; intros books Hids Hisbn;
    [done|].
  change (BooksRouter.run (req :: reqs) books)
    with (BooksRouter.run reqs (BooksRouter.handle req books).2).
  assert (length books ≤ length (BooksRouter.handle req books).2)%nat
    as Hlen.
  { destruct req as [body now1 now2|id body now|id]; simpl; [| |done].
    - destruct (createBook_cases body now1 now2 books)
        as [[-> _]|[-> _]]; [done|]. simpl. rewrite length_app. lia.
    - destruct (updateBook_cases id body now books)
        as [[_ ->]|[(i & b & _ & _ & ->)|(i & b & _ & _ & ->)]];
        [done..|]. simpl. by rewrite length_insert. }
  destruct (IH (BooksRouter.handle req books).2) as (? & ? & ?).
  - by apply handle_idsByPosition.
  - apply handle_uniqueISBN; [by apply books_idsByPosition_NoDup|done|].
    intros id body now ->. exact Hreq.
  - split_and!; [done..|lia].
Qed.

Lemma seedBooks_idsByPosition : BooksRouter.idsByPosition BooksRouter.seedBooks.
Proof.
  intros i b Hi.
  destruct i as [|[|[|i]]]; simpl in Hi; simplify_eq; reflexivity.
Qed.

Lemma seedBooks_uniqueISBN : BooksRouter.uniqueISBN BooksRouter.seedBooks.
Proof.
  unfold BooksRouter.uniqueISBN.
  apply (bool_decide_unpack _). vm_compute. reflexivity.
Qed.

Lemma catalogue_without_delete_witness :
  ∃ books,
    books = BooksRouter.run
              [ BooksRouter.Create
                  (BooksRouter.mkCreateBody "Dune" "Frank Herbert"
                     "978-0-441-17271-9" "Fiction" 1965 2 None None None
                     "English" None) 1708387200000 1708387200000;
                BooksRouter.Update "book4"
                  (BooksRouter.mkUpdateBody None None
                     (Some "978-0-7432-7356-5") None None None None None
                     None None None) 1708387200001;
                BooksRouter.Update "book4"
                  (BooksRouter.mkUpdateBody None None None None None None
                     (Some 0) None None None None) 1708387200002 ]
              BooksRouter.seedBooks ∧
    length books = 4%nat ∧
    BooksRouter.idsByPosition books ∧ BooksRouter.uniqueISBN books.
Proof.
  eexists. split; [reflexivity|]. split; [vm_compute; reflexivity|].
  refine (let H := catalogue_without_delete _ BooksRouter.seedBooks _
                     seedBooks_idsByPosition seedBooks_uniqueISBN in
          conj (proj1 H) (proj1 (proj2 H))).
  repeat constructor; simpl; discriminate.
Defined.

Lemma findById_Some id books i b :
  BooksRouter.findById id books = Some (i, b) →
  books !! i = Some b ∧ BooksRouter.book_id b = id.
Proof. by intros (? & ? & _)%list_find_Some. Qed.

(** X22: the key of a deleted book is given out again.  In a catalogue
    whose books have the keys their positions give, delete any book but
    the last and then create a book with an ISBN the catalogue does not
    have: the creation is accepted, and the new book gets the key of the
    book that was last before, which is still in the catalogue.  A read
    by that key answers with the older book. *)
Theorem deleted_id_reused books id i b body now1 now2 :
  BooksRouter.idsByPosition books →
  BooksRouter.findById id books = Some (i, b) →
  (i + 1 < length books)%nat →
  BooksRouter.c_ISBN body ∉ BooksRouter.ISBN <$> books →
  let books1 := (BooksRouter.deleteBook id books).2 in
  let new := BooksRouter.newBook books1 body now1 now2 in
  ∃ old,
    last books = Some old ∧
    BooksRouter.createBook body now1 now2 books1
    = (BooksRouter.Created new, books1 ++ [new]) ∧
    old ∈ books1 ∧
    BooksRouter.book_id new = BooksRouter.book_id old ∧
    new ≠ old ∧
    BooksRouter.getBook (BooksRouter.book_id new) (books1 ++ [new])
    = BooksRouter.Found old.
Proof.
  intros Hids Hfind Hlt Hfresh books1 new.
  assert (books1 = delete i books) as Hbooks1.
  { unfold books1, BooksRouter.deleteBook. by rewrite Hfind. }
  pose proof (findById_Some _ _ _ _ Hfind) as [Hi _].
  assert (length books1 = (length books - 1)%nat) as Hlen.
  { rewrite Hbooks1. apply length_delete. by exists b. }
  destruct (lookup_lt_is_Some_2 books (length books - 1)) as [old Hold];
    [lia|].
  assert (books1 !! (length books - 2)%nat = Some old) as Hold1.
  { rewrite Hbooks1, list_lookup_delete_ge by lia.
    by replace (S (length books - 2)) with (length books - 1)%nat by lia. }
  assert (BooksRouter.book_id new = BooksRouter.book_id old) as Hkey.
  { rewrite (Hids _ _ Hold). unfold new. simpl. by rewrite Hlen. }
  assert (BooksRouter.c_ISBN body ∉ BooksRouter.ISBN <$> books1) as Hfresh1.
  { intros (y & Hy & Hin)%list_elem_of_fmap. apply Hfresh.
    apply list_elem_of_fmap. exists y. split; [done|].
    rewrite Hbooks1 in Hin.
    eapply elem_of_sublist; [done|apply sublist_delete]. }
  exists old. split_and!.
  - rewrite last_lookup.
    by replace (Init.Nat.pred (length books)) with (length books - 1)%nat
      by lia.
  - by destruct (createBook_cases body now1 now2 books1)
      as [[_ Hin]|[Hcreate _]].
  - by eapply list_elem_of_lookup_2.
  - done.
  - intros Heq. apply Hfresh. apply list_elem_of_fmap. exists old.
    split; [by rewrite <-Heq|]. by eapply list_elem_of_lookup_2.
  - unfold BooksRouter.getBook, BooksRouter.findById.
    erewrite list_find_app_l; [done|].
    apply list_find_Some. split_and!; [exact Hold1|by rewrite Hkey|].
    intros j y Hj Hjlt. rewrite Hkey, (Hids _ _ Hold).
    rewrite Hbooks1 in Hj.
    destruct (decide (j < i)%nat).
    + rewrite list_lookup_delete_lt in Hj by done.
      rewrite (Hids _ _ Hj). intros Heq%book_key_inj. lia.
    + rewrite list_lookup_delete_ge in Hj by lia.
      rewrite (Hids _ _ Hj). intros Heq%book_key_inj. lia.
Qed.

Lemma deleted_id_reused_witness :
  ∃ old,
    last BooksRouter.seedBooks = Some old ∧
    BooksRouter.book_id old = "book3" ∧
    BooksRouter.getBook "book3"
      (BooksRouter.run
         [ BooksRouter.Delete "book1";
           BooksRouter.Create
             (BooksRouter.mkCreateBody "Dune" "Frank Herbert"
                "978-0-441-17271-9" "Fiction" 1965 2 None None None
                "English" None) 1708387200000 1708387200000 ]
         BooksRouter.seedBooks)
    = BooksRouter.Found old.
Proof.
  destruct (deleted_id_reused BooksRouter.seedBooks "book1" 0 
              (BooksRouter.mkBook "book1" "The Great Gatsby"
                 "F. Scott Fitzgerald" "978-0-7432-7356-5" "Fiction" 1925
                 3 5 (Some "A classic American novel set in the Jazz Age")
                 (Some "Scribner") "English" (Some 180) None None)
              (BooksRouter.mkCreateBody "Dune" "Frank Herbert"
                 "978-0-441-17271-9" "Fiction" 1965 2 None None None
                 "English" None) 1708387200000 1708387200000)
    as (old & Hlast & _ & _ & _ & _ & Hget).
  - exact seedBooks_idsByPosition.
  - reflexivity.
  - simpl. lia.
  - apply (bool_decide_unpack _). vm_compute. reflexivity.
  - exists old. split; [exact Hlast|]. split.
    + simpl in Hlast. injection Hlast as <-. reflexivity.
    + exact Hget.
Defined.

(** X23: two books with one key defeat the ISBN test of the update
    handler.  If the book found under a key is not the only one with
    that key, an update by that key to the ISBN of another book with the
    key is accepted when every holder of that ISBN has the key, and it
    leaves two books with one ISBN. *)
Theorem shared_id_defeats_isbn_check books id i bi j bj body now :
  BooksRouter.findById id books = Some (i, bi) →
  books !! j = Some bj →
  i ≠ j →
  BooksRouter.book_id bj = id →
  BooksRouter.u_ISBN body = Some (BooksRouter.ISBN bj) →
  (∀ b, b ∈ books → BooksRouter.ISBN b = BooksRouter.ISBN bj →
        BooksRouter.book_id b = id) →
  let updated := BooksRouter.updatedBook bi body now in
  BooksRouter.updateBook id body now books
  = (BooksRouter.Updated updated, <[i:=updated]> books) ∧
  <[i:=updated]> books !! i = Some updated ∧
  <[i:=updated]> books !! j = Some bj ∧
  BooksRouter.ISBN updated = BooksRouter.ISBN bj ∧
  ¬ BooksRouter.uniqueISBN (<[i:=updated]> books).
Proof.
  intros Hfind Hj Hij Hkey Hbody Hholders updated.
  pose proof (findById_Some _ _ _ _ Hfind) as [Hi _].
  assert (BooksRouter.isbnTaken id body books = false) as Htaken.
  { unfold BooksRouter.isbnTaken. rewrite Hbody.
    case_bool_decide; [done|]. apply bool_decide_eq_false.
    intros [[k y] Hk]. apply list_find_Some in Hk as (Hk & [Hy Hne] & _).
    apply Hne, Hholders; [|done]. by eapply list_elem_of_lookup_2. }
  assert (<[i:=updated]> books !! i = Some updated) as Hi'.
  { apply list_lookup_insert_eq. by eapply lookup_lt_Some. }
  assert (<[i:=updated]> books !! j = Some bj) as Hj'.
  { by rewrite list_lookup_insert_ne. }
  assert (BooksRouter.ISBN updated = BooksRouter.ISBN bj) as Hisbn.
  { unfold updated. simpl. by rewrite Hbody. }
  split_and!; [|done..|].
  - unfold BooksRouter.updateBook. by rewrite Hfind, Htaken.
  - unfold BooksRouter.uniqueISBN. intros Hnodup.
    apply Hij. apply (proj1 (NoDup_alt _) Hnodup i j (BooksRouter.ISBN bj)).
    + rewrite list_lookup_fmap, Hi'. exact (f_equal Some Hisbn).
    + by rewrite list_lookup_fmap, Hj'.
Qed.

Lemma shared_id_defeats_isbn_check_witness :
  ¬ BooksRouter.uniqueISBN
      (BooksRouter.run
         [ BooksRouter.Delete "book1";
           BooksRouter.Create
             (BooksRouter.mkCreateBody "Dune" "Frank Herbert"
                "978-0-441-17271-9" "Fiction" 1965 2 None None None
                "English" None) 1708387200000 1708387200000;
           BooksRouter.Update "book3"
             (BooksRouter.mkUpdateBody None None (Some "978-0-441-17271-9")
                None None None None None None None None) 1708387200001 ]
         BooksRouter.seedBooks).
Proof.
  refine (proj2 (proj2 (proj2 (proj2
    (shared_id_defeats_isbn_check
       (BooksRouter.run
          [ BooksRouter.Delete "book1";
            BooksRouter.Create
              (BooksRouter.mkCreateBody "Dune" "Frank Herbert"
                 "978-0-441-17271-9" "Fiction" 1965 2 None None None
                 "English" None) 1708387200000 1708387200000 ]
          BooksRouter.seedBooks)
       "book3" 1
       (BooksRouter.mkBook "book3" "Introduction to Algorithms"
          "Thomas H. Cormen" "978-0-262-03384-8" "Technology" 2009 1 3
          (Some "Comprehensive introduction to algorithms and data structures")
          (Some "MIT Press") "English" (Some 1312) None None)
       2
       (BooksRouter.mkBook "book3" "Dune" "Frank Herbert"
          "978-0-441-17271-9" "Fiction" 1965 2 2 None None "English" None
          (Some 1708387200000) (Some 1708387200000))
       (BooksRouter.mkUpdateBody None None (Some "978-0-441-17271-9")
          None None None None None None None None) 1708387200001
       _ _ _ _ _ _))))).
  - reflexivity.
  - reflexivity.
  - lia.
  - reflexivity.
  - reflexivity.
  - intros b Hb Hisbn.
    change (b ∈ [ BooksRouter.mkBook "book2" "To Kill a Mockingbird"
                    "Harper Lee" "978-0-06-112008-4" "Fiction" 1960 2 4
                    (Some "A gripping tale of racial injustice and childhood innocence")
                    (Some "J.B. Lippincott & Co.") "English" (Some 281)
                    None None;
                  BooksRouter.mkBook "book3" "Introduction to Algorithms"
                    "Thomas H. Cormen" "978-0-262-03384-8" "Technology"
                    2009 1 3
                    (Some "Comprehensive introduction to algorithms and data structures")
                    (Some "MIT Press") "English" (Some 1312) None None;
                  BooksRouter.mkBook "book3" "Dune" "Frank Herbert"
                    "978-0-441-17271-9" "Fiction" 1965 2 2 None None
                    "English" None (Some 1708387200000)
                    (Some 1708387200000) ]) in Hb.
    rewrite !elem_of_cons, elem_of_nil in Hb.
    destruct Hb as [->|[->|[->|[]]]]; simpl in Hisbn;
      [discriminate..|reflexivity].
Defined.

(** X24: a created book is never out of stock.  With the quantities the
    validation lets through (at least one copy in total, no negative
    number of available copies), the created book has at least one
    available copy: a request for 0 available copies is stored with all
    copies available, any other number is stored as given, also above
    the total.  In a catalogue whose books have the keys their positions
    give, the availability read of the new key says so. *)
Theorem created_book_available body now1 now2 books b books' :
  1 ≤ BooksRouter.c_totalQuantity body →
  (∀ n, BooksRouter.c_availableQuantity body = Some n → 0 ≤ n) →
  BooksRouter.createBook body now1 now2 books
  = (BooksRouter.Created b, books') →
  books' = books ++ [b] ∧
  BooksRouter.totalQuantity b = BooksRouter.c_totalQuantity body ∧
  0 < BooksRouter.availableQuantity b ∧
  (∀ n, BooksRouter.c_availableQuantity body = Some n → n ≠ 0 →
        BooksRouter.availableQuantity b = n) ∧
  (BooksRouter.c_availableQuantity body = None ∨
   BooksRouter.c_availableQuantity body = Some 0 →
   BooksRouter.availableQuantity b = BooksRouter.totalQuantity b) ∧
  (BooksRouter.idsByPosition books →
   BooksRouter.availability (BooksRouter.book_id b) books'
   = BooksRouter.Availability (BooksRouter.book_id b) (BooksRouter.title b)
       true (BooksRouter.availableQuantity b) (BooksRouter.totalQuantity b)
       "Available").
Proof.
  intros Htotal Havail Hcreate.
  destruct (createBook_cases body now1 now2 books) as [[Hc _]|[Hc _]];
    rewrite Hc in Hcreate; [done|].
  injection Hcreate as <- <-.
  assert (0 < BooksRouter.initialQuantity body) as Hpos.
  { unfold BooksRouter.initialQuantity.
    destruct (BooksRouter.c_availableQuantity body) as [n|] eqn:Hn; [|lia].
    specialize (Havail n eq_refl). case_bool_decide; lia. }
  split_and!; [done..| | |].
  - intros n Hn Hne. simpl. unfold BooksRouter.initialQuantity.
    rewrite Hn. by rewrite bool_decide_eq_false_2.
  - intros [Hn|Hn]; simpl; unfold BooksRouter.initialQuantity;
      by rewrite Hn.
  - intros Hids. unfold BooksRouter.availability.
    assert (BooksRouter.findById
              (BooksRouter.book_id (BooksRouter.newBook books body now1 now2))
              (books ++ [BooksRouter.newBook books body now1 now2])
            = Some (length books,
                    BooksRouter.newBook books body now1 now2)) as ->.
    { apply list_find_Some. split_and!.
      - by rewrite lookup_app_r, Nat.sub_diag by lia.
      - done.
      - intros j y Hj Hlt. rewrite lookup_app_l in Hj by done.
        rewrite (Hids _ _ Hj). simpl. intros Heq%book_key_inj. lia. }
    simpl. by rewrite !bool_decide_eq_true_2 by done.
Qed.

Lemma created_book_available_witness :
  ∃ b books',
    BooksRouter.createBook
      (BooksRouter.mkCreateBody "Dune" "Frank Herbert" "978-0-441-17271-9"
         "Fiction" 1965 2 (Some 0) None None "English" None)
      1708387200000 1708387200000 BooksRouter.seedBooks
    = (BooksRouter.Created b, books') ∧
    BooksRouter.availableQuantity b = 2.
Proof.
  eexists _, _. split; [reflexivity|].
  refine (proj1 (proj2 (proj2 (proj2 (proj2
    (created_book_available
       (BooksRouter.mkCreateBody "Dune" "Frank Herbert"
          "978-0-441-17271-9" "Fiction" 1965 2 (Some 0) None None
          "English" None)
       1708387200000 1708387200000 BooksRouter.seedBooks
       (BooksRouter.mkBook "book4" "Dune" "Frank Herbert"
          "978-0-441-17271-9" "Fiction" 1965 2 2 None None "English" None
          (Some 1708387200000) (Some 1708387200000))
       _ _ _ eq_refl))))) _).
  - simpl. lia.
  - simpl. intros n [= <-]. lia.
  - by right.
Defined.

(** X25: reads after writes in the catalogue.  A request answered with
    404 or 409 leaves the catalogue as it was.  After an accepted
    update, a read by the same key answers with the updated book, and
    the update changed neither the key nor the creation date of the
    book, nor any other book.  After an accepted deletion the catalogue
    is one book shorter and, when keys are distinct, a read by the
    deleted key answers 404. *)
Theorem catalogue_reads_after_writes books :
  (∀ req, BooksRouter.httpStatus (BooksRouter.handle req books).1 = 404 ∨
          BooksRouter.httpStatus (BooksRouter.handle req books).1 = 409 →
          (BooksRouter.handle req books).2 = books) ∧
  (∀ id body now u books',
     BooksRouter.updateBook id body now books
     = (BooksRouter.Updated u, books') →
     BooksRouter.getBook id books' = BooksRouter.Found u ∧
     ∃ i b, BooksRouter.findById id books = Some (i, b) ∧
            books' = <[i:=u]> books ∧
            BooksRouter.book_id u = id ∧
            BooksRouter.createdAt u = BooksRouter.createdAt b) ∧
  (∀ id b books',
     BooksRouter.deleteBook id books = (BooksRouter.Deleted b, books') →
     (length books' + 1)%nat = length books ∧
     BooksRouter.book_id b = id ∧
     (NoDup (BooksRouter.book_id <$> books) →
      BooksRouter.getBook id books' = BooksRouter.NotFound)).
Proof.
  split_and!.
  - intros [body now1 now2|id body now|id] Hstatus; simpl in *.
    + by destruct (createBook_cases body now1 now2 books)
        as [[-> _]|[Hc _]]; [|rewrite Hc in Hstatus; destruct Hstatus].
    + by destruct (updateBook_cases id body now books)
        as [[_ ->]|[(i & b & _ & _ & ->)|(i & b & _ & _ & Hu)]];
        [..|rewrite Hu in Hstatus; destruct Hstatus].
    + unfold BooksRouter.deleteBook in *.
      destruct (BooksRouter.findById id books) as [[i b]|]; [|done].
      by destruct Hstatus.
  - intros id body now u books' Hupdate.
    destruct (updateBook_cases id body now books)
      as [[_ Hu]|[(i & b & _ & _ & Hu)|(i & b & Hfind & _ & Hu)]];
      rewrite Hu in Hupdate; [done..|].
    injection Hupdate as <- <-.
    pose proof (findById_Some _ _ _ _ Hfind) as [Hi Hid].
    split.
    + unfold BooksRouter.getBook, BooksRouter.findById.
      by erewrite list_find_insert_same.
    + by exists i, b.
  - intros id b books' Hdelete. unfold BooksRouter.deleteBook in Hdelete.
    destruct (BooksRouter.findById id books) as [[i b0]|] eqn:Hfind;
      [|done].
    injection Hdelete as <- <-.
    pose proof (findById_Some _ _ _ _ Hfind) as [Hi Hid].
    split_and!.
    + rewrite length_delete by (by exists b0).
      apply lookup_lt_Some in Hi. lia.
    + done.
    + intros Hids. unfold BooksRouter.getBook, BooksRouter.findById.
      assert (list_find (λ b, BooksRouter.book_id b = id) (delete i books)
              = None) as ->; [|done].
      apply list_find_None, Forall_lookup. intros j y Hj Hy.
      assert (∀ k, books !! k = Some y → k = i) as Hsame.
      { intros k Hk. apply (proj1 (NoDup_alt _) Hids k i id).
        - by rewrite list_lookup_fmap, Hk; simpl; rewrite Hy.
        - by rewrite list_lookup_fmap, Hi; simpl; rewrite Hid. }
      destruct (decide (j < i)%nat).
      * rewrite list_lookup_delete_lt in Hj by done.
        apply Hsame in Hj. lia.
      * rewrite list_lookup_delete_ge in Hj by lia.
        apply Hsame in Hj. lia.
Qed.

Lemma catalogue_reads_after_writes_witness :
  BooksRouter.getBook "book2"
    (BooksRouter.deleteBook "book2" BooksRouter.seedBooks).2
  = BooksRouter.NotFound.
Proof.
  destruct (catalogue_reads_after_writes BooksRouter.seedBooks)
    as (_ & _ & Hdelete).
  destruct (Hdelete "book2"
              (BooksRouter.mkBook "book2" "To Kill a Mockingbird"
                 "Harper Lee" "978-0-06-112008-4" "Fiction" 1960 2 4
                 (Some "A gripping tale of racial injustice and childhood innocence")
                 (Some "J.B. Lippincott & Co.") "English" (Some 281)
                 None None)
              (BooksRouter.deleteBook "book2" BooksRouter.seedBooks).2
              eq_refl) as (_ & _ & Hget).
  apply Hget. apply (bool_decide_unpack _). vm_compute. reflexivity.
Defined.

(** * The users router *)

Lemma users_findById_Some id users i u :
  UsersRouter.findById id users = Some (i, u) →
  users !! i = Some u ∧ UsersRouter.user_id u = id.
Proof. by intros (? & ? & _)%list_find_Some. Qed.

Lemma denied_true caller id :
  UsersRouter.denied caller id = true ↔
  caller_id caller ≠ id ∧ caller_role caller ≠ Some "ADMIN".
Proof.
  unfold UsersRouter.denied.
  by rewrite andb_true_iff, !bool_decide_eq_true.
Qed.

(** X26: who is refused by the users router.  For each of the three
    handlers that take a user key, the answer is 403 exactly when a user
    with the key exists, the key is not the caller's and the caller's
    role is not ADMIN; it is 404 exactly when no user has the key, the
    caller being whoever it is.  A refused update leaves the users as
    they were. *)
Theorem profile_access caller id body now users :
  let denial := is_Some (UsersRouter.findById id users) ∧
                caller_id caller ≠ id ∧
                caller_role caller ≠ Some "ADMIN" in
  let missing := UsersRouter.findById id users = None in
  (UsersRouter.httpStatus (UsersRouter.getUser caller id users) = 403
   ↔ denial) ∧
  (UsersRouter.httpStatus (UsersRouter.getBorrowedBooks caller id users) = 403
   ↔ denial) ∧
  (UsersRouter.httpStatus (UsersRouter.updateUser caller id body now users).1
   = 403 ↔ denial) ∧
  (UsersRouter.httpStatus (UsersRouter.getUser caller id users) = 404
   ↔ missing) ∧
  (UsersRouter.httpStatus (UsersRouter.getBorrowedBooks caller id users) = 404
   ↔ missing) ∧
  (UsersRouter.httpStatus (UsersRouter.updateUser caller id body now users).1
   = 404 ↔ missing) ∧
  (UsersRouter.httpStatus (UsersRouter.updateUser caller id body now users).1
   ≠ 200 →
   (UsersRouter.updateUser caller id body now users).2 = users).
Proof.
  intros denial missing. unfold denial, missing.
  unfold UsersRouter.getUser, UsersRouter.getBorrowedBooks,
    UsersRouter.updateUser.
  destruct (UsersRouter.findById id users) as [[i u]|] eqn:Hfind.
  - pose proof (users_findById_Some _ _ _ _ Hfind) as [_ Hid].
    rewrite Hid.
    destruct (UsersRouter.denied caller id) eqn:Hden; simpl.
    + apply denied_true in Hden.
      split_and!; try done; split; try done; by intros _; split.
    + assert (¬ (caller_id caller ≠ id ∧
                 caller_role caller ≠ Some "ADMIN")) as Hnot.
      { intros Hd%denied_true. by rewrite Hd in Hden. }
      split_and!; try done; try (by intros []);
        split; try done; by intros (_ & ? & ?); destruct Hnot.
  - simpl. split_and!; try done; split; try done; by intros [[? ?] _].
Qed.

Lemma profile_access_witness :
  UsersRouter.httpStatus
    (UsersRouter.getUser (mkCaller "user2" None) "user1"
       UsersRouter.seedUsers) = 403 ∧
  UsersRouter.httpStatus
    (UsersRouter.getUser (mkCaller "user2" None) "user9"
       UsersRouter.seedUsers) = 404.
Proof.
  split.
  - apply (proj1 (profile_access (mkCaller "user2" None) "user1"
                    (UsersRouter.mkUpdateBody None None None) 0
                    UsersRouter.seedUsers)).
    split; [by eexists|]. by split.
  - apply (proj1 (proj2 (proj2 (proj2
             (profile_access (mkCaller "user2" None) "user9"
                (UsersRouter.mkUpdateBody None None None) 0
                UsersRouter.seedUsers))))).
    reflexivity.
Defined.

(** X27: what a profile update cannot change.  An accepted update
    replaces the user found under the key and no other; the new record
    has the key, e-mail address, membership type, active flag, borrowed
    books and creation date of the old one.  So the profile read after
    the update reports the updated user with the borrowing limit, the
    count and the [canBorrowMore] flag that it reported before, to every
    caller. *)
Theorem profile_update_keeps_membership caller id body now users u users' :
  UsersRouter.updateUser caller id body now users
  = (UsersRouter.Updated u, users') →
  ∃ i old,
    UsersRouter.findById id users = Some (i, old) ∧
    users' = <[i:=u]> users ∧
    UsersRouter.user_id u = id ∧
    UsersRouter.email u = UsersRouter.email old ∧
    UsersRouter.membershipType u = UsersRouter.membershipType old ∧
    UsersRouter.isActive u = UsersRouter.isActive old ∧
    UsersRouter.borrowedBooks u = UsersRouter.borrowedBooks old ∧
    UsersRouter.createdAt u = UsersRouter.createdAt old ∧
    UsersRouter.updatedAt u = Some now ∧
    (∀ reader,
       UsersRouter.getUser reader id users'
       = match UsersRouter.getUser reader id users with
         | UsersRouter.Profile _ limit count more =>
             UsersRouter.Profile u limit count more
         | r => r
         end) ∧
    (∀ reader id', id' ≠ id →
       UsersRouter.getUser reader id' users'
       = UsersRouter.getUser reader id' users).
Proof.
  unfold UsersRouter.updateUser.
  destruct (UsersRouter.findById id users) as [[i old]|] eqn:Hfind; [|done].
  destruct (UsersRouter.denied caller id); [done|].
  intros [= <- <-]. exists i, old.
  pose proof (users_findById_Some _ _ _ _ Hfind) as [Hi Hid].
  split_and!; try done.
  - intros reader. unfold UsersRouter.getUser, UsersRouter.findById.
    erewrite list_find_insert_same; [|exact Hfind|done].
    fold (UsersRouter.findById id users). rewrite Hfind. simpl.
    by destruct (UsersRouter.denied reader (UsersRouter.user_id old)).
  - intros reader id' Hne. unfold UsersRouter.getUser.
    assert (UsersRouter.findById id' (<[i:=UsersRouter.updatedUser old body now]> users)
            = UsersRouter.findById id' users) as ->; [|done].
    unfold UsersRouter.findById.
    destruct (list_find (λ u0, UsersRouter.user_id u0 = id') users)
      as [[k v]|] eqn:Hfind'.
    + apply list_find_Some in Hfind' as (Hk & Hv & Hleast).
      assert (k ≠ i) as Hki.
      { intros ->. rewrite Hi in Hk. injection Hk as <-. congruence. }
      apply list_find_Some. split_and!; [|done|].
      * by rewrite list_lookup_insert_ne.
      * intros j y Hj Hlt.
        apply list_lookup_insert_Some in Hj as [(-> & <- & _)|[_ Hj]].
        -- simpl. congruence.
        -- by eapply Hleast.
    + apply list_find_None in Hfind'. apply list_find_None.
      apply Forall_lookup. intros j y Hj.
      apply list_lookup_insert_Some in Hj as [(-> & <- & _)|[_ Hj]].
      * simpl. congruence.
      * by eapply (proj1 (Forall_lookup _ _) Hfind').
Qed.

Lemma profile_update_keeps_membership_witness :
  ∃ u users',
    UsersRouter.updateUser (mkCaller "user3" None) "user3"
      (UsersRouter.mkUpdateBody (Some "Mike J.") None None) 1708387200000
      UsersRouter.seedUsers = (UsersRouter.Updated u, users') ∧
    UsersRouter.getUser (mkCaller "user3" None) "user3" users'
    = UsersRouter.Profile u (JNum 3) 0 true.
Proof.
  eexists _, _. split; [reflexivity|].
  destruct (profile_update_keeps_membership (mkCaller "user3" None) "user3"
              (UsersRouter.mkUpdateBody (Some "Mike J.") None None)
              1708387200000 UsersRouter.seedUsers
              (UsersRouter.updatedUser
                 (UsersRouter.mkUser "user3" "Mike Johnson"
                    "mike@library.com" "BASIC" true [] None None
                    (Some 1707523200000) None)
                 (UsersRouter.mkUpdateBody (Some "Mike J.") None None)
                 1708387200000)
              _ eq_refl)
    as (i & old & _ & _ & _ & _ & _ & _ & _ & _ & _ & Hread & _).
  exact (Hread (mkCaller "user3" None)).
Defined.

(** * The authentication middleware *)

(** X28: no authenticated request is an administrator's.  The user that
    [authenticateToken] attaches to a request has no role, so
    [requireAdmin] passes no such request on, the users router answers
    no read of another user's profile or borrowed books with 200 and
    accepts no update of it, and the transaction listing shows the
    caller's own transactions only, whatever the query asks for. *)
Theorem no_administrator uid :
  requireAdmin (authenticatedUser uid) = false ∧
  (∀ id users,
     id ≠ uid →
     UsersRouter.httpStatus
       (UsersRouter.getUser (authenticatedUser uid) id users) ≠ 200 ∧
     UsersRouter.httpStatus
       (UsersRouter.getBorrowedBooks (authenticatedUser uid) id users)
     ≠ 200 ∧
     ∀ body now,
       UsersRouter.httpStatus
         (UsersRouter.updateUser (authenticatedUser uid) id body now users).1
       ≠ 200 ∧
       (UsersRouter.updateUser (authenticatedUser uid) id body now users).2
       = users) ∧
  (∀ q now clock s item,
     item ∈ listedTransactions
              (listTransactions (authenticatedUser uid) q now clock s) →
     userId (item_transaction item) = uid).
Proof.
  split_and!.
  - done.
  - intros id users Hne.
    assert (UsersRouter.denied (authenticatedUser uid) id = true) as Hden.
    { apply denied_true. simpl. split; [congruence|done]. }
    unfold UsersRouter.getUser, UsersRouter.getBorrowedBooks,
      UsersRouter.updateUser.
    destruct (UsersRouter.findById id users) as [[i u]|] eqn:Hfind.
    + pose proof (users_findById_Some _ _ _ _ Hfind) as [_ Hid].
      rewrite Hid, Hden. simpl. by split_and!.
    + simpl. by split_and!.
  - intros q now clock s item [k Hk]%list_elem_of_lookup.
    apply listedTransactions_lookup in Hk as [_ Hin].
    apply filteredTransactions_elem_of in Hin as (t & _ & Heq & Hown & _).
    rewrite Heq, deriveOverdue_userId. by apply Hown.
Qed.
